(** * ghost-theme-dev: the incremental build-and-notify pipeline of [src/index.js]

    A shallow embedding of the asset pipeline and live-reload coordinator:
    entry point discovery ([findFilesRecursively], [findEntryPoints]), the
    size formatter ([formatBytes]), the build executor ([writeAssets]) with
    its dependency index ([tree]), and the event handlers registered by
    [initWs] (file watcher, socket connections, client messages, the
    connection-health timer), with the schedules in which the rebuilds of
    the asynchronous watcher listener overlap; then the scaffolding of a
    theme folder
    ([makeSkeleton]) and the search for the running site ([runCommand],
    [parseGhostCliOutput]).

    External capabilities are kept abstract, as the program uses them: the
    bundler ([esbuild.build]), the JSON reader ([JSON.parse]), the commands
    run by [execSync] and the prompt ([select]) are parameters of the
    development; a concrete instance of each is supplied to run the model
    on examples. *)

From Stdlib Require Import ZArith NArith String Ascii DecimalString.
From stdpp Require Import gmap strings list fin_maps.

#[local] Open Scope string_scope.
#[local] Open Scope list_scope.
#[local] Open Scope N_scope.

(** Appending to a literal computes under [simpl]. *)
#[local] Arguments String.append : simpl nomatch.

(** ** Errors and results *)

(** The ways a computation ends early: the exceptions the program can raise,
    and [process.exit]. *)
Inductive Error :=
| RangeError          (* Number.prototype.toFixed with more than 100 digits *)
| TypeError           (* destructuring null, spreading undefined *)
| SyntaxError         (* JSON.parse on a malformed text *)
| BuildFailure        (* esbuild.build rejects *)
| FsError             (* readdir / stat reject *)
| Exit (code : N).    (* process.exit(code) *)

Inductive Result (A : Type) :=
| Ok (a : A)
| Throw (e : Error).
Arguments Ok {A} a.
Arguments Throw {A} e.

(** ** JavaScript string primitives *)

Module JsString.

(** [s.startsWith(p)] *)
Fixpoint startsWith (s p : string) {struct p} : bool :=
  match p with
  | EmptyString => true
  | String c p' =>
      match s with
      | EmptyString => false
      | String d s' => Ascii.eqb d c && startsWith s' p'
      end
  end.

(** [s.includes(p)]: [p] starts at some position of [s]. *)
Fixpoint includes (s p : string) : bool :=
  startsWith s p ||
  match s with
  | EmptyString => false
  | String _ s' => includes s' p
  end.

(** [s.endsWith(p)]: some suffix of [s] is [p]. *)
Fixpoint endsWith (s p : string) : bool :=
  String.eqb s p ||
  match s with
  | EmptyString => false
  | String _ s' => endsWith s' p
  end.

(** [exts.some((ext) => file.endsWith(ext))] *)
Definition some_endsWith (exts : list string) (file : string) : bool :=
  existsb (fun ext => endsWith file ext) exts.

(** The remainder of [s] after the prefix [p], when [s] starts with it. *)
Fixpoint strip_prefix (p s : string) {struct p} : option string :=
  match p with
  | EmptyString => Some s
  | String c p' =>
      match s with
      | EmptyString => None
      | String d s' => if Ascii.eqb d c then strip_prefix p' s' else None
      end
  end.

(** A match of [index\.(css|js|ts)$] that begins at the first character. *)
Definition index_regex_here (s : string) : bool :=
  match strip_prefix "index." s with
  | Some rest =>
      String.eqb rest "css" || String.eqb rest "js" || String.eqb rest "ts"
  | None => false
  end.

(** [/index\.(css|js|ts)$/.test(s)]: the expression is not anchored on the
    left, so a match may begin at any position; [$] (no [m] flag) only
    matches at the end of the text. *)
Fixpoint index_regex_test (s : string) : bool :=
  index_regex_here s ||
  match s with
  | EmptyString => false
  | String _ s' => index_regex_test s'
  end.

(** Truthiness of a string: only the empty string is falsy. *)
Definition truthy (s : string) : bool :=
  match s with EmptyString => false | _ => true end.

End JsString.
Import JsString.

(** ** formatBytes *)

Definition N_to_string (n : N) : string :=
  NilZero.string_of_uint (N.to_uint n).

(** [n] copies of the character "0". *)
Fixpoint zeros (n : nat) : string :=
  match n with O => "" | S n' => String "0" (zeros n') end.

(** [s] padded on the left with "0" up to [width] characters. *)
Definition pad_left (width : nat) (s : string) : string :=
  zeros (width - String.length s) +:+ s.

(** [x.toFixed(dm)] for the non-negative number [x = num / den]. The digits
    are those of the integer [n] for which [n / 10^dm - x] is closest to
    zero, the larger one on a tie; [dm] digits follow the point. More than
    100 digits is a RangeError. *)
Definition toFixed (num den : N) (dm : Z) : Result string :=
  if ((dm <? 0) || (100 <? dm))%Z then Throw RangeError
  else
    let f := Z.to_N dm in
    let n := (2 * num * 10 ^ f + den) / (2 * den) in
    if f =? 0 then Ok (N_to_string n)
    else Ok (N_to_string (n / 10 ^ f) +:+ "." +:+
             pad_left (N.to_nat f) (N_to_string (n mod 10 ^ f))).

(** Removes the characters "0" at the end of [s]. *)
Fixpoint strip_zeros (s : string) : string :=
  match s with
  | EmptyString => EmptyString
  | String c s' =>
      match strip_zeros s' with
      | EmptyString => if Ascii.eqb c "0" then EmptyString else String c EmptyString
      | t => String c t
      end
  end.

(** The text of [parseFloat(s)] inside a template literal, for [s] made of an
    integer part, and possibly a point and a fraction: the zeros that end the
    fraction are not printed, nor is the point when nothing follows it. This
    is the text for an [s] of at most 15 significant digits, which a double
    holds; a longer [s] is printed as the shortest text of the nearest
    double. *)
Fixpoint parseFloat_text (s : string) : string :=
  match s with
  | EmptyString => EmptyString
  | String c s' =>
      if Ascii.eqb c "."
      then match strip_zeros s' with
           | EmptyString => EmptyString
           | frac => String "." frac
           end
      else String c (parseFloat_text s')
  end.

Definition sizes : list string :=
  ["Bytes"; "KiB"; "MiB"; "GiB"; "TiB"; "PiB"; "EiB"; "ZiB"; "YiB"].

(** [sizes[i]] inside a template literal; past the end it reads "undefined". *)
Definition sizes_at (i : N) : string :=
  nth (N.to_nat i) sizes "undefined".

(** The exact index of a byte count [bytes >= 1]: the largest [i] with
    [1024^i <= bytes]. This is what [Math.floor(Math.log(bytes) /
    Math.log(1024))] aims at; the engine evaluates that expression in
    doubles, with a [Math.log] the language leaves approximate, and just
    below a power of 1024 it can come out one higher (see
    [formatBytes_with]). *)
Definition floor_log1024 (bytes : N) : N := N.log2 bytes / 10.

(** [formatBytes(bytes, decimals)] on an engine that computes the index
    [log_index bytes] for [Math.floor(Math.log(bytes) / Math.log(k))]. The
    argument is a byte count, or [None] for a missing one ([undefined], for
    which [+bytes] is NaN). A byte count is an integer below [2^53]: it is a
    double, its quotient by a power of 1024 is exact, and [toFixed] rounds
    the exact value. *)
Definition formatBytes_with (log_index : N -> N) (bytes : option N) (decimals : Z)
  : Result string :=
  match bytes with
  | None | Some 0 => Ok "0 Bytes"
  | Some b =>
      let k := 1024 in
      let dm := if (decimals <? 0)%Z then 0%Z else decimals in
      let i := log_index b in
      match toFixed b (k ^ i) dm with
      | Ok digits => Ok (parseFloat_text digits +:+ " " +:+ sizes_at i)
      | Throw e => Throw e
      end
  end.

(** [formatBytes(bytes, decimals)] on an engine whose index is the exact
    one. *)
Definition formatBytes (bytes : option N) (decimals : Z) : Result string :=
  match bytes with
  | None | Some 0 => Ok "0 Bytes"
  | Some b =>
      let k := 1024 in
      let dm := if (decimals <? 0)%Z then 0%Z else decimals in
      let i := floor_log1024 b in
      match toFixed b (k ^ i) dm with
      | Ok digits => Ok (parseFloat_text digits +:+ " " +:+ sizes_at i)
      | Throw e => Throw e
      end
  end.

(** The default value of the parameter [decimals]. *)
Definition default_decimals : Z := 2.





(** ** Entry point discovery *)

(** What [readdir] and [stat] see below a directory. [Unreadable] stands for
    an entry on which [stat] or [readdir] rejects (absent, broken link, no
    permission). The names of a directory are those [readdir] returns. *)
#[warnings="-register-all"]
Inductive fsnode :=
| File
| Dir (entries : list (string * fsnode))
| Unreadable.

(** The segments of a path: the texts between its separators. *)
Fixpoint segments (s : string) : list string :=
  match s with
  | EmptyString => [EmptyString]
  | String c s' =>
      if Ascii.eqb c "/" then EmptyString :: segments s'
      else
        match segments s' with
        | seg :: rest => String c seg :: rest
        | [] => [String c EmptyString]
        end
  end.

(** A segment that normalization keeps as it is: not empty, not "." and not
    "..". *)
Definition proper_name (s : string) : bool :=
  negb (String.eqb s "") && negb (String.eqb s ".") && negb (String.eqb s "..").

(** A name as [readdir] returns them: a proper segment without separator. *)
Definition readdir_name (s : string) : bool :=
  proper_name s && negb (includes s "/").

(** A normalized directory path, relative or absolute, that goes through
    proper segments only: no "." or ".." segment, no doubled or final
    separator, and not the empty path or the root alone. *)
Definition normalized_dir (dir : string) : bool :=
  forallb proper_name
    (segments (match strip_prefix "/" dir with Some rest => rest | None => dir end)).

(** [normalizeString] of node:path (lib/path.js), on the segments of the
    path: empty and "." segments are dropped, a ".." takes back the segment
    before it, or is kept, when the path may rise above its start, if there
    is none to take back. *)
Definition normalize_segments (allowAboveRoot : bool) (segs : list string)
  : list string :=
  foldl (fun stack seg =>
           if String.eqb seg "" || String.eqb seg "." then stack
           else if String.eqb seg ".." then
             match last stack with
             | Some l =>
                 if String.eqb l ".."
                 then (if allowAboveRoot then stack ++ [".."] else stack)
                 else removelast stack
             | None => if allowAboveRoot then [".."] else []
             end
           else stack ++ [seg])
        [] segs.

(** The segments put together again, a separator between two of them. *)
Fixpoint unsegments (segs : list string) : string :=
  match segs with
  | [] => EmptyString
  | [seg] => seg
  | seg :: rest => seg +:+ "/" +:+ unsegments rest
  end.

(** [path.normalize(path)] of node:path on a POSIX system (lib/path.js). *)
Definition path_normalize (path : string) : string :=
  match path with
  | EmptyString => "."
  | _ =>
      let isAbsolute := startsWith path "/" in
      let trailingSeparator := endsWith path "/" in
      match unsegments (normalize_segments (negb isAbsolute) (segments path)) with
      | EmptyString =>
          if isAbsolute then "/" else if trailingSeparator then "./" else "."
      | res =>
          (if isAbsolute then "/" else "") +:+ res +:+
          (if trailingSeparator then "/" else "")
      end
  end.

(** [join(a, b)] of node:path on a POSIX system (lib/path.js): the
    arguments that are not empty, a separator between them, normalized. On
    a normalized directory and a name as [readdir] gives them there is
    nothing to normalize, and the result is the two texts with a separator
    between them. *)
Definition join (a b : string) : string :=
  match a, b with
  | EmptyString, EmptyString => "."
  | EmptyString, _ => path_normalize b
  | _, EmptyString => path_normalize a
  | _, _ => path_normalize (a +:+ "/" +:+ b)
  end.


(** [traverseDirectory(dir)], with the array [files] it pushes to passed
    along. A rejected [readdir] or [stat] ends the traversal. *)
Fixpoint traverseDirectory (dir : string) (node : fsnode) (files : list string)
  : Result (list string) :=
  match node with
  | Dir entries =>
      (fix for_entries (es : list (string * fsnode)) (files : list string)
         : Result (list string) :=
         match es with
         | [] => Ok files
         | (entry, child) :: es' =>
             let fullPath := join dir entry in
             match child with
             | File => for_entries es' (files ++ [fullPath])
             | Unreadable => Throw FsError
             | Dir _ =>
                 match traverseDirectory fullPath child files with
                 | Ok files' => for_entries es' files'
                 | Throw e => Throw e
                 end
             end
         end) entries files
  | File => Throw FsError
  | Unreadable => Throw FsError
  end.

Definition findFilesRecursively (directory : string) (node : fsnode)
  : Result (list string) :=
  traverseDirectory directory node [].

(** The test of the [filter] in [findEntryPoints]. *)
Definition is_entry_point (exts : list string) (file : string) : bool :=
  includes file "index" && some_endsWith exts file.

(** [findEntryPoints(entryPointPath, exts)], where [node] is what the file
    system holds at [entryPointPath]. [None] is the [undefined] returned
    after the [catch] (which also writes the error to the console). *)
Definition findEntryPoints (entryPointPath : string) (exts : list string)
    (node : fsnode) : option (list string) :=
  let directory := entryPointPath in
  match findFilesRecursively directory node with
  | Ok files => Some (filter (fun file => is_entry_point exts file = true) files)
  | Throw _ => None
  end.

(** The files below a directory, at any depth, with their full paths. *)
Inductive file_under : string -> fsnode -> string -> Prop :=
| file_here dir entries entry :
    (entry, File) ∈ entries ->
    file_under dir (Dir entries) (join dir entry)
| file_below dir entries entry child p :
    (entry, child) ∈ entries ->
    file_under (join dir entry) child p ->
    file_under dir (Dir entries) p.

(** A plain name: [readdir] returns names, which hold no separator. *)
Definition plain_name (s : string) : Prop := includes s "/" = false.

(** A well-formed directory tree: names are plain, and no directory holds a
    name twice. *)
#[warnings="-register-all"]
Inductive wf_fs : fsnode -> Prop :=
| wf_File : wf_fs File
| wf_Unreadable : wf_fs Unreadable
| wf_Dir entries :
    NoDup (entries.*1) ->
    Forall (fun e => plain_name e.1 /\ wf_fs e.2) entries ->
    wf_fs (Dir entries).

(** Every name of the tree is a name as [readdir] returns them. *)
#[warnings="-register-all"]
Inductive readdir_names : fsnode -> Prop :=
| names_File : readdir_names File
| names_Unreadable : readdir_names Unreadable
| names_Dir entries :
    Forall (fun e => readdir_name e.1 = true /\ readdir_names e.2) entries ->
    readdir_names (Dir entries).

(** Every [stat] and [readdir] below the node succeeds. *)
#[warnings="-register-all"]
Inductive readable : fsnode -> Prop :=
| readable_File : readable File
| readable_Dir entries :
    Forall (fun e => readable e.2) entries ->
    readable (Dir entries).

(** ** Values read from client messages *)

(** What [JSON.parse] returns. A number is kept as the decimal it was
    written as, [m * 10^e]; an object keeps its members in the order of the
    text. *)
#[warnings="-register-all"]
Inductive JSON :=
| JNull
| JBool (b : bool)
| JNumber (m e : Z)
| JString (s : string)
| JArray (items : list JSON)
| JObject (members : list (string * JSON)).

(** A JavaScript value that may be [undefined] ([None]). *)
Definition JsValue := option JSON.

(** The own property [key] of an object text: when the text names a key
    more than once, the last one is the one [JSON.parse] keeps. *)
Fixpoint member (key : string) (members : list (string * JSON)) : JsValue :=
  match members with
  | [] => None
  | (k, v) :: rest =>
      match member key rest with
      | Some v' => Some v'
      | None => if String.eqb k key then Some v else None
      end
  end.

(** Reading the property [key] off a value in a destructuring pattern. It is
    a TypeError on [null]; numbers, strings, booleans and arrays have no
    property named [url], [title] or [version], so reading one of those keys
    (the only ones the program reads) gives [undefined]. *)
Definition get_property (v : JSON) (key : string) : Result JsValue :=
  match v with
  | JNull => Throw TypeError
  | JObject members => Ok (member key members)
  | _ => Ok None
  end.

(** A decimal [m * 10^e] that the nearest double rounds to zero: those of
    magnitude at most [2^-1075], half the least positive double. *)
Definition rounds_to_zero (m e : Z) : bool :=
  (if 0 <=? e then Z.abs m =? 0
   else Z.abs m * 2 ^ 1075 <=? 10 ^ (- e))%Z.

(** Truthiness of a value: [undefined], [null], [false], zero and the empty
    string are falsy. *)
Definition js_truthy (v : JsValue) : bool :=
  match v with
  | None => false
  | Some JNull => false
  | Some (JBool b) => b
  | Some (JNumber m e) => negb (rounds_to_zero m e)
  | Some (JString s) => truthy s
  | Some (JArray _) => true
  | Some (JObject _) => true
  end.

(** ** The bundler interface *)

(** The script appended to the primary bundle in watch mode. Its text opens
    a socket to port 3000, reports the page and reloads on a message that
    includes [changed]; only its presence matters here. *)
Inductive Script := footerScript.

Record Footer := { js : Script }.

(** The options passed to [esbuild.build]. *)
Record BuildOptions := {
  entryPoints : list string;
  bundle : bool;
  outbase : string;
  outdir : string;
  minify : bool;
  sourcemap : bool;
  metafile_opt : bool;
  target : list string;
  external : list string;
  footer : option Footer;
}.

(** [res.metafile]: the keys of [inputs] in the order [Object.keys] lists
    them, and the entries of [outputs] (path and [bytes]) in the order
    [Object.entries] lists them. *)
Record Metafile := {
  inputs : list string;
  outputs : list (string * N);
}.

(** One line of a build report. *)
Record ResultItem := { file : string; value : string }.

(** What [writeAssets] returns. The elapsed time it also carries is read
    from the wall clock and is not part of the model. *)
Record BuildResult := { results : list ResultItem }.

(** ** Process state *)

(** [readyState] of a socket. *)
Inductive ReadyState := CONNECTING | OPEN | CLOSING | CLOSED.

#[global] Instance ReadyState_eq_dec : EqDecision ReadyState.
Proof. solve_decision. Defined.

(** A member of [wss.clients], with the messages sent to it so far. *)
Record Client := {
  readyState : ReadyState;
  sent : list string;
}.

(** The object kept in [siteData]. *)
Record SiteData := {
  sd_url : JsValue;
  sd_title : JsValue;
  sd_version : JsValue;
}.

(** What the program writes to the console. A line whose text depends on
    values that are not text in the model keeps them as arguments. *)
Inductive ConsoleOp :=
| ConsoleClear                                   (* console.clear() *)
| ConsoleLog (line : string)                     (* console.log(line) *)
| ConsoleLogSite (site_url version : JsValue)    (* "Connected to <url> (<version>)" *)
| ConsoleLogDone                                 (* "Done in <time>ms at <clock>" *)
| ConsoleError.                                  (* console.error(error) *)

Record State := {
  tree : gmap string string;        (* const tree = new Map() *)
  url : option string;              (* let url *)
  siteData : option SiteData;       (* let siteData = false *)
  firstConnection : bool;           (* let firstConnection, of initWs *)
  int : option N;                   (* the pending timeout of initWs and when it is due *)
  clock : N;                        (* milliseconds since the process started *)
  clients : list Client;            (* wss.clients *)
  console : list ConsoleOp;         (* console output, oldest first *)
  builds : list BuildOptions;       (* the calls of esbuild.build, oldest first *)
}.

(** The state of a fresh process. *)
Definition initial_state : State := {|
  tree := ∅; url := None; siteData := None; firstConnection := true;
  int := None; clock := 0; clients := []; console := []; builds := [];
|}.

Definition set_tree (f : gmap string string -> gmap string string) (st : State) : State :=
  {| tree := f (tree st); url := url st; siteData := siteData st;
     firstConnection := firstConnection st; int := int st; clock := clock st;
     clients := clients st; console := console st; builds := builds st |}.

Definition set_url (u : option string) (st : State) : State :=
  {| tree := tree st; url := u; siteData := siteData st;
     firstConnection := firstConnection st; int := int st; clock := clock st;
     clients := clients st; console := console st; builds := builds st |}.

Definition set_siteData (d : option SiteData) (st : State) : State :=
  {| tree := tree st; url := url st; siteData := d;
     firstConnection := firstConnection st; int := int st; clock := clock st;
     clients := clients st; console := console st; builds := builds st |}.

Definition set_firstConnection (b : bool) (st : State) : State :=
  {| tree := tree st; url := url st; siteData := siteData st;
     firstConnection := b; int := int st; clock := clock st;
     clients := clients st; console := console st; builds := builds st |}.

Definition set_int (t : option N) (st : State) : State :=
  {| tree := tree st; url := url st; siteData := siteData st;
     firstConnection := firstConnection st; int := t; clock := clock st;
     clients := clients st; console := console st; builds := builds st |}.

Definition set_clock (t : N) (st : State) : State :=
  {| tree := tree st; url := url st; siteData := siteData st;
     firstConnection := firstConnection st; int := int st; clock := t;
     clients := clients st; console := console st; builds := builds st |}.

Definition set_clients (f : list Client -> list Client) (st : State) : State :=
  {| tree := tree st; url := url st; siteData := siteData st;
     firstConnection := firstConnection st; int := int st; clock := clock st;
     clients := f (clients st); console := console st; builds := builds st |}.

Definition set_console (f : list ConsoleOp -> list ConsoleOp) (st : State) : State :=
  {| tree := tree st; url := url st; siteData := siteData st;
     firstConnection := firstConnection st; int := int st; clock := clock st;
     clients := clients st; console := f (console st); builds := builds st |}.

Definition set_builds (f : list BuildOptions -> list BuildOptions) (st : State) : State :=
  {| tree := tree st; url := url st; siteData := siteData st;
     firstConnection := firstConnection st; int := int st; clock := clock st;
     clients := clients st; console := console st; builds := f (builds st) |}.

(** ** Computations over the process state *)

(** A computation reads and changes the state and returns a value or throws;
    what it changed before throwing stays changed. *)
Definition M (A : Type) : Type := State -> Result A * State.

Definition ret {A} (a : A) : M A := fun st => (Ok a, st).

Definition bind {A B} (m : M A) (k : A -> M B) : M B :=
  fun st =>
    match m st with
    | (Ok a, st') => k a st'
    | (Throw e, st') => (Throw e, st')
    end.

Definition throw {A} (e : Error) : M A := fun st => (Throw e, st).

Definition gets {A} (f : State -> A) : M A := fun st => (Ok (f st), st).

Definition modify (f : State -> State) : M unit := fun st => (Ok tt, f st).

(** Lifts a result that does not touch the state. *)
Definition lift {A} (r : Result A) : M A := fun st => (r, st).

Notation "x <- m ;; k" := (bind m (fun x => k))
  (at level 100, m at next level, k at level 200, right associativity).
Notation "m ;; k" := (bind m (fun _ => k))
  (at level 100, k at level 200, right associativity).

Definition console_clear : M unit := modify (set_console (fun c => c ++ [ConsoleClear])).
Definition console_log (line : string) : M unit :=
  modify (set_console (fun c => c ++ [ConsoleLog line])).
Definition console_write (op : ConsoleOp) : M unit :=
  modify (set_console (fun c => c ++ [op])).

(** ** The pipeline *)

(** What the handlers of [initWs] are told by the environment. *)
Inductive Event :=
| Elapse (ms : N)                      (* time passes; a timeout that comes due runs *)
| WatcherAll (event path : string)     (* watcher.on("all") *)
| WsConnection                         (* wss.on("connection"): a client joins, open *)
| WsMessage (message : string)         (* ws.on("message") *)
| WsReadyState (i : nat) (rs : ReadyState). (* the transport changes a client's state;
                                              a socket that closes leaves wss.clients *)

Section Pipeline.

(** [argv.includes("--watch")] *)
Variable isWatch : bool.

(** [esbuild.build]: what the [n]-th call (counting from 0) answers to the
    given options, a metafile or a rejection. The index lets the answer
    change as the files on disk change between calls. *)
Variable esbuild_build : nat -> BuildOptions -> Result Metafile.

(** [JSON.parse]: the value of a text, or [None] for the SyntaxError. *)
Variable JSON_parse : string -> option JSON.

(** What [parseGhostCliOutput] returns: the address of the running site, or
    [None] when it finds none and exits. The line it writes to the console
    before that exit is written by [parseGhostCliOutput], below, and is not
    part of what [init] records. *)
Variable ghost_ls : option string.

(** *** Console reports *)

(** [url] inside a template literal. *)
Definition url_text (u : option string) : string :=
  match u with Some s => s | None => "undefined" end.

(** The line [printHeader] writes when its first argument is set. *)
Definition no_connection_line (u : option string) : ConsoleOp :=
  ConsoleLog ("✘  No connection. " +:+ " " +:+
              "Try refreshing your browser or visiting " +:+ url_text u +:+ ".").

(** [siteData.version] and [siteData.url]; [siteData] starts as [false],
    which has neither. *)
Definition siteData_version (d : option SiteData) : JsValue :=
  match d with Some sd => sd_version sd | None => None end.
Definition siteData_url (d : option SiteData) : JsValue :=
  match d with Some sd => sd_url sd | None => None end.

(** The status line of [printHeader]: the branch taken by its [if]. *)
Definition header_line (connectionError firstConnection : bool)
    (u : option string) (d : option SiteData) : ConsoleOp :=
  if connectionError then no_connection_line u
  else if firstConnection then
    ConsoleLog ("➜" +:+ " " +:+ " Connected to " +:+ url_text u +:+ ".")
  else if js_truthy (siteData_version d) then
    ConsoleLogSite (siteData_url d) (siteData_version d)
  else
    ConsoleLog ("➜" +:+ " " +:+ " Visit " +:+ url_text u +:+ " to see your changes live.").

(** [printHeader(connectionError, firstConnection)]; the colours [chalk]
    adds are left out of the text. *)
Definition printHeader (connectionError firstConnection : bool) : M unit :=
  console_clear ;;
  console_log "●  Ghost theme dev server running..." ;;
  u <- gets url ;;
  d <- gets siteData ;;
  console_write (header_line connectionError firstConnection u d) ;;
  console_log "".

(** [change ? change + " → " : ""] *)
Definition change_prefix (change : option string) : string :=
  match change with
  | Some c => if truthy c then c +:+ " → " else ""
  | None => ""
  end.

(** [printCompilationDetails(content, change, firstTime)] *)
Definition printCompilationDetails (content : BuildResult)
    (change : option string) (firstTime : bool) : M unit :=
  (if firstTime then
     console_log "┏━ Building..." ;; console_log "┃"
   else
     console_log "┏━ Change detected. Rebuilding... " ;; console_log "┃") ;;
  modify (set_console (fun c =>
    c ++ map (fun r => ConsoleLog ("┃" +:+ " " +:+ " " +:+ change_prefix change +:+
                                   file r +:+ " (" +:+ value r +:+ ")"))
             (results content))) ;;
  console_log "┃" ;;
  console_write ConsoleLogDone.

(** *** Build executor *)

Definition buildOptions (jsEntryPoints : list string) : BuildOptions := {|
  entryPoints := jsEntryPoints;
  bundle := true;
  outbase := "assets";
  outdir := "assets/built";
  minify := negb isWatch;
  sourcemap := true;
  metafile_opt := true;
  target := ["es2020"; "edge88"; "firefox78"; "chrome87"; "safari14"];
  external := ["*.woff"; "*.woff2"];
  footer := None;
|}.

(** The options of the build of one entry: a copy of [buildOptions] with
    [entryPoints] replaced, and [footer] set for the primary script in
    watch mode. *)
Definition buildOptionsClone (jsEntryPoints : list string) (entry : string)
  : BuildOptions :=
  let o := buildOptions jsEntryPoints in
  {| entryPoints := [entry];
     bundle := bundle o; outbase := outbase o; outdir := outdir o;
     minify := minify o; sourcemap := sourcemap o;
     metafile_opt := metafile_opt o; target := target o;
     external := external o;
     footer := if isWatch && includes entry "assets/js/index"
               then Some {| js := footerScript |} else footer o |}.

(** [await esbuild.build(options)]: the call is logged, then answered. *)
Definition esbuild_call (options : BuildOptions) : M Metafile :=
  fun st =>
    (esbuild_build (length (builds st)) options,
     set_builds (fun b => b ++ [options]) st).

(** [Object.keys(res.metafile.inputs).forEach((input) => tree.set(input, entry))] *)
Definition record_inputs (entry : string) (ins : list string)
    (t : gmap string string) : gmap string string :=
  foldl (fun t input => <[input := entry]> t) t ins.

(** The [reduce] over [Object.entries(res.metafile.outputs)]. *)
Fixpoint reduce_outputs (outs : list (string * N)) (acc : list ResultItem)
  : Result (list ResultItem) :=
  match outs with
  | [] => Ok acc
  | (key, bytes) :: rest =>
      if includes key "map" then reduce_outputs rest acc
      else
        match formatBytes (Some bytes) default_decimals with
        | Ok v => reduce_outputs rest (acc ++ [{| file := key; value := v |}])
        | Throw e => Throw e
        end
  end.

(** The body of the loop of [writeAssets], for one entry. *)
Definition build_entry (jsEntryPoints : list string) (entry : string)
    (results : list ResultItem) : M (list ResultItem) :=
  res <- esbuild_call (buildOptionsClone jsEntryPoints entry) ;;
  modify (set_tree (record_inputs entry (inputs res))) ;;
  vals <- lift (reduce_outputs (outputs res) []) ;;
  ret (results ++ vals).

(** [for await (const entry of jsEntryPoints)], one entry after the other. *)
Fixpoint for_entries (jsEntryPoints : list string) (todo : list string)
    (results : list ResultItem) : M (list ResultItem) :=
  match todo with
  | [] => ret results
  | entry :: rest =>
      results' <- build_entry jsEntryPoints entry results ;;
      for_entries jsEntryPoints rest results'
  end.

Definition writeAssets (jsEntryPoints : list string) : M BuildResult :=
  results <- for_entries jsEntryPoints jsEntryPoints [] ;;
  ret {| results := results |}.

(** *** Notification *)

(** [client.send(msg)] *)
Definition send (msg : string) (c : Client) : Client :=
  {| readyState := readyState c; sent := sent c ++ [msg] |}.

(** [wss.clients.forEach(...)]: the message goes to the clients whose
    socket is open. *)
Definition broadcast (msg : string) : M unit :=
  modify (set_clients
    (map (fun c => if decide (readyState c = OPEN) then send msg c else c))).

(** *** Change router *)

(** The entry point the router rebuilds for a changed script or style:
    [rootFile], or [None] when it is falsy and the event is dropped. *)
Definition resolve (t : gmap string string) (path : string) : option string :=
  let rootFile :=
    if negb (index_regex_test path) then t !! path else Some path in
  match rootFile with
  | Some r => if truthy r then Some r else None
  | None => None
  end.

(** The handler of [watcher.on("all", ...)]. *)
Definition on_all (event path : string) : M unit :=
  (if endsWith path ".hbs" then
     printHeader false false ;;
     console_log ("{{  " +:+ " " +:+ path +:+ " changed. Reloading...") ;;
     broadcast ("HBS changed: " +:+ path)
   else ret tt) ;;
  if endsWith path ".css" || endsWith path ".js" || endsWith path ".ts" then
    t <- gets tree ;;
    match resolve t path with
    | None => ret tt
    | Some rootFile =>
        res <- writeAssets [rootFile] ;;
        printHeader false false ;;
        printCompilationDetails res (Some path) false ;;
        broadcast ("File changed: " +:+ path)
    end
  else ret tt.

(** *** Connections, client messages and the connection timer *)

(** The handler of [ws.on("message", ...)]. *)
Definition on_message (message : string) : M unit :=
  match JSON_parse message with
  | None => throw SyntaxError
  | Some v =>
      u <- lift (get_property v "url") ;;
      t <- lift (get_property v "title") ;;
      ver <- lift (get_property v "version") ;;
      modify (set_siteData (Some {| sd_url := u; sd_title := t; sd_version := ver |}))
  end.

(** The handler of [wss.on("connection", ...)]; the transport has added the
    new client, open, to [wss.clients]. *)
Definition on_connection : M unit :=
  modify (set_clients (fun cs => cs ++ [{| readyState := OPEN; sent := [] |}])) ;;
  modify (set_int None) ;;
  first <- gets firstConnection ;;
  if first then
    printHeader false true ;;
    modify (set_firstConnection false)
  else ret tt.

(** The callback of the timeout set by [initWs]. *)
Definition on_timeout : M unit :=
  console_clear ;;
  printHeader true false.

(** The grace period of the connection timer, in milliseconds. *)
Definition grace_period : N := 5000.

(** Time passes: the clock advances, and the timeout runs if it is still
    pending and has come due. *)
Definition elapse (ms : N) : M unit :=
  modify (fun st => set_clock (clock st + ms) st) ;;
  now <- gets clock ;;
  t <- gets int ;;
  match t with
  | Some due =>
      if due <=? now then modify (set_int None) ;; on_timeout else ret tt
  | None => ret tt
  end.

(** [initWs(res)] up to the registration of the handlers. *)
Definition initWs (res : BuildResult) : M unit :=
  now <- gets clock ;;
  modify (set_int (Some (now + grace_period))) ;;
  printHeader false false ;;
  printCompilationDetails res None true ;;
  modify (set_clients (fun _ => [])) ;;
  modify (set_firstConnection true).

(** The transport moves the [i]-th client to another state. The server of
    the ws library takes a socket out of [wss.clients] when it closes, so a
    client that reaches [CLOSED] is no longer enumerated. *)
Definition on_readyState (i : nat) (rs : ReadyState) : M unit :=
  modify (set_clients (fun cs =>
    match rs with
    | CLOSED => delete i cs
    | _ =>
        match cs !! i with
        | Some c => <[i := {| readyState := rs; sent := sent c |}]> cs
        | None => cs
        end
    end)).

Definition handle (ev : Event) : M unit :=
  match ev with
  | Elapse ms => elapse ms
  | WatcherAll event path => on_all event path
  | WsConnection => on_connection
  | WsMessage message => on_message message
  | WsReadyState i rs => on_readyState i rs
  end.

(** The handlers run one after the other, each to its end; an error no
    handler catches ends the process, and the events that follow are not
    handled. The listener of the watcher is asynchronous: this is the
    schedule in which nothing overlaps one of its rebuilds. The schedules in
    which rebuilds overlap are those of [overlap], below. *)
Fixpoint run (events : list Event) : M unit :=
  match events with
  | [] => ret tt
  | ev :: rest => handle ev ;; run rest
  end.

(** *** Start-up *)

(** [findEntryPoints] with the [console.error] of its [catch]. *)
Definition findEntryPointsM (entryPointPath : string) (exts : list string)
    (node : fsnode) : M (option (list string)) :=
  match findEntryPoints entryPointPath exts node with
  | Some l => ret (Some l)
  | None => console_write ConsoleError ;; ret None
  end.

(** [...x] in an array literal: [undefined] is not iterable. *)
Definition spread (x : option (list string)) : M (list string) :=
  match x with
  | Some l => ret l
  | None => throw TypeError
  end.

(** [init()], after the optional scaffolding; [js_dir] and [css_dir] are
    what the file system holds at "assets/js" and "assets/css". *)
Definition init (js_dir css_dir : fsnode) : M unit :=
  jsEntryPoints <- findEntryPointsM "assets/js" [".ts"; ".js"] js_dir ;;
  cssEntryPoints <- findEntryPointsM "assets/css" [".css"] css_dir ;;
  js_list <- spread jsEntryPoints ;;
  css_list <- spread cssEntryPoints ;;
  res <- writeAssets (js_list ++ css_list) ;;
  if isWatch then
    match ghost_ls with
    | None => throw (Exit 1)
    | Some u => modify (set_url (Some u)) ;; initWs res
    end
  else
    printCompilationDetails res None false ;;
    console_log ("⬥" +:+ " " +:+ "  Files built successfully. Exiting...") ;;
    throw (Exit 0).

(** A process: start-up, then the events in the order they are handled. *)
Definition process (js_dir css_dir : fsnode) (events : list Event) : M unit :=
  init js_dir css_dir ;; run events.

End Pipeline.

(** ** Notions used to state the properties *)

(** The base name of a path: what follows its last separator. *)
Fixpoint basename (s : string) : string :=
  match s with
  | EmptyString => EmptyString
  | String c s' =>
      if includes s' "/" then basename s'
      else if Ascii.eqb c "/" then s' else s
  end.

Section History.

Variable esbuild_build : nat -> BuildOptions -> Result Metafile.

(** The owner that the [n]-th call of the bundler, made with the options
    [o], gives to the input [p]: the entry it built, when the call
    succeeded and reported [p] among its inputs. *)
Definition call_owner (n : nat) (o : BuildOptions) (p : string) : option string :=
  match esbuild_build n o with
  | Ok mf => if decide (p ∈ inputs mf) then head (entryPoints o) else None
  | Throw _ => None
  end.

(** The owner given to [p] by the most recent call of the log that gives it
    one; [n] is the index of the first call of [log]. *)
Fixpoint last_owner_from (n : nat) (log : list BuildOptions) (p : string)
    (acc : option string) : option string :=
  match log with
  | [] => acc
  | o :: rest =>
      last_owner_from (S n) rest p
        (match call_owner n o p with Some e => Some e | None => acc end)
  end.

Definition last_owner (log : list BuildOptions) (p : string) : option string :=
  last_owner_from 0 log p None.

End History.

(** The time that passes during a list of events. *)
Fixpoint elapsed (events : list Event) : N :=
  match events with
  | [] => 0
  | Elapse ms :: rest => ms + elapsed rest
  | _ :: rest => elapsed rest
  end.

(** The text [formatBytes] gives a byte count with the default decimals. *)
Definition format_default (bytes : N) : string :=
  match formatBytes (Some bytes) default_decimals with
  | Ok v => v
  | Throw _ => ""
  end.

(** What the [reduce] of [writeAssets] keeps of the outputs of a build. *)
Definition reported (outs : list (string * N)) : list ResultItem :=
  map (fun kb => {| file := kb.1; value := format_default kb.2 |})
      (filter (fun kb => includes kb.1 "map" = false) outs).

(** The state after the call of the bundler for [entry]: the call is in the
    log. *)
Definition after_call (isWatch : bool) (jsEntryPoints : list string)
    (entry : string) (st : State) : State :=
  set_builds (fun b => b ++ [buildOptionsClone isWatch jsEntryPoints entry]) st.

(** The [n]-th call of the log succeeded and reported [p] among its inputs. *)
Definition recorded (esbuild_build : nat -> BuildOptions -> Result Metafile)
    (log : list BuildOptions) (p : string) : Prop :=
  exists n o mf, log !! n = Some o /\ esbuild_build n o = Ok mf /\ p ∈ inputs mf.

(** A source-map file: the bundler names it after the artifact, with
    ".map" added. *)
Definition is_source_map (key : string) : bool := endsWith key ".map".

(** The message sent to the clients whose socket is open. *)
Definition deliver (msg : string) (cs : list Client) : list Client :=
  map (fun c => if decide (readyState c = OPEN)
                then {| readyState := readyState c; sent := sent c ++ [msg] |}
                else c) cs.

(** No line of the console is the "no connection" status. *)
Definition never_no_connection (ops : list ConsoleOp) : Prop :=
  forall u, no_connection_line u ∉ ops.

(** ** A reader of JSON texts *)

(** An instance of [JSON.parse] to run the model on texts: the grammar of
    ECMA-404, on the bytes of the UTF-8 text. *)
Module JsonText.

Definition dquote : ascii := "034".
Definition backslash : ascii := "092".

Definition is_ws (c : ascii) : bool :=
  Ascii.eqb c " " || Ascii.eqb c "009" || Ascii.eqb c "010" || Ascii.eqb c "013".

Fixpoint skip_ws (s : string) : string :=
  match s with
  | String c r => if is_ws c then skip_ws r else s
  | EmptyString => s
  end.

(** The value of a decimal digit. *)
Definition digit (c : ascii) : option N :=
  let n := N_of_ascii c in
  if (48 <=? n) && (n <=? 57) then Some (n - 48) else None.

(** The value of a hexadecimal digit. *)
Definition hex (c : ascii) : option N :=
  let n := N_of_ascii c in
  if (48 <=? n) && (n <=? 57) then Some (n - 48)
  else if (65 <=? n) && (n <=? 70) then Some (n - 55)
  else if (97 <=? n) && (n <=? 102) then Some (n - 87)
  else None.

Definition hex4 (a b c d : ascii) : option N :=
  match hex a, hex b, hex c, hex d with
  | Some x, Some y, Some z, Some w => Some (x * 4096 + y * 256 + z * 16 + w)
  | _, _, _, _ => None
  end.

(** The longest run of digits at the head of [s]: its value, its length
    and what follows. *)
Fixpoint digits (s : string) (acc : N) (count : nat) : N * nat * string :=
  match s with
  | String c r =>
      match digit c with
      | Some d => digits r (acc * 10 + d) (S count)
      | None => (acc, count, s)
      end
  | EmptyString => (acc, count, s)
  end.

(** The bytes of a code point in UTF-8 (a lone surrogate is written the
    same way, on three bytes). *)
Definition utf8 (cp : N) : string :=
  let byte n := String (ascii_of_N n) EmptyString in
  if cp <? 128 then byte cp
  else if cp <? 2048 then
    byte (192 + cp / 64) +:+ byte (128 + cp mod 64)
  else if cp <? 65536 then
    byte (224 + cp / 4096) +:+ byte (128 + (cp / 64) mod 64) +:+
    byte (128 + cp mod 64)
  else
    byte (240 + cp / 262144) +:+ byte (128 + (cp / 4096) mod 64) +:+
    byte (128 + (cp / 64) mod 64) +:+ byte (128 + cp mod 64).

Definition is_high_surrogate (u : N) : bool := (55296 <=? u) && (u <=? 56319).
Definition is_low_surrogate (u : N) : bool := (56320 <=? u) && (u <=? 57343).

(** The low surrogate written as an escape at the head of [s]. *)
Definition low_surrogate_escape (s : string) : option (N * string) :=
  match s with
  | String b (String u (String h1 (String h2 (String h3 (String h4 r))))) =>
      if Ascii.eqb b backslash && Ascii.eqb u "u" then
        match hex4 h1 h2 h3 h4 with
        | Some lo => if is_low_surrogate lo then Some (lo, r) else None
        | None => None
        end
      else None
  | _ => None
  end.

(** The characters of a string up to its closing quote. [fuel] bounds the
    number of characters read. *)
Fixpoint string_body (fuel : nat) (s : string) (acc : string)
  : option (string * string) :=
  match fuel with
  | O => None
  | S fuel' =>
      match s with
      | EmptyString => None
      | String c r =>
          if Ascii.eqb c dquote then Some (acc, r)
          else if Ascii.eqb c backslash then
            match r with
            | EmptyString => None
            | String e r1 =>
                if Ascii.eqb e dquote then string_body fuel' r1 (acc +:+ String dquote "")
                else if Ascii.eqb e backslash then string_body fuel' r1 (acc +:+ String backslash "")
                else if Ascii.eqb e "/" then string_body fuel' r1 (acc +:+ "/")
                else if Ascii.eqb e "b" then string_body fuel' r1 (acc +:+ String "008" "")
                else if Ascii.eqb e "f" then string_body fuel' r1 (acc +:+ String "012" "")
                else if Ascii.eqb e "n" then string_body fuel' r1 (acc +:+ String "010" "")
                else if Ascii.eqb e "r" then string_body fuel' r1 (acc +:+ String "013" "")
                else if Ascii.eqb e "t" then string_body fuel' r1 (acc +:+ String "009" "")
                else if Ascii.eqb e "u" then
                  match r1 with
                  | String h1 (String h2 (String h3 (String h4 r2))) =>
                      match hex4 h1 h2 h3 h4 with
                      | Some cu =>
                          if is_high_surrogate cu then
                            match low_surrogate_escape r2 with
                            | Some (lo, r3) =>
                                string_body fuel' r3
                                  (acc +:+ utf8 (65536 + (cu - 55296) * 1024 + (lo - 56320)))
                            | None => string_body fuel' r2 (acc +:+ utf8 cu)
                            end
                          else string_body fuel' r2 (acc +:+ utf8 cu)
                      | None => None
                      end
                  | _ => None
                  end
                else None
            end
          else if N_of_ascii c <? 32 then None
          else string_body fuel' r (acc +:+ String c "")
      end
  end.

(** A number: an optional sign, an integer part without a leading zero,
    an optional fraction and an optional exponent. *)
Definition number (s : string) : option (JSON * string) :=
  let '(neg, s1) :=
    match s with
    | String c r => if Ascii.eqb c "-" then (true, r) else (false, s)
    | EmptyString => (false, s)
    end in
  let int_part :=
    match s1 with
    | String c r =>
        if Ascii.eqb c "0" then Some (0, r)
        else match digits s1 0 O with
             | (_, O, _) => None
             | (v, _, r') => Some (v, r')
             end
    | EmptyString => None
    end in
  match int_part with
  | None => None
  | Some (i, s2) =>
      let frac_part :=
        match s2 with
        | String c r =>
            if Ascii.eqb c "." then
              match digits r 0 O with
              | (_, O, _) => None
              | (v, n, r') => Some (v, n, r')
              end
            else Some (0, O, s2)
        | EmptyString => Some (0, O, s2)
        end in
      match frac_part with
      | None => None
      | Some (f, fcount, s3) =>
          let exp_part :=
            match s3 with
            | String c r =>
                if Ascii.eqb c "e" || Ascii.eqb c "E" then
                  let '(eneg, r1) :=
                    match r with
                    | String sg r' =>
                        if Ascii.eqb sg "-" then (true, r')
                        else if Ascii.eqb sg "+" then (false, r')
                        else (false, r)
                    | EmptyString => (false, r)
                    end in
                  match digits r1 0 O with
                  | (_, O, _) => None
                  | (v, _, r') =>
                      Some (if eneg then (- Z.of_N v)%Z else Z.of_N v, r')
                  end
                else Some (0%Z, s3)
            | EmptyString => Some (0%Z, s3)
            end in
          match exp_part with
          | None => None
          | Some (e, s4) =>
              let m := Z.of_N (i * 10 ^ N.of_nat fcount + f) in
              Some (JNumber (if neg then (- m)%Z else m) (e - Z.of_nat fcount), s4)
          end
      end
  end.

(** A value at the head of [s], after white space, and what follows it.
    [fuel] bounds the nesting and the number of items. *)
Fixpoint value (fuel : nat) (s : string) : option (JSON * string) :=
  match fuel with
  | O => None
  | S fuel' =>
      let s := skip_ws s in
      match strip_prefix "null" s, strip_prefix "true" s, strip_prefix "false" s with
      | Some r, _, _ => Some (JNull, r)
      | _, Some r, _ => Some (JBool true, r)
      | _, _, Some r => Some (JBool false, r)
      | None, None, None =>
          match s with
          | EmptyString => None
          | String c r =>
              if Ascii.eqb c dquote then
                match string_body (String.length r) r "" with
                | Some (str, r') => Some (JString str, r')
                | None => None
                end
              else if Ascii.eqb c "[" then
                match skip_ws r with
                | String c' r' =>
                    if Ascii.eqb c' "]" then Some (JArray [], r')
                    else elements fuel' r []
                | EmptyString => None
                end
              else if Ascii.eqb c "{" then
                match skip_ws r with
                | String c' r' =>
                    if Ascii.eqb c' "}" then Some (JObject [], r')
                    else members fuel' r []
                | EmptyString => None
                end
              else number s
          end
      end
  end
with elements (fuel : nat) (s : string) (acc : list JSON) : option (JSON * string) :=
  match fuel with
  | O => None
  | S fuel' =>
      match value fuel' s with
      | Some (v, r) =>
          match skip_ws r with
          | String c r' =>
              if Ascii.eqb c "," then elements fuel' r' (acc ++ [v])
              else if Ascii.eqb c "]" then Some (JArray (acc ++ [v]), r')
              else None
          | EmptyString => None
          end
      | None => None
      end
  end
with members (fuel : nat) (s : string) (acc : list (string * JSON))
  : option (JSON * string) :=
  match fuel with
  | O => None
  | S fuel' =>
      match skip_ws s with
      | String q r =>
          if Ascii.eqb q dquote then
            match string_body (String.length r) r "" with
            | Some (key, r1) =>
                match skip_ws r1 with
                | String colon r2 =>
                    if Ascii.eqb colon ":" then
                      match value fuel' r2 with
                      | Some (v, r3) =>
                          match skip_ws r3 with
                          | String c r4 =>
                              if Ascii.eqb c "," then members fuel' r4 (acc ++ [(key, v)])
                              else if Ascii.eqb c "}" then Some (JObject (acc ++ [(key, v)]), r4)
                              else None
                          | EmptyString => None
                          end
                      | None => None
                      end
                    else None
                | EmptyString => None
                end
            | None => None
            end
          else None
      | EmptyString => None
      end
  end.

(** [JSON.parse(text)]: one value, with nothing but white space around
    it. *)
Definition JSON_parse (text : string) : option JSON :=
  match value (S (String.length text)) text with
  | Some (v, r) =>
      match skip_ws r with
      | EmptyString => Some v
      | _ => None
      end
  | None => None
  end.

(** [s] between double quotes. *)
Definition quoted (s : string) : string :=
  String dquote (s +:+ String dquote "").

End JsonText.

(** ** Sample inputs *)

Module Sample.

(** A script directory with a root entry and a folder whose name holds
    "index". *)
Definition js_dir : fsnode :=
  Dir [("index.js", File); ("indexes", Dir [("util.js", File)])].

Definition css_dir : fsnode :=
  Dir [("index.css", File); ("ghost.css", File)].

(** Where the bundler writes the artifact of an entry: below
    "assets/built", at the path the entry has below "assets". *)
Definition built_path (entry : string) : string :=
  match strip_prefix "assets/" entry with
  | Some rest => "assets/built/" +:+ rest
  | None => "assets/built/" +:+ entry
  end.

(** A bundler that builds every entry: the entry and one shared module are
    its inputs, the artifact and its source map its outputs. *)
Definition bundler (n : nat) (o : BuildOptions) : Result Metafile :=
  match entryPoints o with
  | [entry] =>
      Ok {| inputs := [entry; "assets/js/lib/util.js"];
            outputs := [(built_path entry, 1536);
                        (built_path entry +:+ ".map", 4096)] |}
  | _ => Throw BuildFailure
  end.

(** A bundler that rejects every entry, as on a syntax error. *)
Definition failing_bundler (n : nat) (o : BuildOptions) : Result Metafile :=
  Throw BuildFailure.

(** A bundler that sees the source change: from the second call on, the
    entry no longer imports the shared module. *)
Definition changing_bundler (n : nat) (o : BuildOptions) : Result Metafile :=
  match entryPoints o with
  | [entry] =>
      Ok {| inputs := match n with
                      | O => [entry; "assets/js/lib/util.js"]
                      | S _ => [entry]
                      end;
            outputs := [(built_path entry, 1536);
                        (built_path entry +:+ ".map", 4096)] |}
  | _ => Throw BuildFailure
  end.

(** The message a page sends when its socket opens. *)
Definition site_message : string :=
  "{" +:+ JsonText.quoted "url" +:+ ":" +:+ JsonText.quoted "http://localhost:2368/" +:+ "," +:+
  JsonText.quoted "title" +:+ ":" +:+ JsonText.quoted "Ghost" +:+ "," +:+
  JsonText.quoted "version" +:+ ":" +:+ JsonText.quoted "Ghost 5.82" +:+ "}".

(** A state with one open client and one that is closing. *)
Definition two_clients : State :=
  set_clients (fun _ => [{| readyState := OPEN; sent := [] |};
                         {| readyState := CLOSING; sent := [] |}])
              initial_state.

End Sample.

(** ** Invariants of the dependency index *)

(** A relation between states that says a property is kept. *)
Definition keeps (I : State -> Prop) (st st' : State) : Prop := I st -> I st'.

(** Each path of the index maps to the entry of the most recent build that
    consumed it. *)
Definition owner_is_latest (esbuild_build : nat -> BuildOptions -> Result Metafile)
    (st : State) : Prop :=
  forall p, tree st !! p = last_owner esbuild_build (builds st) p.

(** The owners in the index are truthy (non-empty) paths. *)
Definition owners_truthy (st : State) : Prop :=
  forall p e, tree st !! p = Some e -> truthy e = true.

(** The path [p] has an owner. *)
Definition has_owner (p : string) (st : State) : Prop := is_Some (tree st !! p).

Module Sample2.

(** A script directory whose only file has "index" in its name without
    being named index.js. *)
Definition helpers_dir : fsnode := Dir [("index-helpers.js", File)].


End Sample2.

(** ** Notions for client messages and the connection timer *)

(** The own property [key] of a value read from a message, [undefined] when
    the value is not an object or has no such key. *)
Definition property (v : JSON) (key : string) : JsValue :=
  match v with
  | JObject members => member key members
  | _ => None
  end.

(** The session read off the value of a message. *)
Definition session_of (v : JSON) : SiteData :=
  {| sd_url := property v "url";
     sd_title := property v "title";
     sd_version := property v "version" |}.

(** The console gains lines, none of them the "no connection" status. *)
Definition console_grows_quietly (st st' : State) : Prop :=
  exists ops, console st' = console st ++ ops /\ never_no_connection ops.

(** A step that leaves the address, the timer and the clock alone and
    prints no "no connection" status. *)
Definition quiet_step (st st' : State) : Prop :=
  url st' = url st /\ int st' = int st /\ clock st' = clock st /\
  console_grows_quietly st st'.

(** A step that leaves the clock alone and prints no "no connection"
    status. *)
Definition quiet_start (st st' : State) : Prop :=
  clock st' = clock st /\ console_grows_quietly st st'.

(** When a computation returns, the state it leaves satisfies [Q]. *)
Definition returns_in (Q : State -> Prop) {A} (m : M A) : Prop :=
  forall st a st', m st = (Ok a, st') -> Q st'.

(** The timer is pending and not yet due, or the status has been shown. *)
Definition pending_or_shown (due : N) (st : State) : Prop :=
  (int st = Some due /\ clock st < due) \/
  no_connection_line (url st) ∈ console st.

(** The status has not been shown, and the timer is cancelled or will still
    be pending once [budget] more milliseconds have passed. *)
Definition not_shown_within (budget : N) (st : State) : Prop :=
  never_no_connection (console st) /\
  (int st = None \/ exists due, int st = Some due /\ clock st + budget < due).

(** The status has not been shown and the timer is cancelled. *)
Definition never_shown_cancelled (st : State) : Prop :=
  never_no_connection (console st) /\ int st = None.

Module Sample3.

(** The address the site manager reports. *)
Definition site : option string := Some "http://localhost:2368".

(** A watch session on the sample theme in which nobody connects. *)
Definition lonely_session (events : list Event) : State :=
  (process true Sample.bundler JsonText.JSON_parse site
     Sample.js_dir Sample.css_dir events initial_state).2.

End Sample3.

(** ** Notions for batches of builds *)

(** The index after the builds of a batch that all succeeded: the inputs of
    each build are recorded under its entry, one build after the other. *)
Definition batch_tree (entries : list string) (answers : list Metafile)
    (t : gmap string string) : gmap string string :=
  foldl (fun t em => record_inputs em.1 (inputs em.2) t) t (zip entries answers).

(** The report of a batch that all succeeded: the reports of the builds, one
    after the other. *)
Definition batch_results (answers : list Metafile) : list ResultItem :=
  concat (map (fun mf => reported (outputs mf)) answers).

(** The bundler answers the calls of a batch, made from the [n]-th on, with
    the given metafiles. *)
Definition batch_answers (isWatch : bool)
    (esbuild_build : nat -> BuildOptions -> Result Metafile)
    (jsEntryPoints : list string) (n : nat) (todo : list string)
    (answers : list Metafile) : Prop :=
  length answers = length todo /\
  forall k e mf, todo !! k = Some e -> answers !! k = Some mf ->
    esbuild_build (n + k)%nat (buildOptionsClone isWatch jsEntryPoints e) = Ok mf.

(** A call of the bundler as the program makes them: one truthy entry point,
    bundled, with source map and metafile, written below "assets/built",
    minified unless in watch mode, and with the reload script appended only
    in watch mode and only for an entry whose path includes
    "assets/js/index". *)
Definition program_call (isWatch : bool) (o : BuildOptions) : Prop :=
  exists e,
    truthy e = true /\
    entryPoints o = [e] /\
    bundle o = true /\ sourcemap o = true /\ metafile_opt o = true /\
    outbase o = "assets" /\ outdir o = "assets/built" /\
    minify o = negb isWatch /\
    footer o = if isWatch && includes e "assets/js/index"
               then Some {| js := footerScript |} else None.

(** Every call in the log of builds is one the program makes. *)
Definition calls_are_program_calls (isWatch : bool) (st : State) : Prop :=
  Forall (program_call isWatch) (builds st).

(** ** Notions for console reports *)

(** The state with more lines on the console. *)
Definition log_ops (ops : list ConsoleOp) (st : State) : State :=
  set_console (fun c => c ++ ops) st.

(** What [printHeader] writes in the state [st]. *)
Definition header_ops (connectionError firstConnection : bool) (st : State)
  : list ConsoleOp :=
  [ConsoleClear;
   ConsoleLog "●  Ghost theme dev server running...";
   header_line connectionError firstConnection (url st) (siteData st);
   ConsoleLog ""].

(** What [printCompilationDetails] writes. *)
Definition details_ops (content : BuildResult) (change : option string)
    (firstTime : bool) : list ConsoleOp :=
  [ConsoleLog (if firstTime then "┏━ Building..." else "┏━ Change detected. Rebuilding... ");
   ConsoleLog "┃"] ++
  map (fun r => ConsoleLog ("┃" +:+ " " +:+ " " +:+ change_prefix change +:+
                            file r +:+ " (" +:+ value r +:+ ")"))
      (results content) ++
  [ConsoleLog "┃"; ConsoleLogDone].

(** The state after a batch whose builds all succeeded. *)
Definition after_batch (isWatch : bool) (entries : list string)
    (answers : list Metafile) (st : State) : State :=
  set_tree (batch_tree entries answers)
    (set_builds (fun b => b ++ map (buildOptionsClone isWatch entries) entries) st).

(** ** Notions for sessions *)

(** The client the transport adds on a connection. *)
Definition new_client : Client := {| readyState := OPEN; sent := [] |}.

(** The change of state of the [i]-th client, made by the transport; a
    client whose socket has closed is taken out. *)
Definition move_client (i : nat) (rs : ReadyState) (cs : list Client) : list Client :=
  match rs with
  | CLOSED => delete i cs
  | _ =>
      match cs !! i with
      | Some c => <[i := {| readyState := rs; sent := sent c |}]> cs
      | None => cs
      end
  end.

(** Once [firstConnection] is false it stays false. *)
Definition first_connection_passed (st st' : State) : Prop :=
  firstConnection st = false -> firstConnection st' = false.

(** The timer has been cancelled or has run, or the status was never shown. *)
Definition shown_only_by_timer (st : State) : Prop :=
  never_no_connection (console st) \/ int st = None.

(** The status line of a header printed with both arguments unset, for the
    address [u] and the version and address a client reported: the client's
    when its version is truthy, the invitation to visit [u] otherwise. *)
Definition status_line (u : option string) (site_url version : JsValue) : ConsoleOp :=
  if js_truthy version then ConsoleLogSite site_url version
  else ConsoleLog ("➜" +:+ " " +:+ " Visit " +:+ url_text u +:+ " to see your changes live.").

(** The session and the address are as they were. *)
Definition same_session (st st' : State) : Prop :=
  siteData st' = siteData st /\ url st' = url st.

(** An event that is not a client message. *)
Definition not_a_message (ev : Event) : Prop :=
  match ev with WsMessage _ => False | _ => True end.

(** ** Notions for the order of discovery *)

(** The files below a directory as a depth-first walk lists them: the names
    of a directory in the order [readdir] gives them, the files of a
    subdirectory in the place of its name. *)
Fixpoint walk (dir : string) (node : fsnode) : list string :=
  match node with
  | Dir entries =>
      (fix walk_entries (es : list (string * fsnode)) : list string :=
         match es with
         | [] => []
         | (entry, child) :: es' =>
             match child with
             | File => [join dir entry]
             | _ => walk (join dir entry) child
             end ++ walk_entries es'
         end) entries
  | _ => []
  end.

(** ** Scaffolding *)

(** The double quote, to write the texts that hold some. *)
Definition dq : string := String "034" EmptyString.

(** The deploy workflow written to ".github/deploy-theme.yaml". *)
Definition ghActionContent : string :=
  "# Learn more → https://github.com/TryGhost/action-deploy-theme#getting-started
name: Build and deploy theme
on:
  push:
    branches:
      - main
jobs:
  build: 
    runs-on: ubuntu-22.04
    steps:
      - uses: actions/checkout@v4
      - name: Setup Node.js
        uses: actions/setup-node@v4
        with:
          node-version: '18'
      - run: npm ci
      - run: npm run build
      - name: Deploy theme
        uses: TryGhost/action-deploy-theme@v1
        with:
          api-url: ${{ secrets.GHOST_ADMIN_API_URL }}
          api-key: ${{ secrets.GHOST_ADMIN_API_KEY }}".

(** The text of "default.hbs". *)
Definition defaultTemplateContent : string :=
  "<!DOCTYPE html>
<html lang=" +:+ dq +:+
  "{{@site.locale}}" +:+ dq +:+
  ">
  <head>
      {{!-- Basic meta - advanced meta is output with {{ghost_head}} below --}}
      <title>{{meta_title}}</title>
      <meta charset=" +:+ dq +:+
  "utf-8" +:+ dq +:+
  ">
      <meta name=" +:+ dq +:+
  "viewport" +:+ dq +:+
  " content=" +:+ dq +:+
  "width=device-width, initial-scale=1.0" +:+ dq +:+
  ">

      {{!-- Theme assets - use the {{asset}} helper to reference styles & scripts, this will take care of caching and cache-busting automatically --}}
      <link rel=" +:+ dq +:+
  "stylesheet" +:+ dq +:+
  " type=" +:+ dq +:+
  "text/css" +:+ dq +:+
  " href=" +:+ dq +:+
  "{{asset " +:+ dq +:+
  "built/css/index.css" +:+ dq +:+
  "}}" +:+ dq +:+
  ">
      <script src=" +:+ dq +:+
  "{{asset " +:+ dq +:+
  "built/js/index.js" +:+ dq +:+
  "}}" +:+ dq +:+
  " defer></script>

      {{!-- This tag outputs all your advanced SEO meta, structured data, and other important settings, it should always be the last tag before the closing head tag --}}
      {{ghost_head}}
  </head>
  <body class=" +:+ dq +:+
  "{{body_class}}" +:+ dq +:+
  ">

  {{{body}}}

  {{!-- Ghost outputs required functional scripts with this tag, it should always be the last thing before the closing body tag --}}
  {{ghost_foot}}
  </body>
</html>".

(** The text of "post.hbs". *)
Definition postTemplateContent : string :=
  "{{!< default}}
{{!-- The tag above means: insert everything in this file into the body of the default.hbs template --}}

{{#post}}
{{!-- Learn more: https://ghost.org/docs/themes/helpers/post/ --}}
{{/post}}".

(** The text of "index.hbs". *)
Definition indexTemplateContent : string :=
  "{{!< default}}
{{!-- The tag above means: insert everything in this file into the body of the default.hbs template --}}

{{#foreach posts}}
{{!-- Learn more: https://ghost.org/docs/themes/contexts/index-context/ --}}
{{/foreach}}".

(** The text of "assets/css/ghost.css". *)
Definition ghostCssContent : string :=
  "/* Learn more about Ghost image styles -> https://ghost.org/docs/themes/content/#image-size-options */
{
  /* Styles for wide images in the editor */
}

.kg-width-full {
  /* Styles for full-width images in the editor */
}".

(** The text of "assets/css/index.css". *)
Definition indexCssContent : string :=
  "@import " +:+ dq +:+
  "ghost.css" +:+ dq +:+
  ";

".

(** An element of [filesToCheck]; [None] is the [null] content. *)
Record Scaffold := { filename : string; content : option string }.

(** [filesToCheck] of [makeSkeleton]. *)
Definition filesToCheck : list Scaffold :=
  [ {| filename := "index.hbs"; content := Some indexTemplateContent |};
    {| filename := "post.hbs"; content := Some postTemplateContent |};
    {| filename := "default.hbs"; content := Some defaultTemplateContent |};
    {| filename := "assets/css/index.css"; content := Some indexCssContent |};
    {| filename := "assets/css/ghost.css"; content := Some ghostCssContent |};
    {| filename := "assets/js/index.js"; content := None |};
    {| filename := ".vscode/extensions.json";
       content := Some ("{" +:+ dq +:+ "recommendations" +:+ dq +:+ ": [" +:+ dq +:+
                        "TryGhost.ghost" +:+ dq +:+ "]}") |};
    {| filename := ".github/deploy-theme.yaml"; content := Some ghActionContent |} ].

(** What is found at a path of the working directory. *)
Inductive Node :=
| Text (text : string)     (* a file and what it holds *)
| Folder.                  (* a directory *)

(** The working directory, by path relative to [process.cwd()]: the second
    argument of [join(folderPath, ...)]. A path that is not bound is absent,
    and [access] rejects on it. *)
Abbreviation Files := (gmap string Node).

(** The directories above a relative path, outermost first: of the path
    [seen ++ rest], those that end inside [rest]. *)
Fixpoint dirs_from (seen rest : string) : list string :=
  match rest with
  | EmptyString => []
  | String c rest' =>
      if Ascii.eqb c "/" then seen :: dirs_from (seen +:+ "/") rest'
      else dirs_from (seen +:+ String c EmptyString) rest'
  end.

(** The directories [mkdir(dirname(join(folderPath, filename)),
    {recursive: true})] goes through below the working directory, which
    itself exists. *)
Definition dirs (filename : string) : list string := dirs_from "" filename.

Section Skeleton.

(** The paths at which making a directory or a file is refused by the
    system (permissions, a read-only volume, ...). *)
Variable denied : string -> bool.

(** [mkdir(dir, {recursive: true})] along the directories [ds]: a directory
    that exists is left alone, a missing one is made, and a file in the way
    rejects. The flag tells whether the call resolved. *)
Fixpoint mkdir (ds : list string) (fs : Files) : Files * bool :=
  match ds with
  | [] => (fs, true)
  | d :: ds' =>
      match fs !! d with
      | Some Folder => mkdir ds' fs
      | Some (Text _) => (fs, false)
      | None => if denied d then (fs, false) else mkdir ds' (<[d := Folder]> fs)
      end
  end.

(** [file.content ? file.content : ""] *)
Definition content_text (file : Scaffold) : string :=
  match content file with
  | Some c => if truthy c then c else ""
  | None => ""
  end.

(** The [mkdir] and [writeFile] of one callback, reached when the file is
    absent. *)
Definition make (file : Scaffold) (fs : Files) : Files * bool :=
  match mkdir (dirs (filename file)) fs with
  | (fs', true) =>
      if denied (filename file) then (fs', false)
      else (<[filename file := Text (content_text file)]> fs', true)
  | (fs', false) => (fs', false)
  end.

(** [access(join(folderPath, p))] resolves. *)
Definition accessible (fs : Files) (p : string) : bool :=
  match fs !! p with Some _ => true | None => false end.

(** The callback mapped over [filesToCheck], for one file. The flag tells
    whether its promise resolved. *)
Definition check_file (file : Scaffold) (fs : Files) : Files * bool :=
  if accessible fs (filename file) then (fs, true)
  else if endsWith (filename file) ".js" then
    if accessible fs "assets/js/index.ts" then (fs, true)
    else make file fs
  else make file fs.

(** The callbacks for the files [files], once all have settled, taken in
    the order of the array; the flag tells whether all resolved. When one
    rejects, [Promise.all] rejects at once and the error is logged while
    the others may still be running. *)
Fixpoint check_files (files : list Scaffold) (fs : Files) : Files * bool :=
  match files with
  | [] => (fs, true)
  | file :: files' =>
      let (fs', ok) := check_file file fs in
      let (fs'', ok') := check_files files' fs' in
      (fs'', ok && ok')
  end.

(** [makeSkeleton()]: the working directory once the callbacks have
    settled, and whether no error was logged. *)
Definition makeSkeleton (fs : Files) : Files * bool :=
  check_files filesToCheck fs.

End Skeleton.

(** No path is refused by the system. *)
Definition nothing_denied : string -> bool := fun _ => false.

(** No file stands where a directory is needed above one of [files]. *)
Definition room_for (files : list Scaffold) (fs : Files) : Prop :=
  forall file d text, file ∈ files -> d ∈ dirs (filename file) ->
    fs !! d <> Some (Text text).

(** No file stands where the skeleton needs a directory. *)
Definition room_for_skeleton (fs : Files) : Prop := room_for filesToCheck fs.

(** A skeleton file and the text it is made with. *)
Definition skeleton_text (p text : string) : Prop :=
  exists file, file ∈ filesToCheck /\ filename file = p /\ text = content_text file.

(** ** Finding the running site *)

(** [\d] without the [u] flag: one of 0 to 9. *)
Definition is_decimal_digit (c : ascii) : bool :=
  (48 <=? N_of_ascii c) && (N_of_ascii c <=? 57).

(** [\d+] is greedy and nothing follows it in the expression: the longest
    run of digits at the head of [s]. *)
Fixpoint digits_here (s : string) : string :=
  match s with
  | EmptyString => EmptyString
  | String c s' => if is_decimal_digit c then String c (digits_here s') else EmptyString
  end.

(** [(localhost|127\.0\.0\.1)] at the head of [s], with the rest. The two
    alternatives begin with different characters, so trying the second only
    when the first fails loses no match. *)
Definition host_here (s : string) : option (string * string) :=
  match strip_prefix "localhost" s with
  | Some rest => Some ("localhost", rest)
  | None =>
      match strip_prefix "127.0.0.1" s with
      | Some rest => Some ("127.0.0.1", rest)
      | None => None
      end
  end.

(** A match of [http:\/\/(localhost|127\.0\.0\.1):\d+] that begins at the
    first character: the matched text. *)
Definition url_regex_here (s : string) : option string :=
  match strip_prefix "http://" s with
  | Some rest =>
      match host_here rest with
      | Some (host, rest') =>
          match strip_prefix ":" rest' with
          | Some rest'' =>
              let port := digits_here rest'' in
              if truthy port then Some ("http://" +:+ host +:+ ":" +:+ port)
              else None
          | None => None
          end
      | None => None
      end
  | None => None
  end.

(** [s.match(/http:\/\/(localhost|127\.0\.0\.1):\d+/g)]: the matches from
    left to right, the search resuming after each match; [skip] counts the
    characters of the last match still to pass. The empty list is the
    [null] of no match. *)
Fixpoint url_regex_matches (skip : nat) (s : string) : list string :=
  match s with
  | EmptyString => []
  | String _ s' =>
      match skip with
      | S k => url_regex_matches k s'
      | O =>
          match url_regex_here s with
          | Some u => u :: url_regex_matches (String.length u - 1) s'
          | None => url_regex_matches 0 s'
          end
      end
  end.

(** A line terminator begins at the head of [s]: line feed, carriage
    return, U+2028 or U+2029 (three bytes each in UTF-8). [.] matches
    anything else. *)
Definition line_terminator_here (s : string) : bool :=
  startsWith s (String "010" EmptyString) ||
  startsWith s (String "013" EmptyString) ||
  startsWith s (String "226" (String "128" (String "168" EmptyString))) ||
  startsWith s (String "226" (String "128" (String "169" EmptyString))).

(** [(.*?)<\/title>] at the head of [s]: the group is lazy, so the closing
    tag is tried before one more character is taken. *)
Fixpoint title_text (s : string) : option string :=
  match strip_prefix "</title>" s with
  | Some _ => Some EmptyString
  | None =>
      match s with
      | EmptyString => None
      | String c s' =>
          if line_terminator_here s then None
          else option_map (String c) (title_text s')
      end
  end.

(** A match of [<title>(.*?)<\/title>] that begins at the first character:
    its group. *)
Definition title_regex_here (s : string) : option string :=
  match strip_prefix "<title>" s with
  | Some rest => title_text rest
  | None => None
  end.

(** [s.match(/<title>(.*?)<\/title>/)?.[1]]: the group of the leftmost
    match, [None] for [undefined]. *)
Fixpoint title_regex_match (s : string) : option string :=
  match title_regex_here s with
  | Some t => Some t
  | None =>
      match s with
      | EmptyString => None
      | String _ s' => title_regex_match s'
      end
  end.

(** A choice offered by [select]. *)
Record Choice := { name : string; value_of : string }.

(** An element of [details]. *)
Record Detail := { detail_url : string; detail_title : option string }.

(** [`${u.title} (${u.url})`]: an undefined title prints as "undefined". *)
Definition choice_of (u : Detail) : Choice :=
  {| name := match detail_title u with Some t => t | None => "undefined" end +:+
             " (" +:+ detail_url u +:+ ")";
     value_of := detail_url u |}.

Section GhostCli.

(** [execSync(command).toString()]: the output of the command, or [None]
    when it throws (the command is not found, or ends with a failure). *)
Variable execSync : string -> option string.

(** [select({message, choices})]: the value the user settles on. *)
Variable select : list Choice -> string.

(** [runCommand(command)] *)
Definition runCommand (command : string) : M string :=
  match execSync command with
  | Some output => ret output
  | None => console_write ConsoleError ;; throw (Exit 1)
  end.

(** The callback mapped over [localUrl]. *)
Definition detail_of (u : string) : M Detail :=
  output <- runCommand ("curl -s " +:+ u) ;;
  let title := title_regex_match output in
  ret {| detail_url := u; detail_title := title |}.

(** [localUrl.map(...)]: the callbacks run one after the other, as none of
    them waits. *)
Fixpoint details_of (localUrl : list string) : M (list Detail) :=
  match localUrl with
  | [] => ret []
  | u :: rest =>
      d <- detail_of u ;;
      ds <- details_of rest ;;
      ret (d :: ds)
  end.

(** [parseGhostCliOutput()] *)
Definition parseGhostCliOutput : M string :=
  result <- runCommand "ghost ls" ;;
  let localUrl := url_regex_matches 0 result in
  match localUrl with
  | [] =>
      console_log "No running Ghost instance found. Please start Ghost and try again. To start Ghost, run `ghost start` in your Ghost installation directory." ;;
      throw (Exit 1)
  | [u] => ret u
  | _ =>
      details <- details_of localUrl ;;
      ret (select (map choice_of details))
  end.

End GhostCli.

(** One of the two hosts the expression allows. *)
Definition local_host (host : string) : Prop :=
  host = "localhost" \/ host = "127.0.0.1".

(** A non-empty text of decimal digits. *)
Fixpoint all_digits (s : string) : bool :=
  match s with
  | EmptyString => true
  | String c s' => is_decimal_digit c && all_digits s'
  end.

(** A local address: "http://", a local host, ":" and a port in digits. *)
Definition local_address (u : string) : Prop :=
  exists host port, local_host host /\ port <> "" /\ all_digits port = true /\
    u = "http://" +:+ host +:+ ":" +:+ port.

(** [select] answers with the value of one of the choices it is given. *)
Definition picks_a_choice (select : list Choice -> string) : Prop :=
  forall choices, choices <> [] -> select choices ∈ map value_of choices.

(** A callback has nothing left to do for a file: the file is there, or it
    is a script and "assets/js/index.ts" is there. *)
Definition settled (fs : Files) (file : Scaffold) : Prop :=
  accessible fs (filename file) = true \/
  (endsWith (filename file) ".js" = true /\ accessible fs "assets/js/index.ts" = true).

(** What a run with nothing in the way leaves at the path of a skeleton
    file, given what was there before. *)
Definition expected (fs : Files) (file : Scaffold) : option Node :=
  match fs !! filename file with
  | Some n => Some n
  | None =>
      if endsWith (filename file) ".js" && accessible fs "assets/js/index.ts" then None
      else Some (Text (content_text file))
  end.

Module Sample4.

(** A theme folder with a template of its own and TypeScript sources. *)
Definition theme : Files :=
  <["index.hbs" := Text "{{!< default}} mine"]>
    (<["assets/js/index.ts" := Text "export {}"]>
       (<["assets/js" := Folder]> (<["assets" := Folder]> ∅))).

(** A folder where a file named "assets" stands in the way. *)
Definition blocked : Files := <["assets" := Text "notes"]> ∅.

End Sample4.

(** The state once [op] is written to the console. *)
Definition logged (op : ConsoleOp) (st : State) : State :=
  set_console (fun c => c ++ [op]) st.

(** The line logged when the listing of [ghost ls] holds no address. *)
Definition no_instance_line : string :=
  "No running Ghost instance found. Please start Ghost and try again. To start Ghost, run `ghost start` in your Ghost installation directory.".

(** No line terminator begins anywhere in [t]. *)
Definition one_line (t : string) : Prop :=
  forall a b, t = a +:+ b -> line_terminator_here b = false.

Module Sample5.

(** A listing of [ghost ls] with two running sites. *)
Definition listing : string :=
  "blog  /var/www/blog  5.82.2  running (development)  http://localhost:2368  2368  background
shop  /var/www/shop  5.82.2  running (development)  http://127.0.0.1:2369/shop  2369  background".

(** The pages the two sites serve, the second without a title. *)
Definition execSync (command : string) : option string :=
  if String.eqb command "ghost ls" then Some listing
  else if String.eqb command "curl -s http://localhost:2368"
  then Some "<html><head><title>My blog</title></head></html>"
  else if String.eqb command "curl -s http://127.0.0.1:2369"
  then Some "<html><head></head></html>"
  else None.

(** A user who takes the last choice. *)
Definition select (choices : list Choice) : string :=
  match last choices with
  | Some c => value_of c
  | None => ""
  end.

End Sample5.

(** ** Rebuilds that overlap

    The listener of the watcher is an [async] function. When an event
    arrives it runs to its first [await]: the template branch, the tests on
    the path and the resolution of the entry. What follows runs later, in
    three parts: the call of the bundler, inside [writeAssets]; what
    [writeAssets] does when the bundler answers, which records the inputs;
    and the report of the listener once [writeAssets] has returned. Between
    these parts the handlers of other events run, and the parts of other
    listeners, so that the bundler may answer the calls in another order
    than they were made. *)

(** A listener that has resolved its entry and not yet called the bundler. *)
Record Waiting := { w_rootFile : string; w_path : string }.

(** A call the bundler has not answered yet: its index in the log of calls,
    and the listener that made it. *)
Record InFlight := { f_call : nat; f_rootFile : string; f_path : string }.

(** A listener whose build is recorded and that has not yet reported. *)
Record Built := { b_res : BuildResult; b_path : string }.

(** The state of the process and its listeners under way. [completed] is
    the history of the builds that completed, oldest first, each with its
    entry and the metafile the bundler answered. *)
Record Async := {
  now : State;
  waiting : list Waiting;
  in_flight : list InFlight;
  built : list Built;
  completed : list (string * Metafile);
}.

(** What happens next in the process. *)
Inductive Step :=
| Arrives (ev : Event)   (* an event arrives; its handler runs to its end, or to its first await *)
| Calls (k : nat)        (* the [k]-th waiting listener calls the bundler *)
| Settles (k : nat)      (* the bundler answers the [k]-th call in flight *)
| Reports (k : nat).     (* the [k]-th listener whose build is recorded reports *)

(** The owner the history gives to [p]: the entry of the last build of the
    history that consumed it. *)
Definition last_completed (log : list (string * Metafile)) (p : string)
  : option string :=
  foldl (fun acc em => if decide (p ∈ inputs em.2) then Some em.1 else acc) None log.

Section Overlap.

Variable isWatch : bool.
Variable esbuild_build : nat -> BuildOptions -> Result Metafile.
Variable JSON_parse : string -> option JSON.

(** The listener of [watcher.on("all", ...)] up to its first [await]: the
    entry it is about to rebuild, or [None] when it has returned. *)
Definition on_all_begin (event path : string) : M (option string) :=
  (if endsWith path ".hbs" then
     printHeader false false ;;
     console_log ("{{  " +:+ " " +:+ path +:+ " changed. Reloading...") ;;
     broadcast ("HBS changed: " +:+ path)
   else ret tt) ;;
  if endsWith path ".css" || endsWith path ".js" || endsWith path ".ts" then
    t <- gets tree ;;
    ret (resolve t path)
  else ret None.

(** The listener after [await writeAssets([rootFile])]. *)
Definition on_all_report (res : BuildResult) (path : string) : M unit :=
  printHeader false false ;;
  printCompilationDetails res (Some path) false ;;
  broadcast ("File changed: " +:+ path).

Definition set_now (st : State) (a : Async) : Async :=
  {| now := st; waiting := waiting a; in_flight := in_flight a;
     built := built a; completed := completed a |}.

Definition arrives (ev : Event) (a : Async) : Result unit * Async :=
  match ev with
  | WatcherAll event path =>
      match on_all_begin event path (now a) with
      | (Ok (Some rootFile), st) =>
          (Ok tt,
           {| now := st;
              waiting := waiting a ++ [{| w_rootFile := rootFile; w_path := path |}];
              in_flight := in_flight a; built := built a;
              completed := completed a |})
      | (Ok None, st) => (Ok tt, set_now st a)
      | (Throw e, st) => (Throw e, set_now st a)
      end
  | _ =>
      match handle isWatch esbuild_build JSON_parse ev (now a) with
      | (r, st) => (r, set_now st a)
      end
  end.

(** [writeAssets([rootFile])] reaches [esbuild.build]: the call is logged. *)
Definition calls (k : nat) (a : Async) : Result unit * Async :=
  match waiting a !! k with
  | None => (Ok tt, a)
  | Some w =>
      let entry := w_rootFile w in
      (Ok tt,
       {| now := set_builds (fun b => b ++ [buildOptionsClone isWatch [entry] entry])
                   (now a);
          waiting := delete k (waiting a);
          in_flight := in_flight a ++
                       [{| f_call := length (builds (now a));
                           f_rootFile := entry; f_path := w_path w |}];
          built := built a; completed := completed a |})
  end.

(** The bundler answers a call: [writeAssets] records the inputs under the
    entry and reduces the outputs; a rejection is an error no handler
    catches. *)
Definition settles (k : nat) (a : Async) : Result unit * Async :=
  match in_flight a !! k with
  | None => (Ok tt, a)
  | Some f =>
      let entry := f_rootFile f in
      match esbuild_build (f_call f) (buildOptionsClone isWatch [entry] entry) with
      | Throw e =>
          (Throw e,
           {| now := now a; waiting := waiting a;
              in_flight := delete k (in_flight a);
              built := built a; completed := completed a |})
      | Ok res =>
          let st := set_tree (record_inputs entry (inputs res)) (now a) in
          match reduce_outputs (outputs res) [] with
          | Ok vals =>
              (Ok tt,
               {| now := st; waiting := waiting a;
                  in_flight := delete k (in_flight a);
                  built := built a ++
                           [{| b_res := {| results := [] ++ vals |};
                               b_path := f_path f |}];
                  completed := completed a ++ [(entry, res)] |})
          | Throw e =>
              (Throw e,
               {| now := st; waiting := waiting a;
                  in_flight := delete k (in_flight a);
                  built := built a;
                  completed := completed a ++ [(entry, res)] |})
          end
      end
  end.

(** [writeAssets] has returned to the listener, which reports. *)
Definition reports (k : nat) (a : Async) : Result unit * Async :=
  match built a !! k with
  | None => (Ok tt, a)
  | Some b =>
      match on_all_report (b_res b) (b_path b) (now a) with
      | (r, st) =>
          (r,
           {| now := st; waiting := waiting a; in_flight := in_flight a;
              built := delete k (built a); completed := completed a |})
      end
  end.

Definition step (s : Step) : Async -> Result unit * Async :=
  match s with
  | Arrives ev => arrives ev
  | Calls k => calls k
  | Settles k => settles k
  | Reports k => reports k
  end.

(** The steps one after the other; an error no handler catches ends the
    process. *)
Fixpoint overlap (steps : list Step) (a : Async) : Result unit * Async :=
  match steps with
  | [] => (Ok tt, a)
  | s :: rest =>
      match step s a with
      | (Ok _, a') => overlap rest a'
      | (Throw e, a') => (Throw e, a')
      end
  end.

(** The builds of a log of calls that completed, with their entries: each
    call was awaited before the next one was made. *)
Fixpoint completions (n : nat) (log : list BuildOptions) : list (string * Metafile) :=
  match log with
  | [] => []
  | o :: rest =>
      match esbuild_build n o, head (entryPoints o) with
      | Ok mf, Some entry => (entry, mf) :: completions (S n) rest
      | _, _ => completions (S n) rest
      end
  end.

(** No listener is under way; the builds made so far have completed in the
    order of their calls. *)
Definition idle (st : State) : Async :=
  {| now := st; waiting := []; in_flight := []; built := [];
     completed := completions 0 (builds st) |}.

(** The schedule in which the listener of one event runs all its parts
    before anything else happens. *)
Definition alone (ev : Event) : list Step :=
  [Arrives ev; Calls 0; Settles 0; Reports 0].

Variable ghost_ls : option string.

(** A process whose rebuilds may overlap: start-up, which awaits each of
    its builds before any listener is registered, then the steps. *)
Definition process_overlapping (js_dir css_dir : fsnode) (steps : list Step)
    (st : State) : Result unit * Async :=
  match init isWatch esbuild_build ghost_ls js_dir css_dir st with
  | (Ok _, st') => overlap steps (idle st')
  | (Throw e, st') => (Throw e, idle st')
  end.

End Overlap.

(** Every build of the history is a call of the log that the bundler
    answered with that metafile, made for that entry. *)
Definition completed_are_calls (esbuild_build : nat -> BuildOptions -> Result Metafile)
    (a : Async) : Prop :=
  forall entry mf, (entry, mf) ∈ completed a ->
    exists n o, builds (now a) !! n = Some o /\
                esbuild_build n o = Ok mf /\
                head (entryPoints o) = Some entry.

(** The index agrees with the history: the owner of a path is the entry of
    the last completed build that consumed it. *)
Definition index_follows_history (a : Async) : Prop :=
  forall p, tree (now a) !! p = last_completed (completed a) p.

(** The calls in flight are calls of the log, each made for the entry of
    its listener. *)
Definition in_flight_are_calls (isWatch : bool) (a : Async) : Prop :=
  forall f, f ∈ in_flight a ->
    builds (now a) !! f_call f =
      Some (buildOptionsClone isWatch [f_rootFile f] (f_rootFile f)).

(** The index and the log of calls are as they were. *)
Definition same_index (st st' : State) : Prop :=
  tree st' = tree st /\ builds st' = builds st.

(** No listener is under way. *)
Definition at_rest (a : Async) : Prop :=
  waiting a = [] /\ in_flight a = [] /\ built a = [].

Module Sample6.

(** Two changes arrive, the script first; both listeners call the bundler;
    the bundler answers the second call first. *)
Definition crossing : list Step :=
  [Arrives (WatcherAll "change" "assets/js/index.js");
   Arrives (WatcherAll "change" "assets/css/index.css");
   Calls 0; Calls 0; Settles 1; Settles 0; Reports 0; Reports 0].

End Sample6.

(** * Properties *)

(** ** Strings *)

Section StringFacts.

Lemma startsWith_spec (s p : string) :
  startsWith s p = true <-> exists t, s = p +:+ t.
Proof.
  revert s. induction p as [|c p IH]; intros s; simpl.
  - split; [intros _; by exists s | done].
  - destruct s as [|d s]; simpl.
    + split; [done | intros [t Ht]; discriminate].
    + rewrite andb_true_iff, Ascii.eqb_eq, IH. split.
      * intros [-> [t ->]]. by exists t.
      * intros [t Ht]. injection Ht as -> ->. split; [done | by exists t].
Qed.

Lemma strip_prefix_spec (p s r : string) :
  strip_prefix p s = Some r <-> s = p +:+ r.
Proof.
  revert s. induction p as [|c p IH]; intros s; simpl.
  - split; [by intros [= ->] | by intros ->].
  - destruct s as [|d s]; [split; discriminate |].
    destruct (Ascii.eqb_spec d c) as [->|Hne].
    + rewrite IH. split; [by intros -> | by intros [= ->]].
    + split; [discriminate | intros [= ? ?]; done].
Qed.

Lemma endsWith_spec (s p : string) :
  endsWith s p = true <-> exists t, s = t +:+ p.
Proof.
  induction s as [|c s IH]; cbn [endsWith].
  - rewrite orb_false_r, String.eqb_eq. split.
    + intros <-. by exists "".
    + intros [t Ht]. destruct t; simpl in Ht; [done | discriminate].
  - rewrite orb_true_iff, String.eqb_eq, IH. split.
    + intros [<- | [t ->]]; [by exists "" | by exists (String c t)].
    + intros [[|d t] Ht]; simpl in Ht; [by left |].
      injection Ht as -> ->. right. by exists t.
Qed.

Lemma includes_spec (s p : string) :
  includes s p = true <-> exists a b, s = a +:+ p +:+ b.
Proof.
  induction s as [|c s IH]; cbn [includes].
  - rewrite orb_false_r, startsWith_spec. split.
    + intros [t Ht]. by exists "", t.
    + intros [[|d a] [b Hb]]; simpl in Hb; [by exists b | discriminate].
  - rewrite orb_true_iff, startsWith_spec, IH. split.
    + intros [[t ->] | [a [b ->]]]; [by exists "", t | by exists (String c a), b].
    + intros [[|d a] [b Hb]]; simpl in Hb; [left; by exists b |].
      injection Hb as -> ->. right. by exists a, b.
Qed.

Lemma endsWith_refl (s : string) : endsWith s s = true.
Proof. apply endsWith_spec. by exists "". Qed.

Lemma endsWith_app (a p : string) : endsWith (a +:+ p) p = true.
Proof. apply endsWith_spec. by exists a. Qed.

Lemma index_regex_here_eqb (s : string) :
  index_regex_here s =
  String.eqb s "index.css" || String.eqb s "index.js" || String.eqb s "index.ts".
Proof.
  apply Bool.eq_iff_eq_true. unfold index_regex_here.
  rewrite !orb_true_iff, !String.eqb_eq.
  destruct (strip_prefix "index." s) as [r|] eqn:E.
  - apply strip_prefix_spec in E. subst s.
    rewrite !orb_true_iff, !String.eqb_eq. simpl.
    split; [intros [[-> | ->] | ->]; auto |].
    intros [[H | H] | H]; simpl in H; injection H as ->; auto.
  - split; [done |].
    intros [[-> | ->] | ->]; discriminate.
Qed.

(** The test of the router is a test on the end of the path. *)
Lemma index_regex_test_endsWith (s : string) :
  index_regex_test s =
  endsWith s "index.css" || endsWith s "index.js" || endsWith s "index.ts".
Proof.
  induction s as [|c s IH]; [done |].
  cbn [index_regex_test endsWith]. rewrite IH, index_regex_here_eqb.
  repeat match goal with |- context [String.eqb ?a ?b] =>
    generalize (String.eqb a b); intro end.
  repeat match goal with |- context [endsWith ?a ?b] =>
    generalize (endsWith a b); intro end.
  repeat match goal with b : bool |- _ => destruct b end; reflexivity.
Qed.

Lemma endsWith_truthy (s p : string) :
  endsWith s p = true -> truthy p = true -> truthy s = true.
Proof.
  intros [t ->]%endsWith_spec Hp.
  destruct t; [done | done].
Qed.

Lemma endsWith_trans (s p q : string) :
  endsWith s p = true -> endsWith p q = true -> endsWith s q = true.
Proof.
  intros [a ->]%endsWith_spec [b ->]%endsWith_spec.
  apply endsWith_spec. exists (a +:+ b).
  induction a as [|c a IH]; simpl; [done | by rewrite IH].
Qed.

Lemma endsWith_includes (s p q : string) :
  endsWith s p = true -> includes p q = true -> includes s q = true.
Proof.
  intros [a ->]%endsWith_spec [b [c ->]]%includes_spec.
  apply includes_spec. exists (a +:+ b), c.
  induction a as [|d a IH]; simpl; [done | by rewrite IH].
Qed.

End StringFacts.

(** ** formatBytes *)

Section FormatBytesFacts.

Lemma floor_log1024_bounds (b : N) :
  0 < b -> 1024 ^ floor_log1024 b <= b < 1024 ^ (floor_log1024 b + 1).
Proof.
  intros Hb. unfold floor_log1024.
  destruct (N.log2_spec b Hb) as [Hlo Hhi].
  change 1024 with (2 ^ 10). rewrite <- !N.pow_mul_r.
  pose proof (N.Div0.mul_div_le (N.log2 b) 10) as Hle.
  pose proof (N.mul_succ_div_gt (N.log2 b) 10 ltac:(lia)) as Hgt.
  split.
  - etransitivity; [| exact Hlo]. apply N.pow_le_mono_r; lia.
  - eapply N.lt_le_trans; [exact Hhi |]. apply N.pow_le_mono_r; lia.
Qed.

Lemma pow1024_pos (i : N) : 0 < 1024 ^ i.
Proof. apply N.neq_0_lt_0, N.pow_nonzero. lia. Qed.


Lemma toFixed_in_range (num den : N) (dm : Z) :
  (0 <= dm <= 100)%Z -> exists s, toFixed num den dm = Ok s.
Proof.
  intros Hdm. unfold toFixed.
  destruct (dm <? 0)%Z eqn:E1; [lia |].
  destruct (100 <? dm)%Z eqn:E2; [lia |]. simpl.
  destruct (Z.to_N dm =? 0); eauto.
Qed.

(** With the default number of decimals [formatBytes] does not throw. *)
Lemma formatBytes_default_ok (bytes : option N) :
  exists s, formatBytes bytes default_decimals = Ok s.
Proof.
  destruct bytes as [[|b]|]; simpl; eauto.
Qed.

Lemma formatBytes_with_exact (bytes : option N) (decimals : Z) :
  formatBytes_with floor_log1024 bytes decimals = formatBytes bytes decimals.
Proof. reflexivity. Qed.

Lemma parseFloat_text_digits (d : Decimal.uint) (t : string) :
  parseFloat_text (NilEmpty.string_of_uint d +:+ t) =
  NilEmpty.string_of_uint d +:+ parseFloat_text t.
Proof. induction d; simpl; [done | by rewrite IHd..]. Qed.

Lemma parseFloat_text_N (n : N) (t : string) :
  parseFloat_text (N_to_string n +:+ t) = N_to_string n +:+ parseFloat_text t.
Proof.
  unfold N_to_string, NilZero.string_of_uint.
  destruct (N.to_uint n); [reflexivity | ..];
    match goal with
    | |- context [NilEmpty.string_of_uint ?d] => apply (parseFloat_text_digits d)
    end.
Qed.




End FormatBytesFacts.



(** ** Entry point discovery *)

Section DiscoveryFacts.

Lemma fsnode_ind' (P : fsnode -> Prop) :
  P File -> P Unreadable ->
  (forall es, Forall (fun e => P e.2) es -> P (Dir es)) ->
  forall n, P n.
Proof.
  intros HF HU HD. fix IH 1. intros [|es|]; [exact HF | | exact HU].
  apply HD. induction es as [|[name c] es IHes]; constructor; [apply IH | exact IHes].
Qed.

Lemma append_assoc (a b c : string) : (a +:+ b) +:+ c = a +:+ (b +:+ c).
Proof. induction a as [|x a IH]; simpl; [done | by rewrite IH]. Qed.

Lemma append_nil_r (a : string) : a +:+ "" = a.
Proof. induction a as [|x a IH]; simpl; [done | by rewrite IH]. Qed.

Lemma append_inj_l (a x y : string) : a +:+ x = a +:+ y -> x = y.
Proof. induction a as [|c a IH]; simpl; [done | intros [= H]; auto]. Qed.

Lemma plain_name_cons (c : ascii) (s : string) :
  plain_name (String c s) <-> c <> "/"%char /\ plain_name s.
Proof.
  unfold plain_name. cbn [includes startsWith].
  rewrite andb_true_r, orb_false_iff. 
  destruct (Ascii.eqb_spec c "/"); split; intros [? ?]; try done; split; congruence.
Qed.

(** What follows a name in a path: nothing, or a separator and more. *)
Definition path_rest (rest : string) : Prop :=
  rest = "" \/ exists r, rest = "/" +:+ r.

Lemma plain_prefix_unique (n1 n2 r1 r2 : string) :
  plain_name n1 -> plain_name n2 -> path_rest r1 -> path_rest r2 ->
  n1 +:+ r1 = n2 +:+ r2 -> n1 = n2.
Proof.
  revert n2. induction n1 as [|c n1 IH]; intros [|c2 n2] H1 H2 Hr1 Hr2 Heq;
    simpl in Heq.
  - done.
  - apply plain_name_cons in H2 as [Hc _].
    destruct Hr1 as [-> | [r ->]]; [discriminate |].
    simpl in Heq. injection Heq as <- _. done.
  - apply plain_name_cons in H1 as [Hc _].
    destruct Hr2 as [-> | [r ->]]; [discriminate |].
    simpl in Heq. injection Heq as -> _. done.
  - injection Heq as -> Heq.
    apply plain_name_cons in H1 as [_ H1]. apply plain_name_cons in H2 as [_ H2].
    f_equal. by apply IH.
Qed.

(** *** Joined paths

    On a normalized directory and a name as [readdir] gives them,
    [join] returns the two with a separator between them, and the result
    is a normalized directory again: a traversal that starts at a
    normalized root only ever joins such paths. *)

Lemma segments_nonempty (s : string) : segments s <> [].
Proof.
  induction s as [|c s IH]; [done |]. cbn [segments].
  destruct (Ascii.eqb c "/"); [done |]. by destruct (segments s).
Qed.

Lemma segments_join (a b : string) :
  segments (a +:+ "/" +:+ b) = segments a ++ segments b.
Proof.
  induction a as [|c a IH]; [done |].
  change (String c a +:+ "/" +:+ b) with (String c (a +:+ "/" +:+ b)).
  cbn [segments]. rewrite IH.
  destruct (Ascii.eqb c "/"); [done |].
  pose proof (segments_nonempty a). by destruct (segments a).
Qed.

Lemma segments_name (s : string) : includes s "/" = false -> segments s = [s].
Proof.
  induction s as [|c s IH]; [done |]. intros H.
  apply plain_name_cons in H as [Hc Hs]. cbn [segments].
  destruct (Ascii.eqb_spec c "/") as [|_]; [done |]. by rewrite (IH Hs).
Qed.

Lemma unsegments_segments (s : string) : unsegments (segments s) = s.
Proof.
  induction s as [|c s IH]; [done |]. cbn [segments].
  pose proof (segments_nonempty s) as Hne.
  destruct (Ascii.eqb_spec c "/") as [->|_].
  - destruct (segments s) as [|seg rest] eqn:E; [done |].
    change (unsegments ("" :: seg :: rest)) with ("/" +:+ unsegments (seg :: rest)).
    by rewrite IH.
  - destruct (segments s) as [|seg rest] eqn:E; [done |].
    destruct rest as [|seg' rest].
    + simpl in IH. simpl. by rewrite IH.
    + change (unsegments (String c seg :: seg' :: rest))
        with (String c (unsegments (seg :: seg' :: rest))).
      by rewrite IH.
Qed.

Lemma unsegments_snoc (l : list string) (e : string) :
  l <> [] -> unsegments (l ++ [e]) = unsegments l +:+ "/" +:+ e.
Proof.
  induction l as [|seg l IH]; [done |]. intros _.
  destruct l as [|seg' l]; [done |].
  change (unsegments ((seg :: seg' :: l) ++ [e]))
    with (seg +:+ "/" +:+ unsegments ((seg' :: l) ++ [e])).
  rewrite IH by done. cbn [unsegments]. by rewrite !append_assoc.
Qed.

Lemma proper_name_tests (s : string) :
  proper_name s = true ->
  String.eqb s "" = false /\ String.eqb s "." = false /\ String.eqb s ".." = false.
Proof.
  unfold proper_name. intros H.
  apply andb_true_iff in H as [H H3]. apply andb_true_iff in H as [H1 H2].
  by rewrite !negb_true_iff in *.
Qed.

Lemma normalize_segments_proper (allow : bool) (segs : list string) :
  forallb proper_name segs = true -> normalize_segments allow segs = segs.
Proof.
  unfold normalize_segments.
  match goal with |- _ -> foldl ?g [] segs = segs => set (f := g) end.
  intros H. enough (forall stack, foldl f stack segs = stack ++ segs) as Hgen
    by apply (Hgen []).
  induction segs as [|seg segs IH]; intros stack; [by rewrite app_nil_r |].
  cbn [forallb] in H. apply andb_true_iff in H as [Hseg H].
  destruct (proper_name_tests seg Hseg) as (E1 & E2 & E3).
  cbn [foldl]. unfold f at 2. rewrite E1, E2, E3. cbn [orb].
  rewrite (IH H). by rewrite <- app_assoc.
Qed.

Lemma endsWith_after (x e : string) :
  e <> "" -> endsWith (x +:+ e) "/" = endsWith e "/".
Proof.
  intros He. induction x as [|c x IH]; [done |].
  change (String c x +:+ e) with (String c (x +:+ e)). cbn [endsWith].
  rewrite IH. destruct (String.eqb_spec (String c (x +:+ e)) "/") as [E|_]; [| done].
  injection E as _ E. destruct x; [simpl in E; by subst e | done].
Qed.

Lemma readdir_name_spec (e : string) :
  readdir_name e = true -> proper_name e = true /\ includes e "/" = false /\ e <> "".
Proof.
  unfold readdir_name. intros H. apply andb_true_iff in H as [Hp Hs].
  apply negb_true_iff in Hs. split; [done |]. split; [done |].
  intros ->. done.
Qed.

Lemma normalized_dir_segments (dir : string) :
  normalized_dir dir = true ->
  exists base,
    forallb proper_name (segments base) = true /\
    ((dir = base /\ startsWith dir "/" = false) \/
     (dir = "/" +:+ base /\ startsWith dir "/" = true)).
Proof.
  unfold normalized_dir.
  destruct (strip_prefix "/" dir) as [rest|] eqn:E.
  - apply strip_prefix_spec in E as ->. intros H. exists rest. split; [done |]. by right.
  - intros H. exists dir. split; [done |]. left. split; [done |].
    destruct (startsWith dir "/") eqn:Es; [| done].
    apply startsWith_spec in Es as [t Ht]. apply strip_prefix_spec in Ht. congruence.
Qed.

(** On a normalized directory and a name of [readdir], [join] has nothing
    to normalize. *)
Lemma join_normalized (dir entry : string) :
  normalized_dir dir = true -> readdir_name entry = true ->
  join dir entry = dir +:+ "/" +:+ entry.
Proof.
  intros Hdir Hentry.
  destruct (readdir_name_spec entry Hentry) as (Hproper & Hplain & Hne).
  destruct (normalized_dir_segments dir Hdir) as (base & Hsegs & Hcase).
  assert (dir <> "") as Hdne.
  { destruct Hcase as [[-> _]|[-> _]]; [| done]. intros ->. done. }
  unfold join.
  destruct dir as [|c dir]; [done |]. destruct entry as [|c' entry]; [done |].
  set (d := String c dir) in *. set (e := String c' entry) in *.
  unfold path_normalize.
  change (d +:+ "/" +:+ e) with (String c (dir +:+ "/" +:+ e)) at 1.
  cbv iota beta.
  change (String c (dir +:+ "/" +:+ e)) with (d +:+ "/" +:+ e).
  assert (endsWith (d +:+ "/" +:+ e) "/" = false) as ->.
  { rewrite <- append_assoc, endsWith_after by done.
    destruct (endsWith e "/") eqn:Ee; [| done].
    pose proof (endsWith_includes e "/" "/" Ee eq_refl). congruence. }
  assert (startsWith (d +:+ "/" +:+ e) "/" = startsWith d "/") as -> by done.
  rewrite segments_join, (segments_name e Hplain).
  assert (forall x : string, x +:+ "/" +:+ e <> "") as Hres by (by intros [|? ?]).
  destruct Hcase as [[E Hrel]|[E Habs]]; rewrite E in *.
  - rewrite Hrel. cbn [negb].
    rewrite normalize_segments_proper
      by (rewrite forallb_app, Hsegs; cbn; by rewrite Hproper).
    rewrite unsegments_snoc by apply segments_nonempty.
    rewrite unsegments_segments.
    destruct (base +:+ "/" +:+ e) as [|x r] eqn:Er; [by apply Hres in Er |].
    cbn [String.append]. by rewrite append_nil_r.
  - rewrite Habs. cbn [negb].
    change (segments ("/" +:+ base)) with ("" :: segments base).
    assert (normalize_segments false (("" :: segments base) ++ [e])
            = segments base ++ [e]) as ->.
    { change (normalize_segments false (("" :: segments base) ++ [e]))
        with (normalize_segments false (segments base ++ [e])).
      apply normalize_segments_proper.
      rewrite forallb_app, Hsegs. cbn. by rewrite Hproper. }
    rewrite unsegments_snoc by apply segments_nonempty.
    rewrite unsegments_segments.
    destruct (base +:+ "/" +:+ e) as [|x r] eqn:Er; [by apply Hres in Er |].
    rewrite append_nil_r. rewrite <- Er. reflexivity.
Qed.

(** What the traversal joins is a normalized directory again. *)
Lemma normalized_dir_join (dir entry : string) :
  normalized_dir dir = true -> readdir_name entry = true ->
  normalized_dir (join dir entry) = true.
Proof.
  intros Hdir Hentry. rewrite join_normalized by done.
  destruct (readdir_name_spec entry Hentry) as (Hproper & Hplain & Hne).
  destruct (normalized_dir_segments dir Hdir) as (base & Hsegs & Hcase).
  assert (forallb proper_name (segments (base +:+ "/" +:+ entry)) = true) as Hall.
  { rewrite segments_join, (segments_name entry Hplain), forallb_app, Hsegs.
    cbn. by rewrite Hproper. }
  unfold normalized_dir.
  destruct Hcase as [[-> Hrel]|[-> _]].
  - destruct (strip_prefix "/" (base +:+ "/" +:+ entry)) as [rest|] eqn:E; [| done].
    apply strip_prefix_spec in E.
    destruct base as [|c base]; [done |].
    injection E as -> E. done.
  - done.
Qed.

Lemma readdir_names_cons (e : string * fsnode) (es : list (string * fsnode)) :
  readdir_names (Dir (e :: es)) ->
  readdir_name e.1 = true /\ readdir_names e.2 /\ readdir_names (Dir es).
Proof.
  inversion 1 as [| |? Hall]; subst. apply Forall_cons in Hall as [[Hn Hc] Hall].
  split; [done |]. split; [done | by constructor].
Qed.

Lemma readdir_names_elem (es : list (string * fsnode)) (name : string) (child : fsnode) :
  readdir_names (Dir es) -> (name, child) ∈ es ->
  readdir_name name = true /\ readdir_names child.
Proof.
  inversion 1 as [| |? Hall]; subst. intros Hin.
  rewrite Forall_forall in Hall. exact (Hall _ Hin).
Qed.

Lemma file_under_prefix (dir : string) (node : fsnode) (p : string) :
  file_under dir node p ->
  normalized_dir dir = true -> readdir_names node ->
  exists x, p = dir +:+ "/" +:+ x.
Proof.
  induction 1 as [dir es entry Hin | dir es entry child p Hin _ IH]; intros Hdir Hnames.
  - destruct (readdir_names_elem _ _ _ Hnames Hin) as [Hname _].
    exists entry. by apply join_normalized.
  - destruct (readdir_names_elem _ _ _ Hnames Hin) as [Hname Hchild].
    destruct (IH (normalized_dir_join _ _ Hdir Hname) Hchild) as [x ->].
    exists (entry +:+ "/" +:+ x). rewrite join_normalized by done.
    by rewrite !append_assoc.
Qed.

(** A file below a directory lies under one of the directory's names. *)
Lemma file_under_shape (dir : string) (es : list (string * fsnode)) (p : string) :
  file_under dir (Dir es) p ->
  normalized_dir dir = true -> readdir_names (Dir es) ->
  exists name rest,
    name ∈ es.*1 /\ p = (dir +:+ "/" +:+ name) +:+ rest /\ path_rest rest.
Proof.
  inversion 1 as [? ? entry Hin | ? ? entry child ? Hin Hsub]; subst; intros Hdir Hnames;
    destruct (readdir_names_elem _ _ _ Hnames Hin) as [Hname Hchild].
  - exists entry, "". split; [| split].
    + apply list_elem_of_fmap. by exists (entry, File).
    + by rewrite append_nil_r, join_normalized.
    + by left.
  - apply file_under_prefix in Hsub as [x ->];
      [| by apply normalized_dir_join | done].
    exists entry, ("/" +:+ x). split; [| split].
    + apply list_elem_of_fmap. by exists (entry, child).
    + by rewrite join_normalized.
    + right. by exists x.
Qed.

Lemma file_under_cons (dir : string) (e : string * fsnode)
    (es : list (string * fsnode)) (p : string) :
  file_under dir (Dir (e :: es)) p <->
  (e.2 = File /\ p = join dir e.1) \/
  file_under (join dir e.1) e.2 p \/
  file_under dir (Dir es) p.
Proof.
  split.
  - inversion 1 as [? ? entry Hin | ? ? entry child ? Hin Hsub]; subst.
    + apply elem_of_cons in Hin as [<- | Hin]; [left; done |].
      right; right. by constructor.
    + apply elem_of_cons in Hin as [<- | Hin]; [right; left; done |].
      right; right. by econstructor.
  - intros [[Hf ->] | [Hsub | Hrest]].
    + destruct e as [name c]; simpl in *; subst. constructor. by left.
    + destruct e as [name c]; simpl in *. econstructor; [| exact Hsub]. by left.
    + inversion Hrest as [? ? entry Hin | ? ? entry child ? Hin Hsub]; subst.
      * constructor. by right.
      * econstructor; [| exact Hsub]. by right.
Qed.

Lemma file_under_nil (dir p : string) : ~ file_under dir (Dir []) p.
Proof.
  inversion 1 as [? ? entry Hin | ? ? entry child ? Hin Hsub]; subst;
    by apply elem_of_nil in Hin.
Qed.

(** Paths under different plain names of one directory differ. *)
Lemma sibling_paths_differ (dir n1 n2 r1 r2 : string) :
  plain_name n1 -> plain_name n2 -> path_rest r1 -> path_rest r2 ->
  (dir +:+ "/" +:+ n1) +:+ r1 = (dir +:+ "/" +:+ n2) +:+ r2 -> n1 = n2.
Proof.
  intros H1 H2 Hr1 Hr2 Heq.
  rewrite !append_assoc in Heq. apply append_inj_l in Heq.
  simpl in Heq. injection Heq as Heq.
  exact (plain_prefix_unique _ _ _ _ H1 H2 Hr1 Hr2 Heq).
Qed.

(** What a traversal that succeeds has pushed. *)
Definition traversal_spec (dir : string) (node : fsnode) (found : list string) : Prop :=
  (forall p, p ∈ found <-> file_under dir node p) /\
  (normalized_dir dir = true -> readdir_names node -> wf_fs node -> NoDup found).

Lemma traverseDirectory_spec (node : fsnode) :
  forall dir files r,
    traverseDirectory dir node files = Ok r ->
    exists found, r = files ++ found /\ traversal_spec dir node found.
Proof.
  induction node as [| |es IHes] using fsnode_ind'; intros dir files r; [done | done |].
  cbn [traverseDirectory]. revert files r.
  induction es as [|[name child] es IHloop]; intros files r Hr.
  - injection Hr as <-. exists []. split; [by rewrite app_nil_r |].
    split; [| intros _ _ _; constructor].
    intros p. split; [by intros ?%elem_of_nil | by intros ?%file_under_nil].
  - apply Forall_cons in IHes as [IHchild IHes]. simpl in IHchild.
    specialize (IHloop IHes).
    assert (Hwf_tail : wf_fs (Dir ((name, child) :: es)) ->
              wf_fs (Dir es) /\ plain_name name /\ wf_fs child /\ (name ∉ es.*1) /\
              Forall (fun e => plain_name e.1) es).
    { inversion 1 as [| |? Hnd Hall]; subst. simpl in Hnd.
      apply NoDup_cons in Hnd as [Hnot Hnd].
      apply Forall_cons in Hall as [[Hp Hc] Hall]. simpl in Hp, Hc.
      repeat split; try done.
      - by constructor.
      - eapply Forall_impl; [exact Hall |]. by intros ? [? ?]. }
    assert (Hother : forall q, file_under dir (Dir es) q ->
              normalized_dir dir = true ->
              readdir_names (Dir ((name, child) :: es)) ->
              wf_fs (Dir ((name, child) :: es)) ->
              forall rest, path_rest rest -> q <> (dir +:+ "/" +:+ name) +:+ rest).
    { intros q Hq Hdir Hnames Hwf rest Hrest ->.
      apply Hwf_tail in Hwf as (_ & Hp & _ & Hnot & Hall).
      apply readdir_names_cons in Hnames as (_ & _ & Hnames).
      apply file_under_shape in Hq as (n2 & r2 & Hn2 & Heq & Hr2); [| done..].
      assert (plain_name n2) as Hp2.
      { apply list_elem_of_fmap in Hn2 as [[n c] [-> Hin]].
        rewrite Forall_forall in Hall. by apply (Hall (n, c)). }
      apply sibling_paths_differ in Heq; [| done..]. by subst. }
    destruct child as [|sub|].
    + apply IHloop in Hr as (found & -> & Hmem & Hnd).
      exists (join dir name :: found). split; [by rewrite <- app_assoc |].
      split.
      * intros p. rewrite elem_of_cons, Hmem, file_under_cons. simpl.
        split; [intros [-> | ?]; auto |].
        intros [[_ ->] | [Hsub | ?]]; auto. inversion Hsub.
      * intros Hdir Hnames Hwf.
        pose proof (readdir_names_cons _ _ Hnames) as (Hname & _ & Hnames'). simpl in Hname.
        apply NoDup_cons. split; [| by apply Hnd; [| | apply Hwf_tail]].
        intros Hin%Hmem. eapply (Hother _ Hin Hdir Hnames Hwf ""); [by left |].
        by rewrite append_nil_r, join_normalized.
    + destruct (traverseDirectory (join dir name) (Dir sub) files) as [files'|] eqn:Hsub;
        [| done].
      apply IHchild in Hsub as (found1 & -> & Hmem1 & Hnd1).
      apply IHloop in Hr as (found2 & -> & Hmem2 & Hnd2).
      exists (found1 ++ found2). split; [by rewrite <- app_assoc |].
      split.
      * intros p. rewrite elem_of_app, Hmem1, Hmem2, file_under_cons. simpl.
        split; [intros [? | ?]; auto |].
        intros [[? _] | [? | ?]]; auto. done.
      * intros Hdir Hnames Hwf.
        pose proof (Hwf_tail Hwf) as (Hwf' & _ & Hwfc & _ & _).
        pose proof (readdir_names_cons _ _ Hnames) as (Hname & Hsubn & Hnames').
        simpl in Hname, Hsubn.
        pose proof (normalized_dir_join _ _ Hdir Hname) as Hdir'.
        apply NoDup_app. split; [by apply Hnd1 |]. split; [| by apply Hnd2].
        intros q Hq1%Hmem1 Hq2%Hmem2.
        apply file_under_prefix in Hq1 as [x Hx]; [| done..].
        eapply (Hother _ Hq2 Hdir Hnames Hwf ("/" +:+ x)); [right; by exists x |].
        by rewrite Hx, join_normalized.
    + done.
Qed.

Lemma traverseDirectory_readable (node : fsnode) :
  forall dir files,
    readable node -> node <> File ->
    exists r, traverseDirectory dir node files = Ok r.
Proof.
  induction node as [| |es IHes] using fsnode_ind'; intros dir files Hrd Hnf;
    [done | inversion Hrd |].
  cbn [traverseDirectory]. clear Hnf.
  inversion Hrd as [|? Hall]; subst. clear Hrd. revert files.
  induction es as [|[name child] es IHloop]; intros files; [by eexists |].
  apply Forall_cons in IHes as [IHchild IHes].
  apply Forall_cons in Hall as [Hc Hall]. simpl in IHchild, Hc.
  specialize (IHloop IHes Hall).
  destruct child as [|sub|]; [apply IHloop | | inversion Hc].
  destruct (IHchild (join dir name) files Hc ltac:(done)) as [files' ->].
  apply IHloop.
Qed.

Lemma some_endsWith_spec (exts : list string) (file : string) :
  some_endsWith exts file = true <->
  exists ext, ext ∈ exts /\ endsWith file ext = true.
Proof.
  unfold some_endsWith. rewrite existsb_exists.
  split; intros [ext [Hin He]]; exists ext; split; try done;
    by apply list_elem_of_In.
Qed.

End DiscoveryFacts.

(** C3, as the code has it. Discovery tests the whole path, root and folders
    included, not the base name: for every root, a result holds exactly the
    files below the root whose path, as [join] builds it, includes "index"
    and ends with one of the extensions; it holds no path twice when the
    root is normalized and the names of the tree are those [readdir] gives,
    no name twice in a directory; and on a directory that can be read
    throughout there is a result. *)
Theorem C3_discovery_tests_full_path (root : string) (exts : list string) (node : fsnode) :
  (forall l, findEntryPoints root exts node = Some l ->
     (forall p, p ∈ l <->
        file_under root node p /\ includes p "index" = true /\
        exists ext, ext ∈ exts /\ endsWith p ext = true) /\
     (normalized_dir root = true -> readdir_names node -> wf_fs node -> NoDup l)) /\
  (readable node -> node <> File ->
   exists l, findEntryPoints root exts node = Some l).
Proof.
  unfold findEntryPoints, findFilesRecursively. split.
  - intros l Hl.
    destruct (traverseDirectory root node []) as [files|] eqn:Ht; [| done].
    injection Hl as <-.
    apply traverseDirectory_spec in Ht as (found & -> & Hmem & Hnd). simpl.
    split; [| intros Hroot Hnames Hwf; by apply NoDup_filter, Hnd].
    intros p. rewrite list_elem_of_filter, Hmem. unfold is_entry_point.
    rewrite andb_true_iff, some_endsWith_spec. tauto.
  - intros Hrd Hnf.
    destruct (traverseDirectory_readable node root [] Hrd Hnf) as [r ->].
    by eexists.
Qed.

Lemma Sample_js_dir_wf : wf_fs Sample.js_dir.
Proof.
  constructor.
  - simpl. apply NoDup_cons. split; [| apply NoDup_singleton].
    by intros [=]%list_elem_of_singleton.
  - apply Forall_cons. split; [split; [reflexivity | constructor] |].
    apply Forall_cons. split; [| constructor].
    split; [reflexivity |].
    constructor; [apply NoDup_singleton |].
    apply Forall_cons. split; [| constructor].
    split; [reflexivity | constructor].
Qed.

Lemma Sample_js_dir_readable : readable Sample.js_dir.
Proof. repeat constructor. Qed.

Lemma Sample_js_dir_names : readdir_names Sample.js_dir.
Proof. repeat constructor. Qed.

(** C3 at the sample script directory. *)
Lemma C3_discovery_witness :
  (exists l, findEntryPoints "assets/js" [".ts"; ".js"] Sample.js_dir = Some l) /\
  (NoDup ["assets/js/index.js"; "assets/js/indexes/util.js"]).
Proof.
  pose proof (C3_discovery_tests_full_path "assets/js" [".ts"; ".js"] Sample.js_dir)
    as [Hpartial Htotal].
  split.
  - apply Htotal; [apply Sample_js_dir_readable | discriminate].
  - apply (Hpartial _ eq_refl); [reflexivity | apply Sample_js_dir_names | apply Sample_js_dir_wf].
Defined.

(** C3 as stated does not hold, even for normalized roots: below
    "assets/js" the file "indexes/util.js" is returned although its base
    name, "util.js", does not contain "index". *)
Lemma C3_counterexample_folder_named_index :
  ~ (forall (root : string) (exts : list string) (node : fsnode) (l : list string),
        normalized_dir root = true -> readdir_names node -> wf_fs node ->
        findEntryPoints root exts node = Some l ->
        forall p, p ∈ l <->
          file_under root node p /\ includes (basename p) "index" = true /\
          exists ext, ext ∈ exts /\ endsWith p ext = true).
Proof.
  intros H.
  specialize (H "assets/js" [".ts"; ".js"] Sample.js_dir
                ["assets/js/index.js"; "assets/js/indexes/util.js"]
                eq_refl Sample_js_dir_names Sample_js_dir_wf eq_refl
                "assets/js/indexes/util.js").
  destruct H as [H _].
  destruct H as (_ & Hbase & _); [set_solver |].
  vm_compute in Hbase. discriminate.
Qed.

(** ** Computations *)

Section Steps.

(** Every run of [m] takes a state to one related to it by [R]. *)
Definition steps (R : State -> State -> Prop) {A} (m : M A) : Prop :=
  forall st, R st (m st).2.

Variable R : State -> State -> Prop.
Hypothesis R_refl : forall st, R st st.
Hypothesis R_trans : forall a b c, R a b -> R b c -> R a c.

Lemma steps_ret {A} (a : A) : steps R (ret a).
Proof. intros st. apply R_refl. Qed.

Lemma steps_throw {A} (e : Error) : steps R (@throw A e).
Proof. intros st. apply R_refl. Qed.

Lemma steps_gets {A} (f : State -> A) : steps R (gets f).
Proof. intros st. apply R_refl. Qed.

Lemma steps_lift {A} (r : Result A) : steps R (lift r).
Proof. intros st. apply R_refl. Qed.

Lemma steps_bind {A B} (m : M A) (k : A -> M B) :
  steps R m -> (forall a, steps R (k a)) -> steps R (bind m k).
Proof.
  intros Hm Hk st. unfold bind. specialize (Hm st).
  destruct (m st) as [[a|e] st1]; simpl in *; [| done].
  eapply R_trans; [exact Hm | apply Hk].
Qed.

Lemma steps_modify (f : State -> State) :
  (forall st, R st (f st)) -> steps R (modify f).
Proof. intros Hf st. apply Hf. Qed.

End Steps.

(** Splits a computation into its steps; what remains are the steps that
    change the state and the calls of named parts. *)
Ltac steps_split Hrefl Htrans :=
  repeat match goal with
    | |- steps _ (ret _) => apply (steps_ret _ Hrefl)
    | |- steps _ (throw _) => apply (steps_throw _ Hrefl)
    | |- steps _ (gets _) => apply (steps_gets _ Hrefl)
    | |- steps _ (lift _) => apply (steps_lift _ Hrefl)
    | |- steps _ (bind _ _) => apply (steps_bind _ Htrans); [| intros ?]
    | |- steps _ (if ?b then _ else _) => destruct b eqn:?
    | |- steps _ (match ?x with _ => _ end) => destruct x eqn:?
    end.

(** ** The build executor *)

Section BuildFacts.

Context (isWatch : bool) (esbuild_build : nat -> BuildOptions -> Result Metafile).

Lemma record_inputs_lookup (entry : string) (ins : list string)
    (t : gmap string string) (p : string) :
  record_inputs entry ins t !! p =
  if decide (p ∈ ins) then Some entry else t !! p.
Proof.
  unfold record_inputs. revert t.
  induction ins as [|i ins IH]; intros t; cbn [foldl].
  - rewrite decide_False; [done | apply not_elem_of_nil].
  - rewrite IH. destruct (decide (p ∈ ins)) as [Hin | Hnin].
    + rewrite decide_True; [done | by right].
    + destruct (decide (p = i)) as [-> | Hne].
      * rewrite decide_True; [| by left]. by rewrite lookup_insert_eq.
      * rewrite decide_False; [| by intros [?|?]%elem_of_cons].
        by rewrite lookup_insert_ne.
Qed.

Lemma reported_cons (key : string) (bytes : N) (outs : list (string * N)) :
  reported ((key, bytes) :: outs) =
  if includes key "map" then reported outs
  else {| file := key; value := format_default bytes |} :: reported outs.
Proof.
  unfold reported. rewrite filter_cons. cbn [fst].
  destruct (includes key "map"); [by rewrite decide_False | by rewrite decide_True].
Qed.

Lemma reduce_outputs_spec (outs : list (string * N)) (acc : list ResultItem) :
  reduce_outputs outs acc = Ok (acc ++ reported outs).
Proof.
  revert acc. induction outs as [|[key bytes] outs IH]; intros acc;
    cbn [reduce_outputs].
  - by rewrite app_nil_r.
  - rewrite reported_cons. destruct (includes key "map"); [apply IH |].
    unfold format_default.
    destruct (formatBytes_default_ok (Some bytes)) as [v ->].
    by rewrite IH, <- app_assoc.
Qed.

Lemma build_entry_spec (jsEntryPoints : list string) (entry : string)
    (results0 : list ResultItem) (st : State) :
  build_entry isWatch esbuild_build jsEntryPoints entry results0 st =
  match esbuild_build (length (builds st)) (buildOptionsClone isWatch jsEntryPoints entry) with
  | Ok mf =>
      (Ok (results0 ++ reported (outputs mf)),
       set_tree (record_inputs entry (inputs mf)) (after_call isWatch jsEntryPoints entry st))
  | Throw e => (Throw e, after_call isWatch jsEntryPoints entry st)
  end.
Proof.
  unfold build_entry, bind, esbuild_call, modify, lift, ret, after_call.
  destruct (esbuild_build _ _) as [mf | e]; [| done].
  by rewrite reduce_outputs_spec.
Qed.

Lemma writeAssets_one_spec (entry : string) (st : State) :
  writeAssets isWatch esbuild_build [entry] st =
  match esbuild_build (length (builds st)) (buildOptionsClone isWatch [entry] entry) with
  | Ok mf =>
      (Ok {| results := reported (outputs mf) |},
       set_tree (record_inputs entry (inputs mf)) (after_call isWatch [entry] entry st))
  | Throw e => (Throw e, after_call isWatch [entry] entry st)
  end.
Proof.
  unfold writeAssets. cbn [for_entries]. unfold bind at 1 2.
  rewrite build_entry_spec.
  destruct (esbuild_build _ _) as [mf | e]; done.
Qed.


End BuildFacts.

(** ** Invariants of the dependency index *)

Section IndexFacts.

Context (isWatch : bool) (esbuild_build : nat -> BuildOptions -> Result Metafile)
        (JSON_parse : string -> option JSON) (ghost_ls : option string).

Lemma keeps_refl (I : State -> Prop) (st : State) : keeps I st st.
Proof. by intros H. Qed.

Lemma keeps_trans (I : State -> Prop) (a b c : State) :
  keeps I a b -> keeps I b c -> keeps I a c.
Proof. unfold keeps. auto. Qed.

Lemma last_owner_from_app (n : nat) (log : list BuildOptions) (o : BuildOptions)
    (p : string) (acc : option string) :
  last_owner_from esbuild_build n (log ++ [o]) p acc =
  match call_owner esbuild_build (n + length log) o p with
  | Some e => Some e
  | None => last_owner_from esbuild_build n log p acc
  end.
Proof.
  revert n acc. induction log as [|o' log IH]; intros n acc; simpl.
  - by rewrite Nat.add_0_r.
  - rewrite IH. by replace (S n + length log)%nat with (n + S (length log))%nat by lia.
Qed.

Lemma last_owner_app (log : list BuildOptions) (o : BuildOptions) (p : string) :
  last_owner esbuild_build (log ++ [o]) p =
  match call_owner esbuild_build (length log) o p with
  | Some e => Some e
  | None => last_owner esbuild_build log p
  end.
Proof. unfold last_owner. by rewrite last_owner_from_app. Qed.

Lemma call_owner_clone (n : nat) (l : list string) (entry p : string) :
  call_owner esbuild_build n (buildOptionsClone isWatch l entry) p =
  match esbuild_build n (buildOptionsClone isWatch l entry) with
  | Ok mf => if decide (p ∈ inputs mf) then Some entry else None
  | Throw _ => None
  end.
Proof. unfold call_owner. by destruct (esbuild_build _ _). Qed.

(** An owner in the log comes from a call that recorded the path. *)
Lemma last_owner_recorded (log : list BuildOptions) (p : string) :
  is_Some (last_owner esbuild_build log p) -> recorded esbuild_build log p.
Proof.
  induction log as [|o log IH] using rev_ind; [by intros [? [=]] |].
  rewrite last_owner_app.
  destruct (call_owner esbuild_build (length log) o p) as [e|] eqn:Hc.
  - intros _. unfold call_owner in Hc.
    destruct (esbuild_build (length log) o) as [mf|] eqn:Hb; [| done].
    case_decide as Hin; [| done].
    exists (length log), o, mf. split; [| done].
    by rewrite lookup_app_r, Nat.sub_diag.
  - intros (n & o' & mf & Hl & Hb & Hin)%IH.
    exists n, o', mf. split; [| done].
    apply lookup_app_l_Some, Hl.
Qed.

Lemma build_entry_keeps_owner (l : list string) (entry : string) (r : list ResultItem) :
  steps (keeps (owner_is_latest esbuild_build)) (build_entry isWatch esbuild_build l entry r).
Proof.
  intros st Hinv p. rewrite build_entry_spec.
  destruct (esbuild_build _ _) as [mf | e] eqn:Hb; simpl;
    rewrite last_owner_app, call_owner_clone, Hb.
  - rewrite record_inputs_lookup. case_decide; [done | apply Hinv].
  - apply Hinv.
Qed.

Lemma build_entry_keeps_truthy (l : list string) (entry : string) (r : list ResultItem) :
  truthy entry = true ->
  steps (keeps owners_truthy) (build_entry isWatch esbuild_build l entry r).
Proof.
  intros Ht st Hinv p e. rewrite build_entry_spec.
  destruct (esbuild_build _ _) as [mf | e'] eqn:Hb; simpl; [| apply Hinv].
  rewrite record_inputs_lookup. case_decide; [by intros [= <-] | apply Hinv].
Qed.

Lemma build_entry_keeps_has_owner (p : string) (l : list string) (entry : string)
    (r : list ResultItem) :
  steps (keeps (has_owner p)) (build_entry isWatch esbuild_build l entry r).
Proof.
  intros st Hinv. rewrite build_entry_spec. unfold has_owner.
  destruct (esbuild_build _ _) as [mf | e'] eqn:Hb; simpl; [| apply Hinv].
  rewrite record_inputs_lookup. case_decide; [by eexists | apply Hinv].
Qed.

Lemma for_entries_steps (R : State -> State -> Prop)
    (R_refl : forall st, R st st) (R_trans : forall a b c, R a b -> R b c -> R a c)
    (P : string -> Prop) (l todo : list string) (r : list ResultItem) :
  (forall entry r', P entry -> steps R (build_entry isWatch esbuild_build l entry r')) ->
  Forall P todo ->
  steps R (for_entries isWatch esbuild_build l todo r).
Proof.
  intros Hbody Hall. revert r.
  induction Hall as [|entry todo Hentry _ IH]; intros r; cbn [for_entries].
  - by apply steps_ret.
  - apply (steps_bind _ R_trans); [by apply Hbody | intros r'; apply IH].
Qed.

Lemma writeAssets_steps (R : State -> State -> Prop)
    (R_refl : forall st, R st st) (R_trans : forall a b c, R a b -> R b c -> R a c)
    (P : string -> Prop) (l : list string) :
  (forall entry r', P entry -> steps R (build_entry isWatch esbuild_build l entry r')) ->
  Forall P l ->
  steps R (writeAssets isWatch esbuild_build l).
Proof.
  intros Hbody Hall. unfold writeAssets.
  apply (steps_bind _ R_trans); [| intros ?; by apply steps_ret].
  by eapply for_entries_steps.
Qed.

Lemma resolve_truthy (t : gmap string string) (path r : string) :
  resolve t path = Some r -> truthy r = true.
Proof.
  unfold resolve.
  destruct (if negb (index_regex_test path) then t !! path else Some path) as [x|];
    [| done].
  destruct (truthy x) eqn:E; [by intros [= <-] | done].
Qed.

Lemma includes_truthy (s p : string) :
  includes s p = true -> truthy p = true -> truthy s = true.
Proof.
  intros (a & b & ->)%includes_spec Hp.
  destruct a; [destruct p; done | done].
Qed.

Lemma findEntryPoints_truthy (root : string) (exts : list string) (node : fsnode)
    (l : list string) :
  findEntryPoints root exts node = Some l ->
  Forall (fun e => truthy e = true) l.
Proof.
  unfold findEntryPoints.
  destruct (findFilesRecursively root node) as [files|]; [| done].
  intros [= <-]. apply Forall_forall. intros e [He _]%list_elem_of_filter.
  unfold is_entry_point in He. apply andb_true_iff in He as [He _].
  by eapply includes_truthy.
Qed.

End IndexFacts.

(** ** Properties of the index kept by every handler *)

Section Keeps.

Context (isWatch : bool) (esbuild_build : nat -> BuildOptions -> Result Metafile)
        (JSON_parse : string -> option JSON) (ghost_ls : option string).

(** A property that only reads the index and the log of builds... *)
Variable I : State -> Prop.
Hypothesis I_frame :
  forall st st', tree st' = tree st -> builds st' = builds st -> I st -> I st'.
(** ... and that the build of a truthy entry keeps. *)
Hypothesis I_build :
  forall l entry r, truthy entry = true ->
    steps (keeps I) (build_entry isWatch esbuild_build l entry r).

Lemma steps_bind_val {A B} (Q : A -> Prop) (m : M A) (k : A -> M B) :
  steps (keeps I) m ->
  (forall st a, (m st).1 = Ok a -> Q a) ->
  (forall a, Q a -> steps (keeps I) (k a)) ->
  steps (keeps I) (bind m k).
Proof.
  intros Hm HQ Hk st. unfold bind. specialize (Hm st). specialize (HQ st).
  destruct (m st) as [[a|e] st1]; simpl in *; [| done].
  eapply keeps_trans; [exact Hm | by apply Hk, HQ].
Qed.

Lemma modify_keeps (f : State -> State) :
  (forall st, tree (f st) = tree st) ->
  (forall st, builds (f st) = builds st) ->
  steps (keeps I) (modify f).
Proof. intros Ht Hb. apply steps_modify. intros st. unfold keeps. by apply I_frame. Qed.

Ltac keeps_steps :=
  steps_split (keeps_refl I) (keeps_trans I);
  try match goal with
      | |- steps _ (modify _) => apply modify_keeps; intros; reflexivity
      end.

Lemma printHeader_keeps (a b : bool) : steps (keeps I) (printHeader a b).
Proof. unfold printHeader, console_clear, console_log, console_write. keeps_steps. Qed.

Lemma printCompilationDetails_keeps (c : BuildResult) (change : option string) (b : bool) :
  steps (keeps I) (printCompilationDetails c change b).
Proof. unfold printCompilationDetails, console_log, console_write. keeps_steps. Qed.

Lemma broadcast_keeps (msg : string) : steps (keeps I) (broadcast msg).
Proof. unfold broadcast. keeps_steps. Qed.

Ltac keeps_calls :=
  keeps_steps;
  try match goal with
      | |- steps _ (printHeader _ _) => apply printHeader_keeps
      | |- steps _ (printCompilationDetails _ _ _) => apply printCompilationDetails_keeps
      | |- steps _ (broadcast _) => apply broadcast_keeps
      end.

Lemma writeAssets_keeps (l : list string) :
  Forall (fun e => truthy e = true) l ->
  steps (keeps I) (writeAssets isWatch esbuild_build l).
Proof.
  apply (writeAssets_steps _ _ _ (keeps_refl I) (keeps_trans I)).
  intros. by apply I_build.
Qed.

Lemma on_all_keeps (event path : string) :
  steps (keeps I) (on_all isWatch esbuild_build event path).
Proof.
  unfold on_all, console_log. keeps_calls.
  apply writeAssets_keeps. constructor; [| constructor].
  by eapply resolve_truthy.
Qed.

Lemma on_message_keeps (message : string) :
  steps (keeps I) (on_message JSON_parse message).
Proof. unfold on_message. keeps_steps. Qed.

Lemma on_connection_keeps : steps (keeps I) on_connection.
Proof. unfold on_connection. keeps_calls. Qed.

Lemma elapse_keeps (ms : N) : steps (keeps I) (elapse ms).
Proof.
  unfold elapse, on_timeout, console_clear. keeps_calls.
Qed.

Lemma on_readyState_keeps (i : nat) (rs : ReadyState) :
  steps (keeps I) (on_readyState i rs).
Proof. unfold on_readyState. keeps_steps. Qed.

Lemma handle_keeps (ev : Event) :
  steps (keeps I) (handle isWatch esbuild_build JSON_parse ev).
Proof.
  destruct ev; cbn [handle].
  - apply elapse_keeps.
  - apply on_all_keeps.
  - apply on_connection_keeps.
  - apply on_message_keeps.
  - apply on_readyState_keeps.
Qed.

Lemma run_keeps (events : list Event) :
  steps (keeps I) (run isWatch esbuild_build JSON_parse events).
Proof.
  induction events as [|ev events IH]; cbn [run].
  - apply steps_ret, keeps_refl.
  - apply (steps_bind _ (keeps_trans I)); [apply handle_keeps | intros _; apply IH].
Qed.

Lemma initWs_keeps (res : BuildResult) : steps (keeps I) (initWs res).
Proof.
  unfold initWs. keeps_calls.
Qed.

Lemma findEntryPointsM_keeps (root : string) (exts : list string) (node : fsnode) :
  steps (keeps I) (findEntryPointsM root exts node).
Proof. unfold findEntryPointsM, console_write. keeps_steps. Qed.

Lemma findEntryPointsM_value (root : string) (exts : list string) (node : fsnode)
    (st : State) (a : option (list string)) :
  (findEntryPointsM root exts node st).1 = Ok a ->
  a = findEntryPoints root exts node.
Proof.
  unfold findEntryPointsM.
  destruct (findEntryPoints root exts node); by intros [= <-].
Qed.

Lemma spread_value (x : option (list string)) (st : State) (l : list string) :
  (spread x st).1 = Ok l -> x = Some l.
Proof. destruct x; [by intros [= <-] | done]. Qed.

Lemma spread_keeps (x : option (list string)) : steps (keeps I) (spread x).
Proof. unfold spread. keeps_steps. Qed.

Lemma init_keeps (js_dir css_dir : fsnode) :
  steps (keeps I) (init isWatch esbuild_build ghost_ls js_dir css_dir).
Proof.
  unfold init.
  apply (steps_bind_val (fun a => a = findEntryPoints "assets/js" [".ts"; ".js"] js_dir));
    [apply findEntryPointsM_keeps | apply findEntryPointsM_value |].
  intros jsE HjsE.
  apply (steps_bind_val (fun a => a = findEntryPoints "assets/css" [".css"] css_dir));
    [apply findEntryPointsM_keeps | apply findEntryPointsM_value |].
  intros cssE HcssE.
  apply (steps_bind_val (fun l => jsE = Some l));
    [apply spread_keeps | apply spread_value |].
  intros js_list ->.
  apply (steps_bind_val (fun l => cssE = Some l));
    [apply spread_keeps | apply spread_value |].
  intros css_list ->.
  apply (steps_bind _ (keeps_trans I)).
  - apply writeAssets_keeps, Forall_app. split; by eapply findEntryPoints_truthy.
  - intros res. unfold console_log. keeps_calls. apply initWs_keeps.
Qed.

Lemma process_keeps (js_dir css_dir : fsnode) (events : list Event) :
  steps (keeps I)
    (process isWatch esbuild_build JSON_parse ghost_ls js_dir css_dir events).
Proof.
  unfold process.
  apply (steps_bind _ (keeps_trans I)); [apply init_keeps | intros _; apply run_keeps].
Qed.

End Keeps.

Section IndexInvariants.

Context (isWatch : bool) (esbuild_build : nat -> BuildOptions -> Result Metafile)
        (JSON_parse : string -> option JSON) (ghost_ls : option string).

Lemma owner_is_latest_frame (st st' : State) :
  tree st' = tree st -> builds st' = builds st ->
  owner_is_latest esbuild_build st -> owner_is_latest esbuild_build st'.
Proof. unfold owner_is_latest. by intros -> ->. Qed.

Lemma owners_truthy_frame (st st' : State) :
  tree st' = tree st -> builds st' = builds st ->
  owners_truthy st -> owners_truthy st'.
Proof. unfold owners_truthy. by intros -> _. Qed.

Lemma has_owner_frame (p : string) (st st' : State) :
  tree st' = tree st -> builds st' = builds st ->
  has_owner p st -> has_owner p st'.
Proof. unfold has_owner. by intros -> _. Qed.

Lemma initial_owner_is_latest : owner_is_latest esbuild_build initial_state.
Proof. intros p. apply lookup_empty. Qed.

Lemma initial_owners_truthy : owners_truthy initial_state.
Proof. intros p e. simpl. by rewrite lookup_empty. Qed.

(** In every state a process reaches, the index agrees with the log. *)
Lemma process_owner_is_latest (js_dir css_dir : fsnode) (events : list Event) :
  owner_is_latest esbuild_build
    (process isWatch esbuild_build JSON_parse ghost_ls js_dir css_dir events
       initial_state).2.
Proof.
  apply (process_keeps isWatch esbuild_build JSON_parse ghost_ls
           (owner_is_latest esbuild_build) owner_is_latest_frame).
  - intros l entry r _. apply build_entry_keeps_owner.
  - apply initial_owner_is_latest.
Qed.

(** In every state a process reaches, the owners are truthy. *)
Lemma process_owners_truthy (js_dir css_dir : fsnode) (events : list Event) :
  owners_truthy
    (process isWatch esbuild_build JSON_parse ghost_ls js_dir css_dir events
       initial_state).2.
Proof.
  apply (process_keeps isWatch esbuild_build JSON_parse ghost_ls
           owners_truthy owners_truthy_frame).
  - intros l entry r Ht. by apply build_entry_keeps_truthy.
  - apply initial_owners_truthy.
Qed.

Lemma handle_has_owner (ev : Event) (p : string) (st : State) :
  has_owner p st -> has_owner p (handle isWatch esbuild_build JSON_parse ev st).2.
Proof.
  apply (handle_keeps isWatch esbuild_build JSON_parse
           (has_owner p) (has_owner_frame p)).
  intros l entry r _. apply build_entry_keeps_has_owner.
Qed.

Lemma run_has_owner (events : list Event) (p : string) (st : State) :
  has_owner p st -> has_owner p (run isWatch esbuild_build JSON_parse events st).2.
Proof.
  apply (run_keeps isWatch esbuild_build JSON_parse
           (has_owner p) (has_owner_frame p)).
  intros l entry r _. apply build_entry_keeps_has_owner.
Qed.

Lemma resolve_unrecorded (t : gmap string string) (p : string) :
  t !! p = None -> index_regex_test p = false -> resolve t p = None.
Proof. intros Ht Hre. unfold resolve. by rewrite Hre, Ht. Qed.

End IndexInvariants.

(** C1. A successful build of the entry [E] leaves every input the bundler
    reported mapped to [E] in the index, whatever owned it before; and a path
    that is not in the index, or that no build of the process recorded, and
    that does not match the root-entry pattern resolves to nothing. *)
Theorem C1_build_records_inputs_under_entry
    (isWatch : bool) (esbuild_build : nat -> BuildOptions -> Result Metafile)
    (JSON_parse : string -> option JSON) (ghost_ls : option string) :
  (forall (l : list string) (E : string) (r : list ResultItem) (st : State) (mf : Metafile),
      esbuild_build (length (builds st)) (buildOptionsClone isWatch l E) = Ok mf ->
      forall a, a ∈ inputs mf ->
        tree (build_entry isWatch esbuild_build l E r st).2 !! a = Some E) /\
  (forall (E : string) (st : State) (mf : Metafile),
      esbuild_build (length (builds st)) (buildOptionsClone isWatch [E] E) = Ok mf ->
      forall a, a ∈ inputs mf ->
        tree (writeAssets isWatch esbuild_build [E] st).2 !! a = Some E) /\
  (forall (t : gmap string string) (p : string),
      t !! p = None -> index_regex_test p = false -> resolve t p = None) /\
  (forall (js_dir css_dir : fsnode) (events : list Event) (p : string),
      let st := (process isWatch esbuild_build JSON_parse ghost_ls
                   js_dir css_dir events initial_state).2 in
      ~ recorded esbuild_build (builds st) p ->
      index_regex_test p = false ->
      resolve (tree st) p = None).
Proof.
  split; [| split; [| split]].
  - intros l E r st mf Hb a Ha. rewrite build_entry_spec, Hb. simpl.
    rewrite record_inputs_lookup. by rewrite decide_True.
  - intros E st mf Hb a Ha. rewrite writeAssets_one_spec, Hb. simpl.
    rewrite record_inputs_lookup. by rewrite decide_True.
  - apply resolve_unrecorded.
  - intros js_dir css_dir events p st Hnot Hre.
    apply resolve_unrecorded; [| done].
    destruct (tree st !! p) as [e|] eqn:Hp; [| done].
    exfalso. apply Hnot, last_owner_recorded.
    pose proof (process_owner_is_latest isWatch esbuild_build JSON_parse ghost_ls
                  js_dir css_dir events p) as Hinv.
    fold st in Hinv. rewrite <- Hinv, Hp. by eexists.
Qed.

(** C1 on the sample bundler: after the build of "assets/js/index.js" the
    shared module is owned by that entry, and a style no build consumed
    resolves to nothing. *)
Lemma C1_build_records_inputs_witness :
  tree (writeAssets true Sample.bundler ["assets/js/index.js"] initial_state).2
    !! "assets/js/lib/util.js" = Some "assets/js/index.js" /\
  resolve (∅ : gmap string string) "assets/css/ghost.css" = None.
Proof.
  pose proof (C1_build_records_inputs_under_entry true Sample.bundler
                JsonText.JSON_parse (Some "http://localhost:2368"))
    as (_ & Hone & Hunknown & _).
  split.
  - eapply Hone; [reflexivity |]. right. left.
  - apply Hunknown; reflexivity.
Defined.

(** ** The change router *)

Section RouterFacts.

Context (isWatch : bool) (esbuild_build : nat -> BuildOptions -> Result Metafile).

Lemma endsWith_both (s a b : string) :
  endsWith s a = true -> endsWith s b = true ->
  endsWith a b = true \/ endsWith b a = true.
Proof.
  intros [t1 H1]%endsWith_spec [t2 H2]%endsWith_spec. subst s.
  revert t2 H2. induction t1 as [|c t1 IH]; intros t2 H2.
  - simpl in H2. subst a. left. apply endsWith_app.
  - destruct t2 as [|c2 t2].
    + simpl in H2. subst b. right. apply (endsWith_app (String c t1)).
    + simpl in H2. injection H2 as _ H2. by apply IH in H2.
Qed.

Lemma hbs_is_no_script_or_style (path : string) :
  endsWith path ".hbs" = true ->
  endsWith path ".css" || endsWith path ".js" || endsWith path ".ts" = false.
Proof.
  intros Hh.
  destruct (endsWith path ".css") eqn:E1;
    [destruct (endsWith_both _ _ _ Hh E1) as [H | H]; vm_compute in H; discriminate |].
  destruct (endsWith path ".js") eqn:E2;
    [destruct (endsWith_both _ _ _ Hh E2) as [H | H]; vm_compute in H; discriminate |].
  destruct (endsWith path ".ts") eqn:E3;
    [destruct (endsWith_both _ _ _ Hh E3) as [H | H]; vm_compute in H; discriminate |].
  done.
Qed.

Lemma script_or_style_is_no_hbs (path : string) :
  endsWith path ".css" || endsWith path ".js" || endsWith path ".ts" = true ->
  endsWith path ".hbs" = false.
Proof.
  intros Hq. destruct (endsWith path ".hbs") eqn:Hh; [| done].
  by rewrite (hbs_is_no_script_or_style _ Hh) in Hq.
Qed.

Lemma deliver_lookup (msg : string) (cs : list Client) (i : nat) (c : Client) :
  cs !! i = Some c ->
  deliver msg cs !! i =
  Some (if decide (readyState c = OPEN)
        then {| readyState := OPEN; sent := sent c ++ [msg] |}
        else c).
Proof.
  intros Hc. unfold deliver. rewrite list_lookup_fmap, Hc. simpl.
  case_decide as Ho; [by rewrite Ho | done].
Qed.

Lemma deliver_length (msg : string) (cs : list Client) :
  length (deliver msg cs) = length cs.
Proof. apply length_map. Qed.

(** A template change: no build, and the message to the open clients. *)
Lemma on_all_hbs (event path : string) (st : State) :
  endsWith path ".hbs" = true ->
  (on_all isWatch esbuild_build event path st).1 = Ok tt /\
  builds (on_all isWatch esbuild_build event path st).2 = builds st /\
  tree (on_all isWatch esbuild_build event path st).2 = tree st /\
  clients (on_all isWatch esbuild_build event path st).2 =
    deliver ("HBS changed: " +:+ path) (clients st).
Proof.
  intros Hh. unfold on_all. rewrite Hh, (hbs_is_no_script_or_style _ Hh).
  done.
Qed.

(** A script or style change with no entry to rebuild is dropped. *)
Lemma on_all_dropped (event path : string) (st : State) :
  endsWith path ".css" || endsWith path ".js" || endsWith path ".ts" = true ->
  resolve (tree st) path = None ->
  on_all isWatch esbuild_build event path st = (Ok tt, st).
Proof.
  intros Hq Hr. unfold on_all.
  rewrite Hq, (script_or_style_is_no_hbs _ Hq).
  unfold bind, gets, ret. by rewrite Hr.
Qed.


Lemma resolve_root_entry (t : gmap string string) (path : string) :
  index_regex_test path = true -> resolve t path = Some path.
Proof.
  intros Hre. unfold resolve. rewrite Hre. simpl.
  rewrite index_regex_test_endsWith in Hre.
  assert (truthy path = true) as ->; [| done].
  apply orb_true_iff in Hre as [Hre | Hre]; [apply orb_true_iff in Hre as [Hre | Hre] |];
    by eapply endsWith_truthy.
Qed.


End RouterFacts.

(** C6. A change of a path that ends in ".hbs" calls the bundler not once and
    leaves the index alone; every client whose socket is open is sent exactly
    "HBS changed: " followed by the path, and the other clients nothing. *)
Theorem C6_template_change_reloads_without_build
    (isWatch : bool) (esbuild_build : nat -> BuildOptions -> Result Metafile)
    (event path : string) (st : State) :
  endsWith path ".hbs" = true ->
  let r := on_all isWatch esbuild_build event path st in
  r.1 = Ok tt /\
  builds r.2 = builds st /\
  tree r.2 = tree st /\
  length (clients r.2) = length (clients st) /\
  forall i c, clients st !! i = Some c ->
    clients r.2 !! i =
    Some (if decide (readyState c = OPEN)
          then {| readyState := OPEN; sent := sent c ++ ["HBS changed: " +:+ path] |}
          else c).
Proof.
  intros Hh r.
  destruct (on_all_hbs isWatch esbuild_build event path st Hh) as (H1 & H2 & H3 & H4).
  subst r. rewrite H4.
  repeat split; try done.
  - apply deliver_length.
  - intros i c. apply deliver_lookup.
Qed.

(** C6 on a change of "post.hbs" with one open client and one closing. *)
Lemma C6_template_change_witness :
  builds (on_all true Sample.bundler "change" "post.hbs" Sample.two_clients).2 = [] /\
  clients (on_all true Sample.bundler "change" "post.hbs" Sample.two_clients).2 !! 0%nat =
    Some {| readyState := OPEN; sent := ["HBS changed: post.hbs"] |} /\
  clients (on_all true Sample.bundler "change" "post.hbs" Sample.two_clients).2 !! 1%nat =
    Some {| readyState := CLOSING; sent := [] |}.
Proof.
  pose proof (C6_template_change_reloads_without_build true Sample.bundler
                "change" "post.hbs" Sample.two_clients eq_refl)
    as (_ & Hb & _ & _ & Hc).
  split; [exact Hb |].
  split; [exact (Hc 0%nat _ eq_refl) | exact (Hc 1%nat _ eq_refl)].
Defined.





(** C10. The router takes a changed script or style as its own entry exactly
    when the path ends with "index.css", "index.js" or "index.ts"; any other
    path is looked up in the index, and dropped when it has no owner there;
    every path the router takes as an entry passes the test of discovery,
    while "assets/js/index-helpers.js" passes the test of discovery, is
    returned by it, and is not an entry for the router. *)
Theorem C10_router_root_entry_narrower_than_discovery :
  (forall path,
      index_regex_test path = true <->
      endsWith path "index.css" = true \/ endsWith path "index.js" = true \/
      endsWith path "index.ts" = true) /\
  (forall (t : gmap string string) path,
      index_regex_test path = true -> resolve t path = Some path) /\
  (forall (t : gmap string string) path,
      index_regex_test path = false ->
      resolve t path =
      match t !! path with
      | Some r => if truthy r then Some r else None
      | None => None
      end) /\
  (forall (isWatch : bool) (esbuild_build : nat -> BuildOptions -> Result Metafile)
          (event path : string) (st : State),
      endsWith path ".css" || endsWith path ".js" || endsWith path ".ts" = true ->
      index_regex_test path = false ->
      tree st !! path = None ->
      on_all isWatch esbuild_build event path st = (Ok tt, st)) /\
  (forall path,
      index_regex_test path = true ->
      is_entry_point [".ts"; ".js"] path = true \/ is_entry_point [".css"] path = true) /\
  (is_entry_point [".ts"; ".js"] "assets/js/index-helpers.js" = true /\
   findEntryPoints "assets/js" [".ts"; ".js"] Sample2.helpers_dir =
     Some ["assets/js/index-helpers.js"] /\
   index_regex_test "assets/js/index-helpers.js" = false /\
   resolve (∅ : gmap string string) "assets/js/index-helpers.js" = None).
Proof.
  split; [| split; [| split; [| split; [| split]]]].
  - intros path. rewrite index_regex_test_endsWith, !orb_true_iff. tauto.
  - apply resolve_root_entry.
  - intros t path Hre. unfold resolve. by rewrite Hre.
  - intros isWatch esbuild_build event path st Hq Hre Hnone.
    apply on_all_dropped; [done |]. by apply resolve_unrecorded.
  - intros path Hre. rewrite index_regex_test_endsWith in Hre.
    unfold is_entry_point, some_endsWith. cbn [existsb].
    apply orb_true_iff in Hre as [Hre | Hre];
      [apply orb_true_iff in Hre as [Hre | Hre] |].
    + right. rewrite (endsWith_includes _ _ "index" Hre eq_refl).
      by rewrite (endsWith_trans _ _ ".css" Hre eq_refl).
    + left. rewrite (endsWith_includes _ _ "index" Hre eq_refl).
      rewrite (endsWith_trans _ _ ".js" Hre eq_refl). by rewrite orb_true_r.
    + left. rewrite (endsWith_includes _ _ "index" Hre eq_refl).
      by rewrite (endsWith_trans _ _ ".ts" Hre eq_refl).
  - repeat split; reflexivity.
Qed.

(** C10 on the primary script and on a helper next to it. *)
Lemma C10_router_root_entry_witness :
  resolve (∅ : gmap string string) "assets/js/index.js" = Some "assets/js/index.js" /\
  (is_entry_point [".ts"; ".js"] "assets/js/index.js" = true \/
   is_entry_point [".css"] "assets/js/index.js" = true) /\
  on_all true Sample.bundler "change" "assets/js/index-helpers.js" Sample.two_clients =
    (Ok tt, Sample.two_clients).
Proof.
  pose proof C10_router_root_entry_narrower_than_discovery
    as (_ & Hroot & _ & Hdrop & Hnarrow & _).
  split; [apply Hroot; reflexivity |].
  split; [apply Hnarrow; reflexivity |].
  apply Hdrop; reflexivity.
Defined.

(** ** Size reports *)

Section ReportFacts.

Lemma source_map_includes_map (key : string) :
  is_source_map key = true -> includes key "map" = true.
Proof. intros H. by apply (endsWith_includes key ".map" "map" H). Qed.

Lemma reported_spec (outs : list (string * N)) (item : ResultItem) :
  item ∈ reported outs <->
  exists key bytes,
    (key, bytes) ∈ outs /\ includes key "map" = false /\
    item = {| file := key; value := format_default bytes |}.
Proof.
  unfold reported. rewrite list_elem_of_fmap. split.
  - intros [[key bytes] [-> [Hf Hin]%list_elem_of_filter]].
    by exists key, bytes.
  - intros (key & bytes & Hin & Hf & ->).
    exists (key, bytes). split; [done |]. by apply list_elem_of_filter.
Qed.

End ReportFacts.

(** C5: what the code reports, and where it departs from the claim. The
    result of a build holds one pair for each output whose path does not
    include "map", in order, with the size formatted by [formatBytes]; no
    source-map file is among them. But a path that includes "map" anywhere is
    left out as well: for the entry "assets/js/map/index.js" the bundler
    writes "assets/built/js/map/index.js", which is no source map, and the
    result is empty. *)
Theorem C5_outputs_with_map_in_path_are_left_out
    (isWatch : bool) (esbuild_build : nat -> BuildOptions -> Result Metafile) :
  (forall (E : string) (st : State) (mf : Metafile),
      esbuild_build (length (builds st)) (buildOptionsClone isWatch [E] E) = Ok mf ->
      (writeAssets isWatch esbuild_build [E] st).1 =
        Ok {| results := reported (outputs mf) |} /\
      (forall key bytes,
          (key, bytes) ∈ outputs mf -> includes key "map" = false ->
          {| file := key; value := format_default bytes |} ∈ reported (outputs mf)) /\
      (forall item,
          item ∈ reported (outputs mf) ->
          is_source_map (file item) = false /\
          exists bytes, (file item, bytes) ∈ outputs mf /\
                        value item = format_default bytes)) /\
  Sample.bundler 0 (buildOptionsClone false ["assets/js/map/index.js"]
                      "assets/js/map/index.js") =
    Ok {| inputs := ["assets/js/map/index.js"; "assets/js/lib/util.js"];
          outputs := [("assets/built/js/map/index.js", 1536);
                      ("assets/built/js/map/index.js.map", 4096)] |} /\
  is_source_map "assets/built/js/map/index.js" = false /\
  (writeAssets false Sample.bundler ["assets/js/map/index.js"] initial_state).1 =
    Ok {| results := [] |}.
Proof.
  split; [| repeat split; reflexivity].
  intros E st mf Hb. split; [| split].
  - by rewrite writeAssets_one_spec, Hb.
  - intros key bytes Hin Hf. apply reported_spec. by exists key, bytes.
  - intros item (key & bytes & Hin & Hf & ->)%reported_spec. simpl. split.
    + destruct (is_source_map key) eqn:Hs; [| done].
      by rewrite (source_map_includes_map _ Hs) in Hf.
    + by exists bytes.
Qed.

(** C5 on the primary script: the artifact is reported with its size, its
    source map is not. *)
Lemma C5_outputs_witness :
  (writeAssets true Sample.bundler ["assets/js/index.js"] initial_state).1 =
    Ok {| results := reported [("assets/built/js/index.js", 1536);
                               ("assets/built/js/index.js.map", 4096)] |} /\
  {| file := "assets/built/js/index.js"; value := format_default 1536 |} ∈
    reported [("assets/built/js/index.js", 1536);
              ("assets/built/js/index.js.map", 4096)].
Proof.
  pose proof (C5_outputs_with_map_in_path_are_left_out true Sample.bundler) as [H _].
  destruct (H "assets/js/index.js" initial_state _ eq_refl) as (Hres & Hin & _).
  split; [exact Hres |].
  apply Hin; [left | reflexivity].
Defined.

(** ** Client messages *)

Section MessageFacts.

Context (JSON_parse : string -> option JSON).

Lemma get_property_object (v : JSON) (key : string) :
  v <> JNull -> get_property v key = Ok (property v key).
Proof. by destruct v. Qed.

Lemma on_message_value (message : string) (v : JSON) (st : State) :
  JSON_parse message = Some v -> v <> JNull ->
  on_message JSON_parse message st =
  (Ok tt, set_siteData (Some (session_of v)) st).
Proof.
  intros Hp Hv. unfold on_message. rewrite Hp.
  unfold bind, lift. by rewrite !get_property_object.
Qed.

Lemma on_message_null (message : string) (st : State) :
  JSON_parse message = Some JNull ->
  on_message JSON_parse message st = (Throw TypeError, st).
Proof. intros Hp. unfold on_message. by rewrite Hp. Qed.

Lemma on_message_malformed (message : string) (st : State) :
  JSON_parse message = None ->
  on_message JSON_parse message st = (Throw SyntaxError, st).
Proof. intros Hp. unfold on_message. by rewrite Hp. Qed.

End MessageFacts.

(** C8, as the code has it. A message that parses to a value other than
    [null] replaces [siteData] with the [url], [title] and [version] of that
    value, whatever [siteData] was, so of two such messages the last one
    wins; a message that is not valid JSON makes the handler throw the
    SyntaxError, and one that parses to [null] a TypeError, in both cases
    with [siteData] as it was. *)
Theorem C8_message_replaces_site_data_or_throws
    (JSON_parse : string -> option JSON) :
  (forall (message : string) (v : JSON) (st : State),
      JSON_parse message = Some v -> v <> JNull ->
      on_message JSON_parse message st = (Ok tt, set_siteData (Some (session_of v)) st) /\
      siteData (on_message JSON_parse message st).2 = Some (session_of v)) /\
  (forall (m1 m2 : string) (v1 v2 : JSON) (st : State),
      JSON_parse m1 = Some v1 -> v1 <> JNull ->
      JSON_parse m2 = Some v2 -> v2 <> JNull ->
      siteData (on_message JSON_parse m2 (on_message JSON_parse m1 st).2).2 =
        Some (session_of v2)) /\
  (forall (message : string) (st : State),
      JSON_parse message = None ->
      on_message JSON_parse message st = (Throw SyntaxError, st)) /\
  (forall (message : string) (st : State),
      JSON_parse message = Some JNull ->
      on_message JSON_parse message st = (Throw TypeError, st)).
Proof.
  split; [| split; [| split]].
  - intros message v st Hp Hv. by rewrite (on_message_value _ _ _ _ Hp Hv).
  - intros m1 m2 v1 v2 st H1 Hv1 H2 Hv2.
    by rewrite (on_message_value _ _ _ _ H2 Hv2).
  - apply on_message_malformed.
  - apply on_message_null.
Qed.

(** C8 on the message a page sends, on a text cut short and on "null". *)
Lemma C8_message_witness :
  siteData (on_message JsonText.JSON_parse Sample.site_message initial_state).2 =
    Some {| sd_url := Some (JString "http://localhost:2368/");
            sd_title := Some (JString "Ghost");
            sd_version := Some (JString "Ghost 5.82") |} /\
  siteData (on_message JsonText.JSON_parse Sample.site_message
              (on_message JsonText.JSON_parse "[1, 2]" initial_state).2).2 =
    Some {| sd_url := Some (JString "http://localhost:2368/");
            sd_title := Some (JString "Ghost");
            sd_version := Some (JString "Ghost 5.82") |} /\
  on_message JsonText.JSON_parse "{" initial_state = (Throw SyntaxError, initial_state) /\
  on_message JsonText.JSON_parse "null" initial_state = (Throw TypeError, initial_state).
Proof.
  pose proof (C8_message_replaces_site_data_or_throws JsonText.JSON_parse)
    as (Hvalue & Hlast & Hbad & Hnull).
  split; [| split; [| split]].
  - apply (Hvalue Sample.site_message
             (JObject [("url", JString "http://localhost:2368/");
                       ("title", JString "Ghost");
                       ("version", JString "Ghost 5.82")]));
      [reflexivity | discriminate].
  - apply (Hlast "[1, 2]" Sample.site_message
             (JArray [JNumber 1 0; JNumber 2 0])
             (JObject [("url", JString "http://localhost:2368/");
                       ("title", JString "Ghost");
                       ("version", JString "Ghost 5.82")]));
      [reflexivity | discriminate | reflexivity | discriminate].
  - apply Hbad. reflexivity.
  - apply Hnull. reflexivity.
Defined.

(** C8 as stated does not hold: the text "null" parses as JSON, and the
    handler throws instead of replacing [siteData]. *)
Lemma C8_counterexample_null_parses_but_throws :
  ~ (forall (message : string) (v : JSON) (st : State),
        JsonText.JSON_parse message = Some v ->
        exists d, on_message JsonText.JSON_parse message st =
                  (Ok tt, set_siteData (Some d) st)).
Proof.
  intros H.
  destruct (H "null" JNull initial_state eq_refl) as [d Hd].
  discriminate Hd.
Qed.

(** ** The connection timer *)

Section QuietFacts.

Context (isWatch : bool) (esbuild_build : nat -> BuildOptions -> Result Metafile)
        (JSON_parse : string -> option JSON) (ghost_ls : option string).

Lemma never_no_connection_nil : never_no_connection [].
Proof. intros u. apply not_elem_of_nil. Qed.

Lemma never_no_connection_app (a b : list ConsoleOp) :
  never_no_connection (a ++ b) <-> never_no_connection a /\ never_no_connection b.
Proof.
  unfold never_no_connection. split.
  - intros H. split; intros u Hin; apply (H u), elem_of_app; auto.
  - intros [Ha Hb] u [Hin | Hin]%elem_of_app; [by apply (Ha u) | by apply (Hb u)].
Qed.

Lemma never_no_connection_one (op : ConsoleOp) :
  (forall u, op <> no_connection_line u) -> never_no_connection [op].
Proof. intros H u Hin%list_elem_of_singleton. by apply (H u). Qed.

Lemma console_grows_quietly_refl (st : State) : console_grows_quietly st st.
Proof. exists []. split; [by rewrite app_nil_r | apply never_no_connection_nil]. Qed.

Lemma console_grows_quietly_trans (a b c : State) :
  console_grows_quietly a b -> console_grows_quietly b c -> console_grows_quietly a c.
Proof.
  intros (o1 & H1 & Hq1) (o2 & H2 & Hq2). exists (o1 ++ o2). split.
  - by rewrite H2, H1, app_assoc.
  - by apply never_no_connection_app.
Qed.

Lemma quiet_step_refl (st : State) : quiet_step st st.
Proof. repeat split. apply console_grows_quietly_refl. Qed.

Lemma quiet_step_trans (a b c : State) :
  quiet_step a b -> quiet_step b c -> quiet_step a c.
Proof.
  intros (U1 & I1 & C1 & G1) (U2 & I2 & C2 & G2).
  repeat split; try congruence. by eapply console_grows_quietly_trans.
Qed.

Lemma quiet_start_refl (st : State) : quiet_start st st.
Proof. split; [done | apply console_grows_quietly_refl]. Qed.

Lemma quiet_start_trans (a b c : State) :
  quiet_start a b -> quiet_start b c -> quiet_start a c.
Proof.
  intros (C1 & G1) (C2 & G2).
  split; [congruence | by eapply console_grows_quietly_trans].
Qed.

Lemma steps_weaken (R R' : State -> State -> Prop) {A} (m : M A) :
  (forall st st', R st st' -> R' st st') -> steps R m -> steps R' m.
Proof. intros HR Hm st. apply HR, Hm. Qed.

Lemma quiet_step_start (st st' : State) : quiet_step st st' -> quiet_start st st'.
Proof. by intros (_ & _ & ? & ?). Qed.

(** A change of the state that leaves the address, the timer, the clock and
    the console alone. *)
Lemma quiet_modify (f : State -> State) :
  (forall st, url (f st) = url st) -> (forall st, int (f st) = int st) ->
  (forall st, clock (f st) = clock st) -> (forall st, console (f st) = console st) ->
  steps quiet_step (modify f).
Proof.
  intros Hu Hi Hc Ho. apply steps_modify. intros st.
  repeat split; try done. exists []. split; [by rewrite app_nil_r, Ho |].
  apply never_no_connection_nil.
Qed.

Lemma quiet_console_append (ops : list ConsoleOp) :
  never_no_connection ops ->
  steps quiet_step (modify (set_console (fun c => c ++ ops))).
Proof.
  intros Hq. apply steps_modify. intros st. repeat split. by exists ops.
Qed.

Lemma quiet_console_write (op : ConsoleOp) :
  (forall u, op <> no_connection_line u) -> steps quiet_step (console_write op).
Proof. intros H. by apply quiet_console_append, never_no_connection_one. Qed.

Lemma quiet_console_log (line : string) :
  (forall u, ConsoleLog line <> no_connection_line u) ->
  steps quiet_step (console_log line).
Proof. apply quiet_console_write. Qed.

Lemma quiet_console_clear : steps quiet_step console_clear.
Proof. by apply quiet_console_write. Qed.

Lemma header_line_quiet (b : bool) (u : option string) (d : option SiteData) :
  forall u', header_line false b u d <> no_connection_line u'.
Proof.
  intros u'. unfold header_line, no_connection_line.
  destruct b; [simpl; discriminate |].
  destruct (js_truthy _); simpl; discriminate.
Qed.

Lemma printHeader_quiet (b : bool) : steps quiet_step (printHeader false b).
Proof.
  unfold printHeader.
  steps_split quiet_step_refl quiet_step_trans.
  - apply quiet_console_clear.
  - apply quiet_console_log. intros u. unfold no_connection_line. simpl. discriminate.
  - apply quiet_console_write, header_line_quiet.
  - apply quiet_console_log. intros u. unfold no_connection_line. simpl. discriminate.
Qed.

Lemma printCompilationDetails_quiet (content : BuildResult) (change : option string)
    (firstTime : bool) :
  steps quiet_step (printCompilationDetails content change firstTime).
Proof.
  unfold printCompilationDetails.
  steps_split quiet_step_refl quiet_step_trans;
    try (apply quiet_console_log; intros u; unfold no_connection_line; simpl; discriminate);
    try (by apply quiet_console_write).
  all: apply quiet_console_append; intros u [r [Hr _]]%list_elem_of_fmap;
    unfold no_connection_line in Hr; simpl in Hr; discriminate Hr.
Qed.

Lemma broadcast_quiet (msg : string) : steps quiet_step (broadcast msg).
Proof. unfold broadcast. by apply quiet_modify. Qed.

Lemma build_entry_quiet (l : list string) (entry : string) (r : list ResultItem) :
  steps quiet_step (build_entry isWatch esbuild_build l entry r).
Proof.
  intros st. rewrite build_entry_spec.
  destruct (esbuild_build _ _);
    (split; [done | split; [done | split; [done |]]]);
    exists []; (split; [simpl; by rewrite app_nil_r | apply never_no_connection_nil]).
Qed.

Lemma writeAssets_quiet (l : list string) :
  steps quiet_step (writeAssets isWatch esbuild_build l).
Proof.
  apply (writeAssets_steps _ _ _ quiet_step_refl quiet_step_trans (fun _ => True)).
  - intros. apply build_entry_quiet.
  - by apply Forall_forall.
Qed.

Ltac quiet_calls :=
  steps_split quiet_step_refl quiet_step_trans;
  try match goal with
      | |- steps _ (printHeader false _) => apply printHeader_quiet
      | |- steps _ (printCompilationDetails _ _ _) => apply printCompilationDetails_quiet
      | |- steps _ (broadcast _) => apply broadcast_quiet
      | |- steps _ (writeAssets _ _ _) => apply writeAssets_quiet
      | |- steps _ (modify _) => by apply quiet_modify
      end.

Lemma on_all_quiet (event path : string) :
  steps quiet_step (on_all isWatch esbuild_build event path).
Proof.
  unfold on_all. quiet_calls.
  apply quiet_console_log. intros u. unfold no_connection_line. simpl. discriminate.
Qed.

Lemma on_message_quiet (message : string) :
  steps quiet_step (on_message JSON_parse message).
Proof. unfold on_message. quiet_calls. Qed.

Lemma on_readyState_quiet (i : nat) (rs : ReadyState) :
  steps quiet_step (on_readyState i rs).
Proof. unfold on_readyState. quiet_calls. Qed.

End QuietFacts.

Section TimerFacts.

Context (isWatch : bool) (esbuild_build : nat -> BuildOptions -> Result Metafile)
        (JSON_parse : string -> option JSON) (ghost_ls : option string).

(** A connection cancels the timer and prints no "no connection" status. *)
Lemma on_connection_cancels (st : State) :
  (on_connection st).1 = Ok tt /\
  int (on_connection st).2 = None /\
  url (on_connection st).2 = url st /\
  clock (on_connection st).2 = clock st /\
  console_grows_quietly st (on_connection st).2.
Proof.
  assert (steps quiet_start on_connection) as Hq.
  { unfold on_connection.
    steps_split quiet_start_refl quiet_start_trans;
      try (apply steps_modify; intros s; split; [done |];
           exists []; split; [simpl; by rewrite app_nil_r | apply never_no_connection_nil]).
    apply (steps_weaken quiet_step), printHeader_quiet. apply quiet_step_start. }
  split; [| split; [| split; [| split]]]; [| | | | exact (proj2 (Hq st))];
    unfold on_connection, bind, modify, gets, ret; simpl;
    destruct (firstConnection st); reflexivity.
Qed.

(** Time passes with no timer pending, or with a timer that is not yet due:
    only the clock moves. *)
Lemma elapse_idle (ms : N) (st : State) :
  (int st = None \/ exists due, int st = Some due /\ clock st + ms < due) ->
  elapse ms st = (Ok tt, set_clock (clock st + ms) st).
Proof.
  intros H. unfold elapse, bind, modify, gets, ret. simpl.
  destruct H as [-> | (due & -> & Hlt)]; [done |].
  destruct (N.leb_spec due (clock st + ms)); [lia | done].
Qed.

(** Time passes and the timer comes due: it runs once and shows the status. *)
Lemma elapse_fires (ms due : N) (st : State) :
  int st = Some due -> due <= clock st + ms ->
  (elapse ms st).1 = Ok tt /\
  int (elapse ms st).2 = None /\
  url (elapse ms st).2 = url st /\
  clock (elapse ms st).2 = clock st + ms /\
  no_connection_line (url st) ∈ console (elapse ms st).2.
Proof.
  intros Hi Hdue. unfold elapse, bind, modify, gets, ret. simpl. rewrite Hi.
  destruct (N.leb_spec due (clock st + ms)); [| lia].
  simpl. split; [done | split; [done | split; [done | split; [done |]]]].
  apply elem_of_app. left. apply elem_of_app. right.
  by apply list_elem_of_singleton.
Qed.

(** Whatever the timer, time passing moves the clock, keeps the address and
    keeps what the console shows. *)
Lemma elapse_grows (ms : N) (st : State) :
  url (elapse ms st).2 = url st /\
  clock (elapse ms st).2 = clock st + ms /\
  exists ops, console (elapse ms st).2 = console st ++ ops.
Proof.
  unfold elapse, bind, modify, gets, ret. simpl.
  destruct (int st) as [due|]; simpl; [| repeat split; exists []; by rewrite app_nil_r].
  destruct (due <=? clock st + ms); simpl.
  - repeat split. eexists. by rewrite <- !app_assoc.
  - repeat split. exists []. by rewrite app_nil_r.
Qed.

Lemma handle_quiet (ev : Event) :
  ev <> WsConnection -> (forall ms, ev <> Elapse ms) ->
  steps quiet_step (handle isWatch esbuild_build JSON_parse ev).
Proof.
  intros Hc He. destruct ev; cbn [handle].
  - by destruct (He ms).
  - apply on_all_quiet.
  - done.
  - apply on_message_quiet.
  - apply on_readyState_quiet.
Qed.

(** With no connection, the timer stays pending until it is due, and once
    it is due the status is on the console. *)
Lemma handle_pending_or_shown (due : N) (ev : Event) (st : State) :
  ev <> WsConnection ->
  pending_or_shown due st ->
  pending_or_shown due (handle isWatch esbuild_build JSON_parse ev st).2.
Proof.
  intros Hc Hinv.
  assert (Hquiet : (forall ms, ev <> Elapse ms) ->
            pending_or_shown due (handle isWatch esbuild_build JSON_parse ev st).2).
  { intros He.
    destruct (handle_quiet ev Hc He st) as (Hu & Hi & Hck & ops & Ho & _).
    destruct Hinv as [[Hi' Hlt] | Hshown].
    - left. by rewrite Hi, Hck.
    - right. rewrite Hu, Ho. apply elem_of_app. by left. }
  destruct ev as [ms | event path | | message | i rs];
    [| by apply Hquiet | done | by apply Hquiet | by apply Hquiet].
  cbn [handle]. destruct (elapse_grows ms st) as (Hu & Hck & ops & Ho).
  destruct Hinv as [[Hi Hlt] | Hshown].
  - destruct (N.lt_ge_cases (clock st + ms) due) as [Hlt' | Hge].
    + left. rewrite elapse_idle; [| right; by exists due].
      split; [exact Hi | simpl; lia].
    + right. destruct (elapse_fires ms due st Hi Hge) as (_ & _ & Hu' & _ & Hin).
      by rewrite Hu'.
  - right. rewrite Hu, Ho. apply elem_of_app. by left.
Qed.

Lemma run_pending_or_shown (due : N) (events : list Event) (st : State) :
  WsConnection ∉ events ->
  pending_or_shown due st ->
  pending_or_shown due (run isWatch esbuild_build JSON_parse events st).2.
Proof.
  revert st. induction events as [|ev events IH]; intros st Hnc Hinv; [done |].
  apply not_elem_of_cons in Hnc as [Hne Hnc].
  cbn [run]. unfold bind.
  pose proof (handle_pending_or_shown due ev st ltac:(done) Hinv) as Hstep.
  destruct (handle isWatch esbuild_build JSON_parse ev st) as [[[]|e] st1]; simpl in *.
  - by apply IH.
  - done.
Qed.

Lemma not_shown_within_weaken (b b' : N) (st : State) :
  b' <= b -> not_shown_within b st -> not_shown_within b' st.
Proof.
  intros Hle [Hn [Hi | (due & Hi & Hlt)]]; split; try done; [by left |].
  right. exists due. split; [done | lia].
Qed.

Lemma never_grows_quietly (st st' : State) :
  never_no_connection (console st) -> console_grows_quietly st st' ->
  never_no_connection (console st').
Proof.
  intros Hn (ops & -> & Hq). by apply never_no_connection_app.
Qed.

(** A handler leaves the status unshown as long as the time it takes stays
    within the budget of the timer. *)
Lemma handle_not_shown_within (ev : Event) (rest : list Event) (st : State) :
  not_shown_within (elapsed (ev :: rest)) st ->
  not_shown_within (elapsed rest) (handle isWatch esbuild_build JSON_parse ev st).2.
Proof.
  intros [Hn Ht].
  assert (Hquiet : ev <> WsConnection -> (forall ms, ev <> Elapse ms) ->
            elapsed (ev :: rest) = elapsed rest ->
            not_shown_within (elapsed rest)
              (handle isWatch esbuild_build JSON_parse ev st).2).
  { intros Hc He Hel. rewrite Hel in Ht.
    destruct (handle_quiet ev Hc He st) as (Hu & Hi & Hck & Hg).
    split; [by eapply never_grows_quietly |]. by rewrite Hi, Hck. }
  destruct ev as [ms | event path | | message | i rs];
    [| by apply Hquiet | | by apply Hquiet | by apply Hquiet]; cbn [handle].
  - cbn [elapsed] in Ht. rewrite elapse_idle.
    + split; [exact Hn |]. simpl.
      destruct Ht as [Hi | (due & Hi & Hlt)]; [by left |].
      right. exists due. split; [done | lia].
    + destruct Ht as [Hi | (due & Hi & Hlt)]; [by left |].
      right. exists due. split; [done | lia].
  - destruct (on_connection_cancels st) as (_ & Hi & _ & _ & Hg).
    split; [by eapply never_grows_quietly | by left].
Qed.

Lemma handle_keeps_cancelled (ev : Event) (st : State) :
  int st = None -> int (handle isWatch esbuild_build JSON_parse ev st).2 = None.
Proof.
  intros Hi.
  destruct ev as [ms | event path | | message | i rs]; cbn [handle].
  - rewrite elapse_idle; [done | by left].
  - destruct (on_all_quiet isWatch esbuild_build event path st) as (_ & -> & _); done.
  - apply on_connection_cancels.
  - destruct (on_message_quiet JSON_parse message st) as (_ & -> & _); done.
  - destruct (on_readyState_quiet i rs st) as (_ & -> & _); done.
Qed.

Lemma run_not_shown_within (events : list Event) (st : State) :
  not_shown_within (elapsed events) st ->
  not_shown_within 0 (run isWatch esbuild_build JSON_parse events st).2.
Proof.
  revert st. induction events as [|ev events IH]; intros st Hinv; [done |].
  apply handle_not_shown_within in Hinv.
  cbn [run]. unfold bind.
  destruct (handle isWatch esbuild_build JSON_parse ev st) as [[[]|e] st1]; simpl in *.
  - by apply IH.
  - eapply not_shown_within_weaken; [| exact Hinv]. lia.
Qed.

Lemma run_never_shown_cancelled (events : list Event) (st : State) :
  never_shown_cancelled st ->
  never_shown_cancelled (run isWatch esbuild_build JSON_parse events st).2.
Proof.
  revert st. induction events as [|ev events IH]; intros st [Hn Hi]; [done |].
  assert (never_shown_cancelled (handle isWatch esbuild_build JSON_parse ev st).2) as Hstep.
  { split; [| by apply handle_keeps_cancelled].
    apply (handle_not_shown_within ev []). split; [done | by left]. }
  cbn [run]. unfold bind.
  destruct (handle isWatch esbuild_build JSON_parse ev st) as [[[]|e] st1]; simpl in *.
  - by apply IH.
  - done.
Qed.

Lemma run_app (l1 l2 : list Event) (st : State) :
  run isWatch esbuild_build JSON_parse (l1 ++ l2) st =
  match run isWatch esbuild_build JSON_parse l1 st with
  | (Ok _, st1) => run isWatch esbuild_build JSON_parse l2 st1
  | (Throw e, st1) => (Throw e, st1)
  end.
Proof.
  revert st. induction l1 as [|ev l1 IH]; intros st; [done |].
  cbn [app run]. unfold bind.
  destruct (handle isWatch esbuild_build JSON_parse ev st) as [[[]|e] st1]; [apply IH | done].
Qed.

(** *** Start-up *)

Lemma returns_in_bind (Q : State -> Prop) {A B} (m : M A) (k : A -> M B) :
  (forall a, returns_in Q (k a)) -> returns_in Q (bind m k).
Proof.
  intros Hk st b st' H. unfold bind in H.
  destruct (m st) as [[a|e] st1]; [by eapply Hk | done].
Qed.

Lemma returns_in_throw (Q : State -> Prop) {A} (e : Error) : returns_in Q (@throw A e).
Proof. by intros st a st' H. Qed.

(** When [init] returns, it has set the timer to run after the grace
    period. *)
Lemma init_sets_timer (js_dir css_dir : fsnode) :
  returns_in (fun st' => int st' = Some (clock st' + grace_period))
    (init isWatch esbuild_build ghost_ls js_dir css_dir).
Proof.
  unfold init. do 5 (apply returns_in_bind; intros ?).
  destruct isWatch.
  - destruct ghost_ls as [u|]; [| apply returns_in_throw].
    intros st r st' H.
    unfold initWs, bind, modify, gets, ret in H. simpl in H.
    by injection H as _ <-.
  - do 2 (apply returns_in_bind; intros ?). apply returns_in_throw.
Qed.

Lemma init_quiet_start (js_dir css_dir : fsnode) :
  steps quiet_start (init isWatch esbuild_build ghost_ls js_dir css_dir).
Proof.
  assert (Hmod : forall f : State -> State,
            (forall st, clock (f st) = clock st) ->
            (forall st, console (f st) = console st) ->
            steps quiet_start (modify f)).
  { intros f Hc Ho. apply steps_modify. intros st. split; [done |].
    exists []. split; [by rewrite app_nil_r, Ho | apply never_no_connection_nil]. }
  assert (Hweak : forall A (m : M A), steps quiet_step m -> steps quiet_start m).
  { intros A m. apply steps_weaken, quiet_step_start. }
  unfold init, findEntryPointsM, spread, initWs.
  steps_split quiet_start_refl quiet_start_trans;
    try match goal with
        | |- steps _ (printHeader false _) => apply Hweak, printHeader_quiet
        | |- steps _ (printCompilationDetails _ _ _) =>
            apply Hweak, printCompilationDetails_quiet
        | |- steps _ (writeAssets _ _ _) => apply Hweak, writeAssets_quiet
        | |- steps _ (console_write ConsoleError) =>
            by apply Hweak, quiet_console_write
        | |- steps _ (modify _) => by apply Hmod
        end.
  apply Hweak, quiet_console_log. intros u. unfold no_connection_line. simpl. discriminate.
Qed.

End TimerFacts.

(** C9. In a process that handles no connection and whose clock reaches the
    grace period of 5000 ms, the "no connection" status is on the console; a
    connection cancels the timer; and in a process where a connection is
    handled before 5000 ms have passed, the status is never on the console,
    whatever happens afterwards. *)
Theorem C9_no_connection_status_after_grace_period
    (isWatch : bool) (esbuild_build : nat -> BuildOptions -> Result Metafile)
    (JSON_parse : string -> option JSON) (ghost_ls : option string)
    (js_dir css_dir : fsnode) :
  grace_period = 5000 /\
  (forall events : list Event,
      WsConnection ∉ events ->
      let st := (process isWatch esbuild_build JSON_parse ghost_ls
                   js_dir css_dir events initial_state).2 in
      grace_period <= clock st ->
      no_connection_line (url st) ∈ console st) /\
  (forall st : State, int (on_connection st).2 = None) /\
  (forall before after : list Event,
      elapsed before < grace_period ->
      let st := (process isWatch esbuild_build JSON_parse ghost_ls
                   js_dir css_dir (before ++ WsConnection :: after) initial_state).2 in
      forall u, no_connection_line u ∉ console st).
Proof.
  pose proof (init_quiet_start isWatch esbuild_build ghost_ls js_dir css_dir
                initial_state) as [Hclock Hgrow].
  pose proof (init_sets_timer isWatch esbuild_build ghost_ls js_dir css_dir
                initial_state) as Htimer.
  assert (never_no_connection (console initial_state)) as Hn0
    by apply never_no_connection_nil.
  pose proof (never_grows_quietly _ _ Hn0 Hgrow) as Hn1.
  split; [reflexivity |]. split; [| split].
  - intros events Hnc st Hdue. subst st. revert Hdue. unfold process, bind.
    destruct (init isWatch esbuild_build ghost_ls js_dir css_dir initial_state)
      as [[[]|e] st1]; simpl in *.
    + specialize (Htimer tt st1 eq_refl). rewrite Hclock in Htimer.
      intros Hdue.
      destruct (run_pending_or_shown isWatch esbuild_build JSON_parse
                  grace_period events st1 Hnc) as [[_ Hlt] | Hshown]; [| lia | done].
      left. split; [done | rewrite Hclock; reflexivity].
    + rewrite Hclock. unfold grace_period. lia.
  - intros st. apply on_connection_cancels.
  - intros before after Hbudget st. subst st. unfold process, bind.
    destruct (init isWatch esbuild_build ghost_ls js_dir css_dir initial_state)
      as [[[]|e] st1]; simpl in *; [| exact Hn1].
    specialize (Htimer tt st1 eq_refl). rewrite Hclock in Htimer.
    rewrite run_app.
    pose proof (run_not_shown_within isWatch esbuild_build JSON_parse before st1)
      as Hbefore.
    destruct (run isWatch esbuild_build JSON_parse before st1) as [[[]|e] st2];
      simpl in *.
    + destruct Hbefore as [Hn2 _].
      { split; [exact Hn1 |]. right. exists (0 + grace_period).
        split; [done | rewrite Hclock; lia]. }
      cbn [run]. unfold bind.
      destruct (on_connection_cancels st2) as (Hok & Hi & _ & _ & Hg).
      destruct (on_connection st2) as [[[]|e] st3]; simpl in *; [| done].
      apply (run_never_shown_cancelled isWatch esbuild_build JSON_parse after st3).
      split; [by eapply never_grows_quietly | done].
    + apply Hbefore. split; [exact Hn1 |]. right. exists (0 + grace_period).
      split; [done | rewrite Hclock; lia].
Qed.

(** C9 on a watch session of the sample theme: with no connection during
    5000 ms the status is shown; with a connection after 4999 ms it never
    is, however long the session lasts. *)
Lemma C9_no_connection_status_witness :
  no_connection_line Sample3.site ∈
    console (Sample3.lonely_session
               [Elapse 2000; WatcherAll "change" "post.hbs"; Elapse 3000]) /\
  (forall u, no_connection_line u ∉
     console (Sample3.lonely_session
                ([Elapse 4999] ++ WsConnection :: [Elapse 10000]))).
Proof.
  pose proof (C9_no_connection_status_after_grace_period true Sample.bundler
                JsonText.JSON_parse Sample3.site Sample.js_dir Sample.css_dir)
    as (_ & Hshown & _ & Hnever).
  split.
  - apply (Hshown [Elapse 2000; WatcherAll "change" "post.hbs"; Elapse 3000]).
    + intros H. repeat (apply elem_of_cons in H as [H | H]; [discriminate H |]).
      by apply elem_of_nil in H.
    + apply N.leb_le. vm_compute. reflexivity.
  - apply (Hnever [Elapse 4999] [Elapse 10000]). reflexivity.
Defined.

(** * Further properties of the code *)

(** ** Batches of builds *)

Section BatchFacts.

Context (isWatch : bool) (esbuild_build : nat -> BuildOptions -> Result Metafile).

Lemma batch_answers_cons (l : list string) (n : nat) (e : string) (todo : list string)
    (mf : Metafile) (answers : list Metafile) :
  batch_answers isWatch esbuild_build l n (e :: todo) (mf :: answers) ->
  esbuild_build n (buildOptionsClone isWatch l e) = Ok mf /\
  batch_answers isWatch esbuild_build l (S n) todo answers.
Proof.
  intros [Hlen Hans]. split.
  - rewrite <- (Nat.add_0_r n). by apply (Hans 0%nat).
  - split; [simpl in Hlen; lia |].
    intros k e' mf' He Hm. replace (S n + k)%nat with (n + S k)%nat by lia.
    by apply Hans.
Qed.

Lemma for_entries_batch (l todo : list string) (answers : list Metafile)
    (r : list ResultItem) (st : State) :
  batch_answers isWatch esbuild_build l (length (builds st)) todo answers ->
  for_entries isWatch esbuild_build l todo r st =
  (Ok (r ++ batch_results answers),
   set_tree (batch_tree todo answers)
     (set_builds (fun b => b ++ map (buildOptionsClone isWatch l) todo) st)).
Proof.
  revert answers r st. induction todo as [|e todo IH]; intros answers r st Hans.
  - destruct answers; [| by destruct Hans].
    unfold batch_results, batch_tree, set_tree, set_builds. cbn.
    rewrite !app_nil_r. by destruct st.
  - destruct answers as [|mf answers]; [by destruct Hans |].
    apply batch_answers_cons in Hans as [Hb Hans].
    cbn [for_entries]. unfold bind. rewrite build_entry_spec, Hb.
    rewrite (IH answers).
    + unfold batch_results, batch_tree, set_tree, set_builds, after_call. cbn.
      by rewrite <- !app_assoc.
    + unfold after_call. cbn. rewrite length_app. cbn.
      by replace (length (builds st) + 1)%nat with (S (length (builds st))) by lia.
Qed.

Lemma batch_tree_skip (es : list string) (ms : list Metafile)
    (t : gmap string string) (a : string) :
  (forall i m, ms !! i = Some m -> a ∉ inputs m) ->
  batch_tree es ms t !! a = t !! a.
Proof.
  unfold batch_tree. revert ms t.
  induction es as [|x es IH]; intros ms t Hno; [done |].
  destruct ms as [|m ms]; [done |]. cbn [zip zip_with foldl fst snd].
  rewrite IH; [| intros i m' Hi; by apply (Hno (S i))].
  rewrite record_inputs_lookup, decide_False; [done |].
  by apply (Hno 0%nat).
Qed.

Lemma batch_tree_last (es : list string) (ms : list Metafile)
    (t : gmap string string) (k : nat) (e : string) (m : Metafile) (a : string) :
  es !! k = Some e -> ms !! k = Some m -> a ∈ inputs m ->
  (forall k' m', (k < k')%nat -> ms !! k' = Some m' -> a ∉ inputs m') ->
  batch_tree es ms t !! a = Some e.
Proof.
  revert ms t k. induction es as [|x es IH]; intros ms t k He Hm Ha Hlater; [done |].
  destruct ms as [|m0 ms]; [done |].
  change (batch_tree (x :: es) (m0 :: ms) t)
    with (batch_tree es ms (record_inputs x (inputs m0) t)).
  destruct k as [|k].
  - injection He as ->. injection Hm as ->.
    rewrite batch_tree_skip.
    + by rewrite record_inputs_lookup, decide_True.
    + intros i m' Hi. apply (Hlater (S i)); [lia | done].
  - apply (IH ms _ k); try done.
    intros k' m' Hk Hm'. apply (Hlater (S k')); [lia | done].
Qed.

End BatchFacts.

(** X1. A batch whose builds all succeed calls the bundler once per entry, in
    the order of the batch and with that entry alone as entry point; it
    returns the reports of the builds one after the other; and it leaves each
    input recorded under the entry of the last build of the batch that
    consumed it, whatever owned it before, and the paths no build of the
    batch consumed as they were. *)
Theorem X1_batch_builds_each_entry_in_order
    (isWatch : bool) (esbuild_build : nat -> BuildOptions -> Result Metafile)
    (entries : list string) (answers : list Metafile) (st : State) :
  batch_answers isWatch esbuild_build entries (length (builds st)) entries answers ->
  let r := writeAssets isWatch esbuild_build entries st in
  r.1 = Ok {| results := batch_results answers |} /\
  builds r.2 = builds st ++ map (buildOptionsClone isWatch entries) entries /\
  map entryPoints (map (buildOptionsClone isWatch entries) entries) =
    map (fun e => [e]) entries /\
  (forall k e m a,
      entries !! k = Some e -> answers !! k = Some m -> a ∈ inputs m ->
      (forall k' m', (k < k')%nat -> answers !! k' = Some m' -> a ∉ inputs m') ->
      tree r.2 !! a = Some e) /\
  (forall a,
      (forall k m, answers !! k = Some m -> a ∉ inputs m) ->
      tree r.2 !! a = tree st !! a).
Proof.
  intros Hans r. subst r. unfold writeAssets, bind.
  rewrite (for_entries_batch _ _ _ _ answers); [| done]. cbn.
  split; [done |]. split; [done |]. split.
  { rewrite map_map. by apply map_ext. }
  split.
  - intros k e m a. apply batch_tree_last.
  - intros a. apply batch_tree_skip.
Qed.

(** X1 on the sample bundler: the script and the style are built in that
    order, and the module both consume ends up owned by the style. *)
Lemma X1_batch_witness :
  builds (writeAssets true Sample.bundler
            ["assets/js/index.js"; "assets/css/index.css"] initial_state).2 =
    map (buildOptionsClone true ["assets/js/index.js"; "assets/css/index.css"])
        ["assets/js/index.js"; "assets/css/index.css"] /\
  tree (writeAssets true Sample.bundler
          ["assets/js/index.js"; "assets/css/index.css"] initial_state).2
    !! "assets/js/lib/util.js" = Some "assets/css/index.css".
Proof.
  pose proof (X1_batch_builds_each_entry_in_order true Sample.bundler
                ["assets/js/index.js"; "assets/css/index.css"]
                [ {| inputs := ["assets/js/index.js"; "assets/js/lib/util.js"];
                     outputs := [("assets/built/js/index.js", 1536);
                                 ("assets/built/js/index.js.map", 4096)] |};
                  {| inputs := ["assets/css/index.css"; "assets/js/lib/util.js"];
                     outputs := [("assets/built/css/index.css", 1536);
                                 ("assets/built/css/index.css.map", 4096)] |} ]
                initial_state) as H.
  destruct H as (_ & Hb & _ & Hlast & _).
  - split; [reflexivity |].
    intros k e mf He Hm.
    destruct k as [|[|k]]; simpl in He, Hm; try discriminate;
      injection He as <-; injection Hm as <-; reflexivity.
  - split; [exact Hb |].
    apply (Hlast 1%nat _ _ _ eq_refl eq_refl); [right; left |].
    intros k' m' Hk Hm. destruct k' as [|[|k']]; [lia | lia | discriminate Hm].
Defined.

Section BatchFailure.

Context (isWatch : bool) (esbuild_build : nat -> BuildOptions -> Result Metafile).

Lemma for_entries_app (l a b : list string) (r : list ResultItem) (st : State) :
  for_entries isWatch esbuild_build l (a ++ b) r st =
  match for_entries isWatch esbuild_build l a r st with
  | (Ok r', st') => for_entries isWatch esbuild_build l b r' st'
  | (Throw e, st') => (Throw e, st')
  end.
Proof.
  revert r st. induction a as [|x a IH]; intros r st; [done |].
  cbn [app for_entries]. unfold bind.
  destruct (build_entry isWatch esbuild_build l x r st) as [[r'|e] st']; [apply IH | done].
Qed.

End BatchFailure.

(** X2. A batch stops at the first entry the bundler rejects: the error is
    thrown, the entries after it are not built, and what the builds before it
    recorded in the index stays recorded. *)
Theorem X2_batch_stops_at_first_rejection
    (isWatch : bool) (esbuild_build : nat -> BuildOptions -> Result Metafile)
    (built : list string) (e : string) (rest : list string)
    (answers : list Metafile) (err : Error) (st : State) :
  batch_answers isWatch esbuild_build (built ++ e :: rest) (length (builds st))
    built answers ->
  esbuild_build (length (builds st) + length built)%nat
    (buildOptionsClone isWatch (built ++ e :: rest) e) = Throw err ->
  let r := writeAssets isWatch esbuild_build (built ++ e :: rest) st in
  r.1 = Throw err /\
  builds r.2 =
    builds st ++ map (buildOptionsClone isWatch (built ++ e :: rest)) (built ++ [e]) /\
  tree r.2 = batch_tree built answers (tree st).
Proof.
  intros Hans Herr r. subst r. unfold writeAssets, bind.
  rewrite for_entries_app, (for_entries_batch _ _ _ _ answers); [| done].
  cbn [for_entries]. unfold bind. rewrite build_entry_spec.
  cbn [builds set_tree set_builds]. rewrite length_app, length_map, Herr.
  cbn. rewrite map_app. cbn. by rewrite <- app_assoc.
Qed.

(** X2 on a bundler that rejects every entry: the first call is the only
    one. *)
Lemma X2_batch_witness :
  (writeAssets false Sample.failing_bundler
     ["assets/js/index.js"; "assets/css/index.css"] initial_state).1 =
    Throw BuildFailure /\
  length (builds (writeAssets false Sample.failing_bundler
                    ["assets/js/index.js"; "assets/css/index.css"] initial_state).2) =
    1%nat.
Proof.
  pose proof (X2_batch_stops_at_first_rejection false Sample.failing_bundler
                [] "assets/js/index.js" ["assets/css/index.css"] [] BuildFailure
                initial_state) as H.
  destruct H as (Hr & Hb & _).
  - split; [reflexivity |]. intros k e mf He. discriminate He.
  - reflexivity.
  - split; [exact Hr |]. exact (f_equal length Hb).
Defined.

(** ** The calls of the bundler *)

Section CallFacts.

Context (isWatch : bool) (esbuild_build : nat -> BuildOptions -> Result Metafile)
        (JSON_parse : string -> option JSON) (ghost_ls : option string).

Lemma program_call_clone (l : list string) (e : string) :
  truthy e = true -> program_call isWatch (buildOptionsClone isWatch l e).
Proof. intros He. exists e. by repeat split. Qed.

Lemma build_entry_keeps_program_calls (l : list string) (e : string) (r : list ResultItem) :
  truthy e = true ->
  steps (keeps (calls_are_program_calls isWatch)) (build_entry isWatch esbuild_build l e r).
Proof.
  intros He st Hinv. rewrite build_entry_spec. unfold calls_are_program_calls.
  destruct (esbuild_build _ _); cbn;
    (apply Forall_app; split; [exact Hinv |]);
    (apply Forall_cons; split; [by apply program_call_clone | constructor]).
Qed.

Lemma process_program_calls (js_dir css_dir : fsnode) (events : list Event) :
  calls_are_program_calls isWatch
    (process isWatch esbuild_build JSON_parse ghost_ls js_dir css_dir events
       initial_state).2.
Proof.
  apply (process_keeps isWatch esbuild_build JSON_parse ghost_ls
           (calls_are_program_calls isWatch)).
  - unfold calls_are_program_calls. by intros st st' _ ->.
  - intros l e r He. by apply build_entry_keeps_program_calls.
  - constructor.
Qed.

Lemma recorded_last_owner (log : list BuildOptions) (p : string) :
  Forall (program_call isWatch) log ->
  recorded esbuild_build log p -> is_Some (last_owner esbuild_build log p).
Proof.
  induction log as [|o log IH] using rev_ind; intros Hall (n & o' & mf & Hl & Hb & Hin).
  - by rewrite lookup_nil in Hl.
  - apply Forall_app in Hall as [Hall Ho]. apply Forall_cons in Ho as [Ho _].
    rewrite last_owner_app.
    destruct (call_owner esbuild_build (length log) o p) as [e|] eqn:Hc; [by eexists |].
    apply IH; [done |].
    destruct (decide (n = length log)) as [-> | Hne].
    + rewrite lookup_app_r, Nat.sub_diag in Hl by lia. injection Hl as <-.
      unfold call_owner in Hc. rewrite Hb in Hc. rewrite decide_True in Hc by done.
      destruct Ho as (e & _ & He & _). by rewrite He in Hc.
    + exists n, o', mf. split; [| done].
      apply lookup_app_Some in Hl as [Hl | [Hge Hl]]; [done |].
      destruct (n - length log)%nat as [|k] eqn:Hk; [lia | by destruct k].
Qed.

End CallFacts.

(** X3. Every call of the bundler a process makes, at start-up or on a
    change, builds exactly one non-empty entry point, bundled with source map
    and metafile below "assets/built"; it is minified exactly when the
    process is not in watch mode, and carries the reload script exactly when
    the process is in watch mode and the entry's path includes
    "assets/js/index". *)
Theorem X3_every_bundler_call_is_a_program_call
    (isWatch : bool) (esbuild_build : nat -> BuildOptions -> Result Metafile)
    (JSON_parse : string -> option JSON) (ghost_ls : option string)
    (js_dir css_dir : fsnode) (events : list Event) :
  Forall (program_call isWatch)
    (builds (process isWatch esbuild_build JSON_parse ghost_ls js_dir css_dir
               events initial_state).2).
Proof. apply process_program_calls. Qed.

(** ** Console reports *)

Section ConsoleFacts.

Lemma log_ops_log_ops (a b : list ConsoleOp) (st : State) :
  log_ops b (log_ops a st) = log_ops (a ++ b) st.
Proof. unfold log_ops, set_console. cbn. by rewrite app_assoc. Qed.

Lemma log_ops_nil (st : State) : log_ops [] st = st.
Proof. unfold log_ops, set_console. cbn. rewrite app_nil_r. by destruct st. Qed.

Lemma printHeader_run (a b : bool) (st : State) :
  printHeader a b st = (Ok tt, log_ops (header_ops a b st) st).
Proof.
  unfold printHeader, bind, console_clear, console_log, console_write, modify, gets,
    header_ops, log_ops, set_console. cbn. by rewrite <- !app_assoc.
Qed.

Lemma printCompilationDetails_run (content : BuildResult) (change : option string)
    (firstTime : bool) (st : State) :
  printCompilationDetails content change firstTime st =
  (Ok tt, log_ops (details_ops content change firstTime) st).
Proof.
  unfold printCompilationDetails, bind, console_log, console_write, modify,
    details_ops, log_ops, set_console.
  destruct firstTime; cbn; by rewrite <- !app_assoc.
Qed.

End ConsoleFacts.

(** ** Start-up *)

Section InitFacts.

Context (isWatch : bool) (esbuild_build : nat -> BuildOptions -> Result Metafile)
        (ghost_ls : option string).

Lemma traverseDirectory_ok_readable (node : fsnode) :
  forall dir files r,
    traverseDirectory dir node files = Ok r -> readable node /\ node <> File.
Proof.
  induction node as [| |es IHes] using fsnode_ind'; intros dir files r; [done | done |].
  cbn [traverseDirectory]. intros Hr. split; [| done]. constructor.
  revert files Hr. induction es as [|[name child] es IHloop]; intros files Hr;
    [constructor |].
  apply Forall_cons in IHes as [IHchild IHes]. simpl in IHchild.
  destruct child as [|sub|]; [| | done].
  - constructor; [constructor | by eapply IHloop].
  - destruct (traverseDirectory (join dir name) (Dir sub) files) as [files'|] eqn:Hsub;
      [| done].
    constructor; [by apply IHchild in Hsub as [? _] | by eapply IHloop].
Qed.

Lemma findEntryPoints_None_iff (root : string) (exts : list string) (node : fsnode) :
  findEntryPoints root exts node = None <-> ~ (readable node /\ node <> File).
Proof.
  unfold findEntryPoints, findFilesRecursively. split.
  - destruct (traverseDirectory root node []) as [files|] eqn:Ht; [done |].
    intros _ [Hr Hf].
    destruct (traverseDirectory_readable node root [] Hr Hf) as [r Hr']. congruence.
  - intros Hno. destruct (traverseDirectory root node []) as [files|] eqn:Ht; [| done].
    destruct Hno. by eapply traverseDirectory_ok_readable.
Qed.

End InitFacts.

(** X5. Discovery returns a list exactly when the root is a directory and
    every entry below it can be read; otherwise, whether the root is a plain
    file, is missing, or one entry anywhere below it cannot be read, it
    returns [undefined], whatever files it had found by then. *)
Theorem X5_discovery_fails_as_a_whole (root : string) (exts : list string) (node : fsnode) :
  (is_Some (findEntryPoints root exts node) <-> readable node /\ node <> File) /\
  (findEntryPoints root exts node = None <-> ~ (readable node /\ node <> File)).
Proof.
  split; [| apply findEntryPoints_None_iff].
  split.
  - intros [l Hl]. unfold findEntryPoints, findFilesRecursively in Hl.
    destruct (traverseDirectory root node []) as [files|] eqn:Ht; [| done].
    by eapply traverseDirectory_ok_readable.
  - intros [Hr Hf]. unfold findEntryPoints, findFilesRecursively.
    destruct (traverseDirectory_readable node root [] Hr Hf) as [r ->]. by eexists.
Qed.

Section InitOutcomes.

Context (isWatch : bool) (esbuild_build : nat -> BuildOptions -> Result Metafile)
        (ghost_ls : option string).

Lemma writeAssets_batch (entries : list string) (answers : list Metafile) (st : State) :
  batch_answers isWatch esbuild_build entries (length (builds st)) entries answers ->
  writeAssets isWatch esbuild_build entries st =
  (Ok {| results := batch_results answers |}, after_batch isWatch entries answers st).
Proof.
  intros Hans. unfold writeAssets, bind.
  by rewrite (for_entries_batch _ _ _ _ answers).
Qed.

Lemma init_discovered (js_dir css_dir : fsnode) (jl cl : list string) (st : State) :
  findEntryPoints "assets/js" [".ts"; ".js"] js_dir = Some jl ->
  findEntryPoints "assets/css" [".css"] css_dir = Some cl ->
  init isWatch esbuild_build ghost_ls js_dir css_dir st =
  (res <- writeAssets isWatch esbuild_build (jl ++ cl) ;;
   if isWatch then
     match ghost_ls with
     | None => throw (Exit 1)
     | Some u => modify (set_url (Some u)) ;; initWs res
     end
   else
     printCompilationDetails res None false ;;
     console_log ("⬥" +:+ " " +:+ "  Files built successfully. Exiting...") ;;
     throw (Exit 0)) st.
Proof.
  intros Hjs Hcss. unfold init, findEntryPointsM. by rewrite Hjs, Hcss.
Qed.

End InitOutcomes.

(** X6. When discovery fails for the scripts or for the styles, start-up
    writes the error to the console and then throws a TypeError, on the
    spread of [undefined], before the bundler is called once: nothing is
    built, recorded or scheduled. *)
Theorem X6_failed_discovery_stops_start_up_before_any_build
    (isWatch : bool) (esbuild_build : nat -> BuildOptions -> Result Metafile)
    (ghost_ls : option string) (js_dir css_dir : fsnode) (st : State) :
  findEntryPoints "assets/js" [".ts"; ".js"] js_dir = None \/
  findEntryPoints "assets/css" [".css"] css_dir = None ->
  let r := init isWatch esbuild_build ghost_ls js_dir css_dir st in
  r.1 = Throw TypeError /\
  builds r.2 = builds st /\
  tree r.2 = tree st /\
  int r.2 = int st /\
  ConsoleError ∈ console r.2.
Proof.
  intros Hfail r. subst r. unfold init, findEntryPointsM.
  destruct (findEntryPoints "assets/js" [".ts"; ".js"] js_dir) as [jl|] eqn:Hjs;
    destruct (findEntryPoints "assets/css" [".css"] css_dir) as [cl|] eqn:Hcss.
  - destruct Hfail as [Hf | Hf]; discriminate Hf.
  - cbn. repeat split. apply elem_of_app. right. by apply list_elem_of_singleton.
  - cbn. repeat split. apply elem_of_app. right. by apply list_elem_of_singleton.
  - cbn. repeat split. apply elem_of_app. right. by apply list_elem_of_singleton.
Qed.

(** X6 on a script directory that is missing. *)
Lemma X6_failed_discovery_witness :
  (init false Sample.bundler None Unreadable Sample.css_dir initial_state).1 =
    Throw TypeError /\
  builds (init false Sample.bundler None Unreadable Sample.css_dir initial_state).2 = [].
Proof.
  pose proof (X6_failed_discovery_stops_start_up_before_any_build false Sample.bundler
                None Unreadable Sample.css_dir initial_state (or_introl eq_refl))
    as (Hr & Hb & _).
  split; [exact Hr | exact Hb].
Defined.

(** X7. Start-up after a discovery and a batch that succeed. Without
    [--watch] it prints the report, under the heading of a rebuild, and the
    closing line, then exits with code 0, having set no timer and changed no
    client; with [--watch] and no running site it exits with code 1 after the
    builds; with [--watch] and a site it returns with the address stored, the
    timer due after the grace period, no client, and the header and the
    report of a first build on the console. *)
Theorem X7_start_up_outcomes
    (isWatch : bool) (esbuild_build : nat -> BuildOptions -> Result Metafile)
    (ghost_ls : option string) (js_dir css_dir : fsnode)
    (jl cl : list string) (answers : list Metafile) (st : State) :
  findEntryPoints "assets/js" [".ts"; ".js"] js_dir = Some jl ->
  findEntryPoints "assets/css" [".css"] css_dir = Some cl ->
  batch_answers isWatch esbuild_build (jl ++ cl) (length (builds st)) (jl ++ cl) answers ->
  let r := init isWatch esbuild_build ghost_ls js_dir css_dir st in
  let res := {| results := batch_results answers |} in
  builds r.2 = builds st ++ map (buildOptionsClone isWatch (jl ++ cl)) (jl ++ cl) /\
  tree r.2 = batch_tree (jl ++ cl) answers (tree st) /\
  match isWatch, ghost_ls with
  | false, _ =>
      r.1 = Throw (Exit 0) /\
      int r.2 = int st /\ clients r.2 = clients st /\ url r.2 = url st /\
      console r.2 =
        console st ++ details_ops res None false ++
        [ConsoleLog ("⬥" +:+ " " +:+ "  Files built successfully. Exiting...")]
  | true, None =>
      r.1 = Throw (Exit 1) /\
      int r.2 = int st /\ clients r.2 = clients st
  | true, Some u =>
      r.1 = Ok tt /\
      url r.2 = Some u /\
      int r.2 = Some (clock st + grace_period) /\
      clients r.2 = [] /\ firstConnection r.2 = true /\
      console r.2 =
        console st ++
        [ConsoleClear; ConsoleLog "●  Ghost theme dev server running...";
         header_line false false (Some u) (siteData st); ConsoleLog ""] ++
        details_ops res None true
  end.
Proof.
  intros Hjs Hcss Hans r res.
  assert (r =
          (if isWatch then
             match ghost_ls with
             | None => throw (Exit 1)
             | Some u => modify (set_url (Some u)) ;; initWs res
             end
           else
             printCompilationDetails res None false ;;
             console_log ("⬥" +:+ " " +:+ "  Files built successfully. Exiting...") ;;
             throw (Exit 0))
            (after_batch isWatch (jl ++ cl) answers st)) as ->.
  { subst r. rewrite (init_discovered _ _ _ _ _ jl cl) by done.
    unfold bind at 1. by rewrite (writeAssets_batch _ _ _ answers). }
  destruct isWatch.
  - destruct ghost_ls as [u|]; [| cbn; by repeat split].
    unfold initWs, bind, modify, gets.
    rewrite printHeader_run, printCompilationDetails_run. cbn.
    repeat split. unfold header_ops. cbn. by rewrite <- !app_assoc.
  - unfold bind. rewrite printCompilationDetails_run. cbn.
    repeat split. by rewrite <- app_assoc.
Qed.

(** X7 on the sample theme without [--watch]: three entries are built and
    the process exits with code 0. *)
Lemma X7_start_up_witness :
  (init false Sample.bundler None Sample.js_dir Sample.css_dir initial_state).1 =
    Throw (Exit 0) /\
  length (builds (init false Sample.bundler None Sample.js_dir Sample.css_dir
                    initial_state).2) = 3%nat.
Proof.
  pose proof (X7_start_up_outcomes false Sample.bundler None
                Sample.js_dir Sample.css_dir
                ["assets/js/index.js"; "assets/js/indexes/util.js"]
                ["assets/css/index.css"]
                [ {| inputs := ["assets/js/index.js"; "assets/js/lib/util.js"];
                     outputs := [("assets/built/js/index.js", 1536);
                                 ("assets/built/js/index.js.map", 4096)] |};
                  {| inputs := ["assets/js/indexes/util.js"; "assets/js/lib/util.js"];
                     outputs := [("assets/built/js/indexes/util.js", 1536);
                                 ("assets/built/js/indexes/util.js.map", 4096)] |};
                  {| inputs := ["assets/css/index.css"; "assets/js/lib/util.js"];
                     outputs := [("assets/built/css/index.css", 1536);
                                 ("assets/built/css/index.css.map", 4096)] |} ]
                initial_state eq_refl eq_refl) as H.
  destruct H as (Hb & _ & Hr & _).
  - split; [reflexivity |].
    intros k e mf He Hm.
    destruct k as [|[|[|k]]]; simpl in He, Hm; try discriminate;
      injection He as <-; injection Hm as <-; reflexivity.
  - split; [exact Hr | exact (f_equal length Hb)].
Defined.

Section OneShot.

Context (isWatch : bool) (esbuild_build : nat -> BuildOptions -> Result Metafile)
        (JSON_parse : string -> option JSON) (ghost_ls : option string).

Lemma init_returns_only_when_watching (js_dir css_dir : fsnode) :
  returns_in (fun _ => isWatch = true /\ is_Some ghost_ls)
    (init isWatch esbuild_build ghost_ls js_dir css_dir).
Proof.
  unfold init. do 5 (apply returns_in_bind; intros ?).
  destruct isWatch.
  - destruct ghost_ls as [u|]; [| apply returns_in_throw].
    intros st r st' _. split; [done | by eexists].
  - do 2 (apply returns_in_bind; intros ?). apply returns_in_throw.
Qed.

End OneShot.

(** X8. Start-up returns only in watch mode with a running site. In every
    other case, and so always without [--watch], it ends in an exit or an
    error, and the process handles no event at all: whatever the watcher or
    the sockets deliver, the final state is the one start-up left. *)
Theorem X8_no_event_is_handled_unless_watching
    (isWatch : bool) (esbuild_build : nat -> BuildOptions -> Result Metafile)
    (JSON_parse : string -> option JSON) (ghost_ls : option string)
    (js_dir css_dir : fsnode) (st : State) :
  ((init isWatch esbuild_build ghost_ls js_dir css_dir st).1 = Ok tt ->
   isWatch = true /\ is_Some ghost_ls) /\
  (isWatch = false \/ ghost_ls = None ->
   forall events,
     process isWatch esbuild_build JSON_parse ghost_ls js_dir css_dir events st =
     init isWatch esbuild_build ghost_ls js_dir css_dir st).
Proof.
  pose proof (init_returns_only_when_watching isWatch esbuild_build ghost_ls
                js_dir css_dir st) as Hret.
  split.
  - intros Hok.
    destruct (init isWatch esbuild_build ghost_ls js_dir css_dir st) as [r st'] eqn:Hi.
    simpl in Hok. subst r. by apply (Hret tt st').
  - intros Hno events. unfold process, bind.
    destruct (init isWatch esbuild_build ghost_ls js_dir css_dir st) as [[[]|e] st'] eqn:Hi;
      [| done].
    destruct (Hret tt st' eq_refl) as [Hw [u Hu]].
    destruct Hno as [Hno | Hno]; congruence.
Qed.

(** X8 on the sample theme without [--watch]: a change event changes
    nothing. *)
Lemma X8_no_event_witness :
  process false Sample.bundler JsonText.JSON_parse Sample3.site
    Sample.js_dir Sample.css_dir [WatcherAll "change" "assets/js/index.js"]
    initial_state =
  init false Sample.bundler Sample3.site Sample.js_dir Sample.css_dir initial_state.
Proof.
  apply (X8_no_event_is_handled_unless_watching false Sample.bundler
           JsonText.JSON_parse Sample3.site Sample.js_dir Sample.css_dir initial_state).
  by left.
Defined.

(** ** What the handlers leave alone *)

Section Frames.

Context (isWatch : bool) (esbuild_build : nat -> BuildOptions -> Result Metafile)
        (JSON_parse : string -> option JSON).

(** A relation between states that every primitive change of the handlers
    respects. *)
Variable R : State -> State -> Prop.
Hypothesis R_refl : forall st, R st st.
Hypothesis R_trans : forall a b c, R a b -> R b c -> R a c.
Hypothesis R_console : forall f st, R st (set_console f st).
Hypothesis R_tree : forall f st, R st (set_tree f st).
Hypothesis R_builds : forall f st, R st (set_builds f st).
Hypothesis R_deliver : forall msg st, R st (set_clients (deliver msg) st).
Hypothesis R_siteData : forall d st, R st (set_siteData d st).
Hypothesis R_join : forall st, R st (set_clients (fun cs => cs ++ [new_client]) st).
Hypothesis R_cancel : forall st, R st (set_int None st).
Hypothesis R_first : forall st, R st (set_firstConnection false st).
Hypothesis R_clock : forall t st, R st (set_clock t st).
Hypothesis R_move : forall i rs st, R st (set_clients (move_client i rs) st).

Lemma frame_console_write (op : ConsoleOp) : steps R (console_write op).
Proof. apply steps_modify. intros st. apply R_console. Qed.

Lemma frame_printHeader (a b : bool) : steps R (printHeader a b).
Proof. intros st. rewrite printHeader_run. apply R_console. Qed.

Lemma frame_printCompilationDetails (c : BuildResult) (change : option string) (b : bool) :
  steps R (printCompilationDetails c change b).
Proof. intros st. rewrite printCompilationDetails_run. apply R_console. Qed.

Lemma frame_build_entry (l : list string) (e : string) (r : list ResultItem) :
  steps R (build_entry isWatch esbuild_build l e r).
Proof.
  intros st. rewrite build_entry_spec. destruct (esbuild_build _ _); cbn [snd].
  - eapply R_trans; [apply R_builds | apply R_tree].
  - apply R_builds.
Qed.

Lemma frame_writeAssets (l : list string) : steps R (writeAssets isWatch esbuild_build l).
Proof.
  apply (writeAssets_steps _ _ _ R_refl R_trans (fun _ => True)).
  - intros. apply frame_build_entry.
  - by apply Forall_forall.
Qed.

Lemma frame_broadcast (msg : string) : steps R (broadcast msg).
Proof. apply steps_modify. intros st. apply R_deliver. Qed.

Lemma frame_on_all (event path : string) :
  steps R (on_all isWatch esbuild_build event path).
Proof.
  unfold on_all. steps_split R_refl R_trans;
    try match goal with
        | |- steps _ (printHeader _ _) => apply frame_printHeader
        | |- steps _ (printCompilationDetails _ _ _) => apply frame_printCompilationDetails
        | |- steps _ (broadcast _) => apply frame_broadcast
        | |- steps _ (writeAssets _ _ _) => apply frame_writeAssets
        | |- steps _ (console_log _) => apply frame_console_write
        end.
Qed.

Lemma frame_on_message (message : string) : steps R (on_message JSON_parse message).
Proof.
  unfold on_message. steps_split R_refl R_trans.
  apply steps_modify. intros st. apply R_siteData.
Qed.

Lemma frame_on_connection : steps R on_connection.
Proof.
  unfold on_connection. steps_split R_refl R_trans;
    try match goal with
        | |- steps _ (printHeader _ _) => apply frame_printHeader
        | |- steps _ (modify _) => apply steps_modify; intros st
        end.
  - apply R_join.
  - apply R_cancel.
  - apply R_first.
Qed.

Lemma frame_elapse (ms : N) : steps R (elapse ms).
Proof.
  unfold elapse, on_timeout. steps_split R_refl R_trans;
    try match goal with
        | |- steps _ (printHeader _ _) => apply frame_printHeader
        | |- steps _ console_clear => apply frame_console_write
        | |- steps _ (modify _) => apply steps_modify; intros st
        end.
  - apply R_clock.
  - apply R_cancel.
Qed.

Lemma frame_on_readyState (i : nat) (rs : ReadyState) : steps R (on_readyState i rs).
Proof. apply steps_modify. intros st. apply R_move. Qed.

Lemma frame_handle (ev : Event) : steps R (handle isWatch esbuild_build JSON_parse ev).
Proof.
  destruct ev; cbn [handle].
  - apply frame_elapse.
  - apply frame_on_all.
  - apply frame_on_connection.
  - apply frame_on_message.
  - apply frame_on_readyState.
Qed.

Lemma frame_run (events : list Event) :
  steps R (run isWatch esbuild_build JSON_parse events).
Proof.
  induction events as [|ev events IH]; cbn [run].
  - by apply steps_ret.
  - apply (steps_bind _ R_trans); [apply frame_handle | intros _; apply IH].
Qed.

End Frames.

Section SessionFacts.

Context (isWatch : bool) (esbuild_build : nat -> BuildOptions -> Result Metafile)
        (JSON_parse : string -> option JSON).

Lemma run_first_connection_passed (events : list Event) :
  steps first_connection_passed (run isWatch esbuild_build JSON_parse events).
Proof.
  apply frame_run; unfold first_connection_passed; cbn; auto.
Qed.

Lemma on_connection_first_passed (st : State) :
  firstConnection (on_connection st).2 = false.
Proof.
  unfold on_connection, bind, modify, gets, ret. simpl.
  destruct (firstConnection st) eqn:Hf; simpl; [reflexivity | exact Hf].
Qed.

End SessionFacts.

(** X10. Only the first connection is announced. A connection handled while
    [firstConnection] is set prints the header with the line "Connected to"
    and the address; after any connection the flag is down, no later event
    raises it, and every later connection prints nothing. *)
Theorem X10_only_the_first_connection_is_announced
    (isWatch : bool) (esbuild_build : nat -> BuildOptions -> Result Metafile)
    (JSON_parse : string -> option JSON) (events : list Event) (st : State) :
  (firstConnection st = true ->
   console (on_connection st).2 =
     console st ++
     [ConsoleClear; ConsoleLog "●  Ghost theme dev server running...";
      ConsoleLog ("➜" +:+ " " +:+ " Connected to " +:+ url_text (url st) +:+ ".");
      ConsoleLog ""]) /\
  (firstConnection st = false -> console (on_connection st).2 = console st) /\
  (let later := (run isWatch esbuild_build JSON_parse events (on_connection st).2).2 in
   firstConnection later = false /\
   console (on_connection later).2 = console later).
Proof.
  assert (Hquiet : forall s, firstConnection s = false ->
            console (on_connection s).2 = console s).
  { intros s Hs. unfold on_connection, bind, modify, gets, ret. simpl. by rewrite Hs. }
  split; [| split; [apply Hquiet |]].
  - intros Hf. unfold on_connection, bind, modify, gets, ret. simpl. rewrite Hf.
    simpl. by rewrite <- !app_assoc.
  - intros later.
    assert (firstConnection later = false) as Hl.
    { apply (run_first_connection_passed isWatch esbuild_build JSON_parse events).
      apply on_connection_first_passed. }
    split; [exact Hl | by apply Hquiet].
Qed.

(** X10 on the start of a watch session: the first connection prints four
    lines. *)
Lemma X10_first_connection_witness :
  console (on_connection Sample.two_clients).2 =
    [ConsoleClear; ConsoleLog "●  Ghost theme dev server running...";
     ConsoleLog "➜  Connected to undefined."; ConsoleLog ""].
Proof.
  pose proof (X10_only_the_first_connection_is_announced true Sample.bundler
                JsonText.JSON_parse [] Sample.two_clients) as [Hfirst _].
  exact (Hfirst eq_refl).
Defined.

Section ShownOnce.

Context (isWatch : bool) (esbuild_build : nat -> BuildOptions -> Result Metafile)
        (JSON_parse : string -> option JSON) (ghost_ls : option string).

Lemma handle_shown_only_by_timer (ev : Event) (st : State) :
  shown_only_by_timer st ->
  shown_only_by_timer (handle isWatch esbuild_build JSON_parse ev st).2.
Proof.
  intros [Hn | Hi]; [| right; by apply handle_keeps_cancelled].
  assert (Hquiet : ev <> WsConnection -> (forall ms, ev <> Elapse ms) ->
            shown_only_by_timer (handle isWatch esbuild_build JSON_parse ev st).2).
  { intros Hc He. left.
    destruct (handle_quiet isWatch esbuild_build JSON_parse ev Hc He st) as (_ & _ & _ & Hg).
    by eapply never_grows_quietly. }
  destruct ev as [ms | event path | | message | i rs];
    [| by apply Hquiet | | by apply Hquiet | by apply Hquiet]; cbn [handle].
  - destruct (int st) as [due|] eqn:Hi.
    + destruct (N.lt_ge_cases (clock st + ms) due) as [Hlt | Hge].
      * left. rewrite elapse_idle; [done | right; by exists due].
      * right. by destruct (elapse_fires ms due st Hi Hge) as (_ & ? & _).
    + left. rewrite elapse_idle; [done | by left].
  - right. apply on_connection_cancels.
Qed.

Lemma run_shown_only_by_timer (events : list Event) (st : State) :
  shown_only_by_timer st ->
  shown_only_by_timer (run isWatch esbuild_build JSON_parse events st).2.
Proof.
  revert st. induction events as [|ev events IH]; intros st Hinv; [done |].
  apply (handle_shown_only_by_timer ev) in Hinv.
  cbn [run]. unfold bind.
  destruct (handle isWatch esbuild_build JSON_parse ev st) as [[[]|e] st1]; simpl in *;
    [by apply IH | done].
Qed.

Lemma process_shown_only_by_timer (js_dir css_dir : fsnode) (events : list Event) :
  shown_only_by_timer
    (process isWatch esbuild_build JSON_parse ghost_ls js_dir css_dir events
       initial_state).2.
Proof.
  unfold process, bind.
  pose proof (init_quiet_start isWatch esbuild_build ghost_ls js_dir css_dir
                initial_state) as [_ Hg].
  assert (never_no_connection (console initial_state)) as Hn0
    by apply never_no_connection_nil.
  pose proof (never_grows_quietly _ _ Hn0 Hg) as Hn1.
  destruct (init isWatch esbuild_build ghost_ls js_dir css_dir initial_state)
    as [[[]|e] st1]; simpl in *; [| by left].
  apply run_shown_only_by_timer. by left.
Qed.

Lemma handle_cancelled_quiet (ev : Event) (st : State) :
  int st = None ->
  console_grows_quietly st (handle isWatch esbuild_build JSON_parse ev st).2.
Proof.
  intros Hi.
  destruct ev as [ms | event path | | message | i rs]; cbn [handle].
  - rewrite elapse_idle; [| by left]. exists []. cbn. split; [by rewrite app_nil_r |].
    apply never_no_connection_nil.
  - apply on_all_quiet.
  - apply on_connection_cancels.
  - apply on_message_quiet.
  - apply on_readyState_quiet.
Qed.

Lemma run_cancelled_quiet (events : list Event) (st : State) :
  int st = None ->
  console_grows_quietly st (run isWatch esbuild_build JSON_parse events st).2.
Proof.
  revert st. induction events as [|ev events IH]; intros st Hi.
  - apply console_grows_quietly_refl.
  - pose proof (handle_cancelled_quiet ev st Hi) as Hstep.
    pose proof (handle_keeps_cancelled isWatch esbuild_build JSON_parse ev st Hi) as Hi'.
    cbn [run]. unfold bind.
    destruct (handle isWatch esbuild_build JSON_parse ev st) as [[[]|e] st1]; simpl in *;
      [| done].
    eapply console_grows_quietly_trans; [exact Hstep | by apply IH].
Qed.

Lemma process_app (js_dir css_dir : fsnode) (e1 e2 : list Event) (st : State) :
  (process isWatch esbuild_build JSON_parse ghost_ls js_dir css_dir (e1 ++ e2) st).2 =
  match process isWatch esbuild_build JSON_parse ghost_ls js_dir css_dir e1 st with
  | (Ok _, st1) => (run isWatch esbuild_build JSON_parse e2 st1).2
  | (Throw _, st1) => st1
  end.
Proof.
  unfold process, bind.
  destruct (init isWatch esbuild_build ghost_ls js_dir css_dir st) as [[[]|e] st0];
    [| done].
  rewrite run_app.
  by destruct (run isWatch esbuild_build JSON_parse e1 st0) as [[[]|e] st1].
Qed.

End ShownOnce.

(** X11. The "no connection" status is shown at most once in the life of a
    process: once it is on the console, whatever events follow, whether time
    passing, changes, connections or messages, add lines to the console but
    never that status again. *)
Theorem X11_no_connection_status_is_shown_at_most_once
    (isWatch : bool) (esbuild_build : nat -> BuildOptions -> Result Metafile)
    (JSON_parse : string -> option JSON) (ghost_ls : option string)
    (js_dir css_dir : fsnode) (events later : list Event) (u : option string) :
  let st := (process isWatch esbuild_build JSON_parse ghost_ls js_dir css_dir
               events initial_state).2 in
  let st' := (process isWatch esbuild_build JSON_parse ghost_ls js_dir css_dir
                (events ++ later) initial_state).2 in
  no_connection_line u ∈ console st ->
  exists ops, console st' = console st ++ ops /\
              forall u', no_connection_line u' ∉ ops.
Proof.
  intros st st' Hshown. subst st st'. rewrite process_app.
  pose proof (process_shown_only_by_timer isWatch esbuild_build JSON_parse ghost_ls
                js_dir css_dir events) as [Hn | Hi]; [by destruct (Hn u) |].
  destruct (process isWatch esbuild_build JSON_parse ghost_ls js_dir css_dir events
              initial_state) as [[[]|e] st1]; simpl in *.
  - by apply run_cancelled_quiet.
  - exists []. split; [by rewrite app_nil_r | apply never_no_connection_nil].
Qed.

(** X11 on a watch session left alone for two grace periods. *)
Lemma X11_shown_once_witness :
  exists ops,
    console (Sample3.lonely_session ([Elapse 5000] ++ [Elapse 5000; WsConnection])) =
      console (Sample3.lonely_session [Elapse 5000]) ++ ops /\
    forall u', no_connection_line u' ∉ ops.
Proof.
  apply (X11_no_connection_status_is_shown_at_most_once true Sample.bundler
           JsonText.JSON_parse Sample3.site Sample.js_dir Sample.css_dir
           [Elapse 5000] [Elapse 5000; WsConnection] Sample3.site).
  apply list_elem_of_In. vm_compute.
  repeat (first [left; reflexivity | right]).
Defined.

Section StatusFacts.

Context (isWatch : bool) (esbuild_build : nat -> BuildOptions -> Result Metafile)
        (JSON_parse : string -> option JSON).

Lemma on_all_hbs_console (event path : string) (st : State) :
  endsWith path ".hbs" = true ->
  console (on_all isWatch esbuild_build event path st).2 =
  console st ++
  [ConsoleClear; ConsoleLog "●  Ghost theme dev server running...";
   status_line (url st) (siteData_url (siteData st)) (siteData_version (siteData st));
   ConsoleLog "";
   ConsoleLog ("{{  " +:+ " " +:+ path +:+ " changed. Reloading...")].
Proof.
  intros Hh. unfold on_all. rewrite Hh, (hbs_is_no_script_or_style _ Hh).
  unfold bind, console_log, broadcast, modify, ret.
  rewrite printHeader_run. cbn. by rewrite <- !app_assoc.
Qed.

Lemma same_session_refl (st : State) : same_session st st.
Proof. done. Qed.

Lemma same_session_trans (a b c : State) :
  same_session a b -> same_session b c -> same_session a c.
Proof. intros [? ?] [? ?]. split; congruence. Qed.

Lemma handle_same_session (ev : Event) :
  not_a_message ev ->
  steps same_session (handle isWatch esbuild_build JSON_parse ev).
Proof.
  intros Hev. destruct ev; cbn [handle]; [| | | done |].
  - by apply frame_elapse; try apply same_session_trans.
  - by apply frame_on_all; try apply same_session_trans.
  - by apply frame_on_connection; try apply same_session_trans.
  - by apply frame_on_readyState.
Qed.

End StatusFacts.

(** X12. The header printed on a template change shows what the last client
    message reported: after a message whose value is not [null], the status
    line gives the [url] and [version] of that value when the version is
    truthy, and the invitation to visit the configured address when the
    version is missing, empty or otherwise falsy; the line announcing the
    reload follows. *)
Theorem X12_header_shows_the_reported_site
    (isWatch : bool) (esbuild_build : nat -> BuildOptions -> Result Metafile)
    (JSON_parse : string -> option JSON)
    (message : string) (v : JSON) (event path : string) (st : State) :
  JSON_parse message = Some v -> v <> JNull ->
  endsWith path ".hbs" = true ->
  console (on_all isWatch esbuild_build event path
             (on_message JSON_parse message st).2).2 =
  console st ++
  [ConsoleClear; ConsoleLog "●  Ghost theme dev server running...";
   (if js_truthy (property v "version")
    then ConsoleLogSite (property v "url") (property v "version")
    else ConsoleLog ("➜" +:+ " " +:+ " Visit " +:+ url_text (url st) +:+
                     " to see your changes live."));
   ConsoleLog "";
   ConsoleLog ("{{  " +:+ " " +:+ path +:+ " changed. Reloading...")].
Proof.
  intros Hp Hv Hh. rewrite on_all_hbs_console by done.
  by rewrite (on_message_value _ _ _ _ Hp Hv).
Qed.

(** X12 on the message of a page followed by a change of "post.hbs". *)
Lemma X12_header_witness :
  console (on_all true Sample.bundler "change" "post.hbs"
             (on_message JsonText.JSON_parse Sample.site_message initial_state).2).2 =
  [ConsoleClear; ConsoleLog "●  Ghost theme dev server running...";
   ConsoleLogSite (Some (JString "http://localhost:2368/")) (Some (JString "Ghost 5.82"));
   ConsoleLog "";
   ConsoleLog "{{   post.hbs changed. Reloading..."].
Proof.
  apply (X12_header_shows_the_reported_site true Sample.bundler JsonText.JSON_parse
           Sample.site_message
           (JObject [("url", JString "http://localhost:2368/");
                     ("title", JString "Ghost");
                     ("version", JString "Ghost 5.82")])
           "change" "post.hbs" initial_state);
    [reflexivity | discriminate | reflexivity].
Defined.

(** X13. Only a client message changes the cached session: a change of a
    file, a rebuild whether it succeeds or fails, a connection, the timer or
    a socket changing state leave [siteData] and the configured address as
    they were, over any number of such events. *)
Theorem X13_only_a_message_changes_the_session
    (isWatch : bool) (esbuild_build : nat -> BuildOptions -> Result Metafile)
    (JSON_parse : string -> option JSON) (events : list Event) (st : State) :
  Forall not_a_message events ->
  siteData (run isWatch esbuild_build JSON_parse events st).2 = siteData st /\
  url (run isWatch esbuild_build JSON_parse events st).2 = url st.
Proof.
  intros Hall. revert st. induction Hall as [|ev events Hev _ IH]; intros st; [done |].
  pose proof (handle_same_session isWatch esbuild_build JSON_parse ev Hev st) as Hstep.
  cbn [run]. unfold bind.
  destruct (handle isWatch esbuild_build JSON_parse ev st) as [[[]|e] st1]; simpl in *;
    [| exact Hstep].
  eapply same_session_trans; [exact Hstep | apply IH].
Qed.

(** X13 on a rebuild that fails between a connection and the timer. *)
Lemma X13_session_witness :
  siteData (run true Sample.failing_bundler JsonText.JSON_parse
              [WsConnection; WatcherAll "change" "assets/js/index.js"; Elapse 5000]
              (on_message JsonText.JSON_parse Sample.site_message initial_state).2).2 =
  siteData (on_message JsonText.JSON_parse Sample.site_message initial_state).2.
Proof.
  apply (X13_only_a_message_changes_the_session true Sample.failing_bundler
           JsonText.JSON_parse).
  repeat constructor.
Defined.

(** ** More on formatBytes *)

Section FormatBytesEdges.

Lemma strip_zeros_zeros (k : nat) : strip_zeros (zeros k) = "".
Proof. induction k as [|k IH]; [done |]. simpl. by rewrite IH. Qed.

Lemma zeros_snoc (k : nat) : zeros k +:+ "0" = zeros (S k).
Proof. induction k as [|k IH]; [done |]. simpl. by rewrite IH. Qed.

Lemma parseFloat_text_point_zeros (k : nat) : parseFloat_text ("." +:+ zeros k) = "".
Proof.
  change (parseFloat_text ("." +:+ zeros k))
    with (match strip_zeros (zeros k) with
          | EmptyString => EmptyString
          | frac => String "." frac
          end).
  by rewrite strip_zeros_zeros.
Qed.

Lemma floor_log1024_unique (b i : N) :
  1024 ^ i <= b < 1024 ^ (i + 1) -> floor_log1024 b = i.
Proof.
  intros [Hlo Hhi].
  assert (0 < b) as Hb by (pose proof (pow1024_pos i); lia).
  destruct (floor_log1024_bounds b Hb) as [Hlo' Hhi'].
  destruct (N.lt_trichotomy (floor_log1024 b) i) as [Hlt | [Heq | Hgt]]; [| done |].
  - assert (1024 ^ (floor_log1024 b + 1) <= 1024 ^ i) by (apply N.pow_le_mono_r; lia).
    lia.
  - assert (1024 ^ (i + 1) <= 1024 ^ floor_log1024 b) by (apply N.pow_le_mono_r; lia).
    lia.
Qed.

Lemma toFixed_whole (q den : N) (dm : Z) :
  0 < den -> (0 <= dm <= 100)%Z ->
  exists s, toFixed (q * den) den dm = Ok s /\ parseFloat_text s = N_to_string q.
Proof.
  intros Hden Hdm. unfold toFixed.
  destruct (dm <? 0)%Z eqn:E1; [lia |]. destruct (100 <? dm)%Z eqn:E2; [lia |].
  cbn [orb].
  assert ((2 * (q * den) * 10 ^ Z.to_N dm + den) / (2 * den) = q * 10 ^ Z.to_N dm) as ->.
  { replace (2 * (q * den) * 10 ^ Z.to_N dm + den)
      with (q * 10 ^ Z.to_N dm * (2 * den) + den) by lia.
    rewrite N.div_add_l by lia. rewrite N.div_small by lia. lia. }
  destruct (Z.to_N dm =? 0) eqn:Ef.
  - apply N.eqb_eq in Ef. rewrite Ef. cbn. rewrite N.mul_1_r.
    eexists. split; [done |].
    rewrite <- (append_nil_r (N_to_string q)) at 1. rewrite parseFloat_text_N.
    apply append_nil_r.
  - apply N.eqb_neq in Ef.
    assert (10 ^ Z.to_N dm <> 0) as Hp by (apply N.pow_nonzero; lia).
    rewrite N.div_mul by done. rewrite N.Div0.mod_mul.
    eexists. split; [done |].
    rewrite parseFloat_text_N.
    change (N_to_string 0) with "0". unfold pad_left. cbn [String.length].
    destruct (N.to_nat (Z.to_N dm)) as [|k] eqn:Ek; [lia |].
    replace (S k - 1)%nat with k by lia. rewrite zeros_snoc.
    rewrite parseFloat_text_point_zeros. apply append_nil_r.
Qed.

End FormatBytesEdges.

(** X14. A size that is a whole number of units, [q * 1024^i] with
    [0 < q < 1024], is printed as that whole number and the unit [sizes[i]],
    with no point and no decimals, whatever number of decimals up to 100 is
    asked for: 512 is "512 Bytes", 2048 is "2 KiB", 1024^2 is "1 MiB". *)
Theorem X14_whole_sizes_print_without_decimals (q i : N) (decimals : Z) :
  0 < q < 1024 -> (decimals <= 100)%Z ->
  formatBytes (Some (q * 1024 ^ i)) decimals =
    Ok (N_to_string q +:+ " " +:+ sizes_at i).
Proof.
  intros Hq Hd.
  assert (0 < 1024 ^ i) as Hpos by apply pow1024_pos.
  assert (floor_log1024 (q * 1024 ^ i) = i) as Hi.
  { apply floor_log1024_unique. rewrite N.pow_add_r. nia. }
  unfold formatBytes. destruct (q * 1024 ^ i) as [|p] eqn:Eb; [lia |].
  rewrite Hi, <- Eb.
  destruct (toFixed_whole q (1024 ^ i) (if (decimals <? 0)%Z then 0%Z else decimals))
    as (s & -> & ->); [done | destruct (decimals <? 0)%Z eqn:E; lia | done].
Qed.

(** X14 on two kibibytes, with the default decimals. *)
Lemma X14_whole_sizes_witness :
  formatBytes (Some (2 * 1024 ^ 1)) default_decimals = Ok ("2" +:+ " " +:+ "KiB").
Proof.
  apply (X14_whole_sizes_print_without_decimals 2 1 default_decimals).
  - split; reflexivity.
  - discriminate.
Defined.

(** X15. [formatBytes] throws, a RangeError, exactly when the size is not
    zero and more than 100 decimals are asked for; a zero or missing size is
    "0 Bytes" whatever the decimals; and a negative number of decimals gives
    what zero decimals give. *)
Theorem X15_formatBytes_decimals_out_of_range (bytes : option N) (decimals : Z) :
  (formatBytes bytes decimals = Throw RangeError <->
   (100 < decimals)%Z /\ exists b, bytes = Some b /\ 0 < b) /\
  ((decimals <= 100)%Z \/ bytes = None \/ bytes = Some 0 ->
   exists s, formatBytes bytes decimals = Ok s) /\
  ((decimals < 0)%Z -> formatBytes bytes decimals = formatBytes bytes 0).
Proof.
  assert (Hthrow : forall b, 0 < b -> (100 < decimals)%Z ->
            formatBytes (Some b) decimals = Throw RangeError).
  { intros b Hb Hd. unfold formatBytes, toFixed. destruct b as [|p]; [lia |].
    destruct (decimals <? 0)%Z eqn:E1; [lia |].
    destruct (100 <? decimals)%Z eqn:E2; [by rewrite E1 | lia]. }
  assert (Hok : forall b, (decimals <= 100)%Z -> exists s, formatBytes (Some b) decimals = Ok s).
  { intros b Hd. unfold formatBytes. destruct b as [|p]; [by eexists |].
    destruct (toFixed_in_range (N.pos p) (1024 ^ floor_log1024 (N.pos p))
                (if (decimals <? 0)%Z then 0%Z else decimals)) as [s ->];
      [destruct (decimals <? 0)%Z eqn:E; lia | by eexists]. }
  split; [| split].
  - split.
    + intros Ht. destruct bytes as [[|p]|]; [done | | done].
      destruct (Z.le_gt_cases decimals 100) as [Hle | Hgt].
      * destruct (Hok (N.pos p) Hle) as [s Hs]. congruence.
      * split; [lia |]. exists (N.pos p). split; [done | lia].
    + intros (Hd & b & -> & Hb). by apply Hthrow.
  - intros [Hd | [-> | ->]]; [| by eexists | by eexists].
    destruct bytes as [b|]; [by apply Hok | by eexists].
  - intros Hneg. unfold formatBytes.
    destruct (decimals <? 0)%Z eqn:E; [done | lia].
Qed.

(** X15 on 101 decimals. *)
Lemma X15_formatBytes_decimals_witness :
  formatBytes (Some 1536) 101 = Throw RangeError /\
  (exists s, formatBytes (Some 0) 101 = Ok s) /\
  formatBytes (Some 1536) (-1) = formatBytes (Some 1536) 0.
Proof.
  pose proof (X15_formatBytes_decimals_out_of_range (Some 1536) 101) as [[_ Ht] _].
  pose proof (X15_formatBytes_decimals_out_of_range (Some 0) 101) as [_ [Hz _]].
  pose proof (X15_formatBytes_decimals_out_of_range (Some 1536) (-1)) as [_ [_ Hn]].
  split; [| split].
  - apply Ht. split; [reflexivity |]. exists 1536. split; reflexivity.
  - apply Hz. right. by right.
  - apply Hn. reflexivity.
Defined.



Section OrderFacts.

Lemma traverseDirectory_walk (node : fsnode) :
  forall dir files r,
    traverseDirectory dir node files = Ok r -> r = files ++ walk dir node.
Proof.
  induction node as [| |es IHes] using fsnode_ind'; intros dir files r; [done | done |].
  cbn [traverseDirectory walk].
  revert files. induction es as [|[name child] es IHloop]; intros files Hr.
  - injection Hr as <-. by rewrite app_nil_r.
  - apply Forall_cons in IHes as [IHchild IHes]. simpl in IHchild.
    destruct child as [|sub|]; [| | done].
    + apply (IHloop IHes) in Hr. by rewrite Hr, <- app_assoc.
    + destruct (traverseDirectory (join dir name) (Dir sub) files) as [files'|] eqn:Hsub;
        [| done].
      apply IHchild in Hsub. apply (IHloop IHes) in Hr.
      by rewrite Hr, Hsub, <- app_assoc.
Qed.

End OrderFacts.

(** X17. When discovery returns a list, it is the list a depth-first walk of
    the folder gives, kept to the entry points: the names of each directory
    in the order [readdir] returns them, the files of a subdirectory in the
    place of its name, each path as [join] builds it from the root, which
    it normalizes. *)
Theorem X17_discovery_lists_depth_first (root : string) (exts : list string)
    (node : fsnode) (l : list string) :
  findEntryPoints root exts node = Some l ->
  l = filter (fun file => is_entry_point exts file = true) (walk root node).
Proof.
  unfold findEntryPoints, findFilesRecursively.
  destruct (traverseDirectory root node []) as [files|] eqn:Ht; [| done].
  intros [= <-]. by rewrite (traverseDirectory_walk _ _ _ _ Ht).
Qed.

Lemma X17_discovery_order_witness :
  findEntryPoints "./assets/js" [".ts"; ".js"]
    (Dir [("lib", Dir [("index.ts", File); ("util.ts", File)]); ("index.js", File)])
  = Some ["assets/js/lib/index.ts"; "assets/js/index.js"] /\
  ["assets/js/lib/index.ts"; "assets/js/index.js"] =
  filter (fun file => is_entry_point [".ts"; ".js"] file = true)
    (walk "./assets/js"
       (Dir [("lib", Dir [("index.ts", File); ("util.ts", File)]); ("index.js", File)])).
Proof.
  split; [reflexivity |].
  apply (X17_discovery_lists_depth_first "./assets/js" [".ts"; ".js"]). reflexivity.
Defined.

Section SkeletonFacts.

Variable denied : string -> bool.

Lemma mkdir_lookup (ds : list string) :
  forall fs fs' ok p,
    mkdir denied ds fs = (fs', ok) ->
    fs' !! p = fs !! p \/ (p ∈ ds /\ fs !! p = None /\ fs' !! p = Some Folder).
Proof.
  induction ds as [|d ds IH]; intros fs fs' ok p; cbn [mkdir].
  - intros [= <- _]. by left.
  - destruct (fs !! d) as [[text|]|] eqn:Hd.
    + intros [= <- _]. by left.
    + intros H. destruct (IH _ _ _ p H) as [E|(Hin & Hn & Hf)]; [by left |].
      right. split; [by apply elem_of_cons; right | done].
    + destruct (denied d); [intros [= <- _]; by left |].
      intros H. destruct (IH _ _ _ p H) as [E|(Hin & Hn & Hf)].
      * destruct (decide (p = d)) as [->|Hne].
        -- right. rewrite lookup_insert_eq in E. split; [by apply elem_of_cons; left | done].
        -- left. by rewrite lookup_insert_ne in E.
      * destruct (decide (p = d)) as [->|Hne]; [by rewrite lookup_insert_eq in Hn |].
        rewrite lookup_insert_ne in Hn by done.
        right. split; [by apply elem_of_cons; right | done].
Qed.

Lemma accessible_false (fs : Files) (p : string) :
  accessible fs p = false -> fs !! p = None.
Proof. unfold accessible. by destruct (fs !! p). Qed.

Lemma accessible_true (fs : Files) (p : string) :
  accessible fs p = true <-> is_Some (fs !! p).
Proof.
  unfold accessible. destruct (fs !! p) as [n|]; split; intros H;
    first [done | by exists n | by destruct H].
Qed.

Lemma make_lookup (file : Scaffold) (fs fs' : Files) (ok : bool) (p : string) :
  fs !! filename file = None ->
  make denied file fs = (fs', ok) ->
  fs' !! p = fs !! p \/
  (fs !! p = None /\
   ((p ∈ dirs (filename file) /\ fs' !! p = Some Folder) \/
    (p = filename file /\ fs' !! p = Some (Text (content_text file))))).
Proof.
  intros Habs. unfold make.
  destruct (mkdir denied (dirs (filename file)) fs) as [fs1 ok1] eqn:Hm.
  pose proof (mkdir_lookup _ _ _ _ p Hm) as Hp.
  assert (fs1 !! p = fs !! p \/
          (fs !! p = None /\ p ∈ dirs (filename file) /\ fs1 !! p = Some Folder)) as Hp'
    by (destruct Hp as [?|(? & ? & ?)]; [by left | by right]).
  clear Hp.
  destruct ok1; [destruct (denied (filename file)) |].
  - intros [= <- _]. destruct Hp' as [?|(? & ? & ?)]; [by left | right; split; [done | by left]].
  - intros [= <- _]. destruct (decide (p = filename file)) as [->|Hne].
    + right. split; [done |]. right. by rewrite lookup_insert_eq.
    + rewrite lookup_insert_ne by done.
      destruct Hp' as [?|(? & ? & ?)]; [by left | right; split; [done | by left]].
  - intros [= <- _]. destruct Hp' as [?|(? & ? & ?)]; [by left | right; split; [done | by left]].
Qed.

Lemma check_file_lookup (file : Scaffold) (fs fs' : Files) (ok : bool) (p : string) :
  check_file denied file fs = (fs', ok) ->
  fs' !! p = fs !! p \/
  (fs !! p = None /\
   ((p ∈ dirs (filename file) /\ fs' !! p = Some Folder) \/
    (p = filename file /\ fs' !! p = Some (Text (content_text file))))).
Proof.
  unfold check_file.
  destruct (accessible fs (filename file)) eqn:Ha; [intros [= <- _]; by left |].
  apply accessible_false in Ha.
  destruct (endsWith (filename file) ".js");
    [destruct (accessible fs "assets/js/index.ts"); [intros [= <- _]; by left |] |];
    by apply make_lookup.
Qed.

Lemma check_files_lookup (files : list Scaffold) :
  forall fs fs' ok p,
    check_files denied files fs = (fs', ok) ->
    fs' !! p = fs !! p \/
    (fs !! p = None /\
     exists file, file ∈ files /\
       ((p ∈ dirs (filename file) /\ fs' !! p = Some Folder) \/
        (p = filename file /\ fs' !! p = Some (Text (content_text file))))).
Proof.
  induction files as [|file files IH]; intros fs fs' ok p; cbn [check_files].
  - intros [= <- _]. by left.
  - destruct (check_file denied file fs) as [fs1 ok1] eqn:H1.
    destruct (check_files denied files fs1) as [fs2 ok2] eqn:H2.
    intros [= <- _].
    pose proof (check_file_lookup _ _ _ _ p H1) as Hp1.
    pose proof (IH _ _ _ p H2) as Hp2.
    destruct Hp2 as [E2|(Hn2 & g & Hg & Hmade)].
    + rewrite E2. destruct Hp1 as [E1|(Hn1 & Hmade)]; [by left |].
      right. split; [done |]. exists file. split; [by apply elem_of_cons; left | done].
    + assert (fs !! p = None) as Hn.
      { destruct Hp1 as [E1|(Hn1 & _)]; [by rewrite <- E1 | done]. }
      right. split; [done |]. exists g. split; [by apply elem_of_cons; right | done].
Qed.

End SkeletonFacts.

(** X18. The skeleton destroys nothing: whatever is at a path of the
    working directory before [makeSkeleton] is still there afterwards,
    unchanged, whether or not an error is logged. What it adds at a path
    that was absent is either a folder above one of its files or one of its
    files with the text the program holds for it. *)
Theorem X18_skeleton_keeps_what_is_there (denied : string -> bool) (fs : Files) (p : string) :
  (forall n, fs !! p = Some n -> (makeSkeleton denied fs).1 !! p = Some n) /\
  (forall n, fs !! p = None -> (makeSkeleton denied fs).1 !! p = Some n ->
     (n = Folder /\ exists file, file ∈ filesToCheck /\ p ∈ dirs (filename file)) \/
     (exists text, n = Text text /\ skeleton_text p text)).
Proof.
  unfold makeSkeleton.
  destruct (check_files denied filesToCheck fs) as [fs' ok] eqn:H. simpl.
  destruct (check_files_lookup _ _ _ _ _ p H) as [E|(Hn & file & Hin & Hmade)].
  - rewrite E. split; [done |]. intros n Hnone Hsome. congruence.
  - split; [intros n Hsome; congruence |].
    intros n _ Hsome. destruct Hmade as [[Hd Hf]|[-> Ht]].
    + left. split; [congruence | by exists file].
    + right. exists (content_text file). split; [congruence | by exists file].
Qed.

Lemma X18_skeleton_witness :
  (makeSkeleton nothing_denied Sample4.theme).1 !! "index.hbs"
    = Some (Text "{{!< default}} mine") /\
  (makeSkeleton (fun _ => true) Sample4.theme).1 !! "index.hbs"
    = Some (Text "{{!< default}} mine").
Proof.
  split.
  - apply (X18_skeleton_keeps_what_is_there nothing_denied Sample4.theme "index.hbs").
    reflexivity.
  - apply (X18_skeleton_keeps_what_is_there (fun _ => true) Sample4.theme "index.hbs").
    reflexivity.
Defined.

Section SettledFacts.

Variable denied : string -> bool.

Lemma check_file_keeps (file : Scaffold) (fs fs' : Files) (ok : bool) (p : string) (n : Node) :
  check_file denied file fs = (fs', ok) -> fs !! p = Some n -> fs' !! p = Some n.
Proof.
  intros H Hp. destruct (check_file_lookup _ _ _ _ _ p H) as [E|[Hn _]]; congruence.
Qed.

Lemma check_files_keeps (files : list Scaffold) (fs fs' : Files) (ok : bool) (p : string)
    (n : Node) :
  check_files denied files fs = (fs', ok) -> fs !! p = Some n -> fs' !! p = Some n.
Proof.
  intros H Hp. destruct (check_files_lookup _ _ _ _ _ p H) as [E|[Hn _]]; congruence.
Qed.

Lemma settled_mono (fs fs' : Files) (file : Scaffold) :
  (forall p n, fs !! p = Some n -> fs' !! p = Some n) ->
  settled fs file -> settled fs' file.
Proof.
  intros Hk [Ha|[Hjs Ha]]; [left | right; split; [done |]];
    apply accessible_true; apply accessible_true in Ha as [n Hn];
    exists n; by apply Hk.
Qed.

Lemma check_file_settles (file : Scaffold) (fs fs' : Files) :
  check_file denied file fs = (fs', true) -> settled fs' file.
Proof.
  unfold check_file, settled.
  assert (make denied file fs = (fs', true) -> accessible fs' (filename file) = true) as Hmake.
  { unfold make. destruct (mkdir denied (dirs (filename file)) fs) as [fs1 [|]]; [| done].
    destruct (denied (filename file)); [done |].
    intros [= <-]. apply accessible_true. rewrite lookup_insert_eq. by eexists. }
  destruct (accessible fs (filename file)) eqn:Ha; [intros [= <-]; by left |].
  destruct (endsWith (filename file) ".js") eqn:Hjs.
  - destruct (accessible fs "assets/js/index.ts") eqn:Hts; [intros [= <-]; by right |].
    intros H. left. by apply Hmake.
  - intros H. left. by apply Hmake.
Qed.

Lemma check_files_settles (files : list Scaffold) :
  forall fs fs',
    check_files denied files fs = (fs', true) ->
    forall file, file ∈ files -> settled fs' file.
Proof.
  induction files as [|f files IH]; intros fs fs' H file Hin; [by apply elem_of_nil in Hin |].
  cbn [check_files] in H.
  destruct (check_file denied f fs) as [fs1 ok1] eqn:H1.
  destruct (check_files denied files fs1) as [fs2 ok2] eqn:H2.
  injection H as <- Hok. apply andb_true_iff in Hok as [-> ->].
  apply elem_of_cons in Hin as [->|Hin]; [| by eapply IH].
  apply (settled_mono fs1); [| by eapply check_file_settles].
  intros p n. by eapply check_files_keeps.
Qed.

Lemma settled_noop (files : list Scaffold) (fs : Files) :
  (forall file, file ∈ files -> settled fs file) ->
  check_files denied files fs = (fs, true).
Proof.
  induction files as [|f files IH]; intros Hall; [done |].
  cbn [check_files].
  assert (check_file denied f fs = (fs, true)) as ->.
  { unfold check_file. destruct (Hall f) as [Ha|[Hjs Ha]]; [by apply elem_of_cons; left | |].
    - by rewrite Ha.
    - rewrite Hjs, Ha. by destruct (accessible fs (filename f)). }
  rewrite IH; [done |]. intros file Hin. apply Hall. by apply elem_of_cons; right.
Qed.

End SettledFacts.

(** X19. A run of [makeSkeleton] in which every callback resolved, so that
    no error is logged, leaves nothing to do: each of its files is then
    there, or is the script with "assets/js/index.ts" there, and a second
    run changes nothing and logs nothing, whatever the system refuses by
    then. *)
Theorem X19_skeleton_run_twice (denied : string -> bool) (fs fs' : Files) :
  makeSkeleton denied fs = (fs', true) ->
  (forall file, file ∈ filesToCheck -> settled fs' file) /\
  (forall denied', makeSkeleton denied' fs' = (fs', true)).
Proof.
  unfold makeSkeleton. intros H.
  pose proof (check_files_settles denied filesToCheck fs fs' H) as Hs.
  split; [done |]. intros denied'. by apply settled_noop.
Qed.

Lemma X19_skeleton_run_twice_witness :
  makeSkeleton (fun _ => true) (makeSkeleton nothing_denied Sample4.theme).1
  = ((makeSkeleton nothing_denied Sample4.theme).1, true).
Proof.
  assert ((makeSkeleton nothing_denied Sample4.theme).2 = true) as Hok
    by (vm_compute; reflexivity).
  assert (makeSkeleton nothing_denied Sample4.theme
          = ((makeSkeleton nothing_denied Sample4.theme).1, true)) as H
    by (rewrite <- Hok; apply surjective_pairing).
  exact (proj2 (X19_skeleton_run_twice nothing_denied Sample4.theme _ H) (fun _ => true)).
Defined.

Section SkeletonRun.

Lemma mkdir_resolves (ds : list string) :
  forall fs,
    (forall d text, d ∈ ds -> fs !! d <> Some (Text text)) ->
    exists fs', mkdir nothing_denied ds fs = (fs', true).
Proof.
  induction ds as [|d ds IH]; intros fs Hroom; cbn [mkdir]; [by eexists |].
  destruct (fs !! d) as [[text|]|] eqn:Hd.
  - by destruct (Hroom d text); [apply elem_of_cons; left |].
  - apply IH. intros d' text Hin. apply Hroom. by apply elem_of_cons; right.
  - unfold nothing_denied at 1. apply IH. intros d' text Hin.
    destruct (decide (d' = d)) as [->|Hne]; [by rewrite lookup_insert_eq |].
    rewrite lookup_insert_ne by done. apply Hroom. by apply elem_of_cons; right.
Qed.

Lemma check_file_resolves (file : Scaffold) (fs : Files) :
  (forall d text, d ∈ dirs (filename file) -> fs !! d <> Some (Text text)) ->
  exists fs', check_file nothing_denied file fs = (fs', true) /\
              fs' !! filename file = expected fs file.
Proof.
  intros Hroom. unfold check_file, expected, accessible.
  assert (fs !! filename file = None ->
          exists fs', make nothing_denied file fs = (fs', true) /\
                      fs' !! filename file = Some (Text (content_text file))) as Hmake.
  { intros _. unfold make. destruct (mkdir_resolves _ fs Hroom) as [fs1 ->].
    unfold nothing_denied at 1. eexists. split; [done |]. by rewrite lookup_insert_eq. }
  destruct (fs !! filename file) as [n|] eqn:Hf; [by exists fs |].
  destruct (endsWith (filename file) ".js"); cbn [andb]; [| by apply Hmake].
  destruct (fs !! "assets/js/index.ts"); [by exists fs | by apply Hmake].
Qed.

Lemma check_files_resolve (files : list Scaffold) :
  forall fs,
    NoDup (map filename files) ->
    (forall f g, f ∈ files -> g ∈ files -> filename f ∉ dirs (filename g)) ->
    (forall f, f ∈ files -> filename f <> "assets/js/index.ts") ->
    (forall f, f ∈ files -> "assets/js/index.ts" ∉ dirs (filename f)) ->
    room_for files fs ->
    exists fs', check_files nothing_denied files fs = (fs', true) /\
                forall file, file ∈ files -> fs' !! filename file = expected fs file.
Proof.
  induction files as [|f files IH]; intros fs Hnd Hsep Hname Hdir Hroom.
  { exists fs. split; [done |]. intros file Hin. by apply elem_of_nil in Hin. }
  cbn [map] in Hnd. apply NoDup_cons in Hnd as [Hfresh Hnd].
  destruct (check_file_resolves f fs) as (fs1 & H1 & Hf1).
  { intros d text Hd. apply (Hroom f); [by apply elem_of_cons; left | done]. }
  assert (forall p, p <> filename f -> p ∉ dirs (filename f) -> fs1 !! p = fs !! p) as Hsame.
  { intros p Hp Hnd'. destruct (check_file_lookup _ _ _ _ _ p H1) as [E|(_ & [[? _]|[? _]])];
      done. }
  destruct (IH fs1) as (fs2 & H2 & Hf2).
  - done.
  - intros g h Hg Hh. apply Hsep; by apply elem_of_cons; right.
  - intros g Hg. apply Hname. by apply elem_of_cons; right.
  - intros g Hg. apply Hdir. by apply elem_of_cons; right.
  - intros g d text Hg Hd Htext.
    destruct (check_file_lookup _ _ _ _ _ d H1) as [E|(Hn & [[_ Hfold]|[-> _]])].
    + rewrite E in Htext. revert Htext. apply (Hroom g); [by apply elem_of_cons; right | done].
    + congruence.
    + revert Hd. apply Hsep; [by apply elem_of_cons; left | by apply elem_of_cons; right].
  - exists fs2. cbn [check_files]. rewrite H1, H2. split; [done |].
    intros file Hin. apply elem_of_cons in Hin as [->|Hin].
    + rewrite <- Hf1.
      destruct (check_files_lookup _ _ _ _ _ (filename f) H2)
        as [E|(Hn & g & Hg & [[Hd _]|[He _]])]; [done | |].
      * exfalso. revert Hd.
        apply Hsep; [by apply elem_of_cons; left | by apply elem_of_cons; right].
      * exfalso. apply Hfresh. apply list_elem_of_fmap. by exists g.
    + rewrite (Hf2 file Hin). unfold expected, accessible.
      rewrite (Hsame (filename file)), (Hsame "assets/js/index.ts"); [done | | | |].
      * intros E. by apply (Hname f); [apply elem_of_cons; left |].
      * apply Hdir. by apply elem_of_cons; left.
      * intros E. apply Hfresh. apply list_elem_of_fmap. by exists file.
      * apply Hsep; [by apply elem_of_cons; right | by apply elem_of_cons; left].
Qed.

End SkeletonRun.

Section SkeletonNames.

Lemma filesToCheck_NoDup : NoDup (map filename filesToCheck).
Proof. apply (bool_decide_unpack _). vm_compute. exact I. Qed.

Lemma filesToCheck_apart (f g : Scaffold) :
  f ∈ filesToCheck -> g ∈ filesToCheck -> filename f ∉ dirs (filename g).
Proof.
  assert (Forall (fun f => Forall (fun g => filename f ∉ dirs (filename g)) filesToCheck)
            filesToCheck) as H
    by (apply (bool_decide_unpack _); vm_compute; exact I).
  intros Hf Hg. rewrite Forall_forall in H. specialize (H f Hf).
  rewrite Forall_forall in H. by apply H.
Qed.

Lemma filesToCheck_no_ts (f : Scaffold) :
  f ∈ filesToCheck ->
  filename f <> "assets/js/index.ts" /\ "assets/js/index.ts" ∉ dirs (filename f).
Proof.
  assert (Forall (fun f => filename f <> "assets/js/index.ts" /\
                           "assets/js/index.ts" ∉ dirs (filename f)) filesToCheck) as H
    by (apply (bool_decide_unpack _); vm_compute; exact I).
  intros Hf. rewrite Forall_forall in H. by apply H.
Qed.

End SkeletonNames.

(** X20. When the system refuses nothing and no file stands where the
    skeleton needs a folder, every callback of [makeSkeleton] resolves and
    no error is logged. Each skeleton file that was there is as it was;
    each missing one is made with its text, but for the script
    "assets/js/index.js", which is made, empty, only when
    "assets/js/index.ts" is missing too. *)
Theorem X20_skeleton_with_nothing_in_the_way (fs : Files) :
  room_for_skeleton fs ->
  exists fs',
    makeSkeleton nothing_denied fs = (fs', true) /\
    (forall file, file ∈ filesToCheck -> fs' !! filename file = expected fs file) /\
    (fs !! "assets/js/index.js" = None ->
     fs' !! "assets/js/index.js" =
       if accessible fs "assets/js/index.ts" then None else Some (Text "")).
Proof.
  intros Hroom. unfold makeSkeleton.
  destruct (check_files_resolve filesToCheck fs) as (fs' & H & Hexp).
  - apply filesToCheck_NoDup.
  - apply filesToCheck_apart.
  - intros f Hf. by apply filesToCheck_no_ts.
  - intros f Hf. by apply filesToCheck_no_ts.
  - done.
  - exists fs'. split; [done |]. split; [done |].
    intros Habs.
    assert ({| filename := "assets/js/index.js"; content := None |} ∈ filesToCheck) as Hin
      by (unfold filesToCheck; set_solver).
    apply Hexp in Hin. cbn [filename] in Hin. rewrite Hin.
    unfold expected. cbn [filename]. rewrite Habs.
    by destruct (accessible fs "assets/js/index.ts").
Qed.

Lemma X20_skeleton_witness :
  exists fs',
    makeSkeleton nothing_denied ∅ = (fs', true) /\
    fs' !! "assets/js/index.js" = Some (Text "").
Proof.
  destruct (X20_skeleton_with_nothing_in_the_way ∅) as (fs' & H & _ & Hjs).
  - intros file d text _ _. by rewrite lookup_empty.
  - exists fs'. split; [done |]. rewrite Hjs by apply lookup_empty.
    unfold accessible. by rewrite lookup_empty.
Defined.

Section SkeletonBlocked.

Variable denied : string -> bool.

Lemma mkdir_blocked (ds : list string) :
  forall fs d text,
    d ∈ ds -> fs !! d = Some (Text text) -> (mkdir denied ds fs).2 = false.
Proof.
  induction ds as [|d0 ds IH]; intros fs d text Hin Hd; [by apply elem_of_nil in Hin |].
  cbn [mkdir]. apply elem_of_cons in Hin as [->|Hin]; [by rewrite Hd |].
  destruct (fs !! d0) as [[text0|]|] eqn:Hd0; [done | by eapply IH |].
  destruct (denied d0); [done |].
  apply (IH _ d text); [done |].
  rewrite lookup_insert_ne; [done | congruence].
Qed.

Lemma check_files_blocked (files : list Scaffold) :
  forall fs fs' ok file d text,
    NoDup (map filename files) ->
    (forall f g, f ∈ files -> g ∈ files -> filename f ∉ dirs (filename g)) ->
    (forall f, f ∈ files -> filename f <> "assets/js/index.ts") ->
    (forall f, f ∈ files -> "assets/js/index.ts" ∉ dirs (filename f)) ->
    file ∈ files ->
    d ∈ dirs (filename file) ->
    fs !! d = Some (Text text) ->
    fs !! filename file = None ->
    endsWith (filename file) ".js" && accessible fs "assets/js/index.ts" = false ->
    check_files denied files fs = (fs', ok) ->
    ok = false /\ fs' !! filename file = None.
Proof.
  induction files as [|f files IH];
    intros fs fs' ok file d text Hnd Hsep Hname Hdir Hin Hd Htext Habs Hskip H;
    [by apply elem_of_nil in Hin |].
  cbn [check_files] in H.
  destruct (check_file denied f fs) as [fs1 ok1] eqn:H1.
  destruct (check_files denied files fs1) as [fs2 ok2] eqn:H2.
  injection H as <- <-.
  cbn [map] in Hnd. apply NoDup_cons in Hnd as [Hfresh Hnd].
  apply elem_of_cons in Hin as [->|Hin].
  - assert (ok1 = false /\ fs1 !! filename f = None) as [-> Hn1].
    { revert H1. unfold check_file, make.
      assert (accessible fs (filename f) = false) as -> by (unfold accessible; by rewrite Habs).
      pose proof (mkdir_blocked _ _ _ _ Hd Htext) as Hb.
      destruct (mkdir denied (dirs (filename f)) fs) as [fs0 ok0] eqn:Hm.
      simpl in Hb. subst ok0.
      assert (fs0 !! filename f = None) as Hn0.
      { destruct (mkdir_lookup _ _ _ _ _ (filename f) Hm) as [E|(Hself & _)]; [congruence |].
        exfalso. revert Hself. apply Hsep; by apply elem_of_cons; left. }
      destruct (endsWith (filename f) ".js"); cbn [andb] in Hskip;
        [rewrite Hskip |]; by intros [= <- <-]. }
    split; [done |].
    destruct (check_files_lookup _ _ _ _ _ (filename f) H2)
      as [E|(_ & g & Hg & [[Hg' _]|[Hg' _]])]; [congruence | |].
    + exfalso. revert Hg'.
      apply Hsep; [by apply elem_of_cons; left | by apply elem_of_cons; right].
    + exfalso. apply Hfresh. apply list_elem_of_fmap. by exists g.
  - assert (forall p, p <> filename f -> p ∉ dirs (filename f) -> fs1 !! p = fs !! p) as Hsame.
    { intros p Hp Hnd'. destruct (check_file_lookup _ _ _ _ _ p H1) as [E|(_ & [[? _]|[? _]])];
        done. }
    destruct (IH fs1 fs2 ok2 file d text) as [-> Hn2]; try done.
    + intros g h Hg Hh. apply Hsep; by apply elem_of_cons; right.
    + intros g Hg. apply Hname. by apply elem_of_cons; right.
    + intros g Hg. apply Hdir. by apply elem_of_cons; right.
    + by eapply check_file_keeps.
    + rewrite Hsame; [done | |].
      * intros E. apply Hfresh. apply list_elem_of_fmap. by exists file.
      * apply Hsep; [by apply elem_of_cons; right | by apply elem_of_cons; left].
    + unfold accessible. rewrite (Hsame "assets/js/index.ts"); [done | |].
      * intros E. by apply (Hname f); [apply elem_of_cons; left |].
      * apply Hdir. by apply elem_of_cons; left.
    + split; [by destruct ok1 | done].
Qed.

End SkeletonBlocked.

(** X21. A file standing where a skeleton file needs a folder stops that
    file from being made: when the skeleton file is missing and is not the
    script left out for "assets/js/index.ts", its callback rejects, so an
    error is logged, and the file is still missing afterwards. *)
Theorem X21_skeleton_blocked_by_a_file (denied : string -> bool) (fs : Files)
    (file : Scaffold) (d text : string) :
  file ∈ filesToCheck ->
  d ∈ dirs (filename file) ->
  fs !! d = Some (Text text) ->
  fs !! filename file = None ->
  endsWith (filename file) ".js" && accessible fs "assets/js/index.ts" = false ->
  (makeSkeleton denied fs).2 = false /\
  (makeSkeleton denied fs).1 !! filename file = None.
Proof.
  intros Hin Hd Htext Habs Hskip. unfold makeSkeleton.
  destruct (check_files denied filesToCheck fs) as [fs' ok] eqn:H. simpl.
  apply (check_files_blocked denied filesToCheck fs fs' ok file d text); try done.
  - apply filesToCheck_NoDup.
  - apply filesToCheck_apart.
  - intros f Hf. by apply filesToCheck_no_ts.
  - intros f Hf. by apply filesToCheck_no_ts.
Qed.

Lemma X21_skeleton_blocked_witness :
  (makeSkeleton nothing_denied Sample4.blocked).2 = false /\
  (makeSkeleton nothing_denied Sample4.blocked).1 !! "assets/css/index.css" = None.
Proof.
  apply (X21_skeleton_blocked_by_a_file nothing_denied Sample4.blocked
           {| filename := "assets/css/index.css"; content := Some indexCssContent |}
           "assets" "notes").
  - unfold filesToCheck. do 3 apply list_elem_of_further. apply list_elem_of_here.
  - apply (bool_decide_unpack _). vm_compute. exact I.
  - reflexivity.
  - reflexivity.
  - reflexivity.
Defined.

Section AddressFacts.

Lemma digits_here_spec (s : string) :
  all_digits (digits_here s) = true /\ exists rest, s = digits_here s +:+ rest.
Proof.
  induction s as [|c s [IHd [rest IHr]]]; [split; [done | by exists ""] |].
  cbn [digits_here]. destruct (is_decimal_digit c) eqn:Hc.
  - cbn [all_digits]. rewrite Hc, IHd. split; [done |].
    exists rest. simpl. by rewrite <- IHr.
  - split; [done |]. by exists (String c s).
Qed.

Lemma digits_here_app (port rest : string) :
  all_digits port = true ->
  exists more, digits_here (port +:+ rest) = port +:+ more.
Proof.
  induction port as [|c port IH]; intros Hd; [by exists (digits_here rest) |].
  cbn [all_digits] in Hd. apply andb_true_iff in Hd as [Hc Hd].
  destruct (IH Hd) as [more E]. exists more. simpl. by rewrite Hc, E.
Qed.

Lemma truthy_nonempty (s : string) : truthy s = true <-> s <> "".
Proof. by destruct s. Qed.

Lemma url_regex_here_spec (s u : string) :
  url_regex_here s = Some u -> local_address u /\ startsWith s u = true.
Proof.
  unfold url_regex_here.
  destruct (strip_prefix "http://" s) as [r1|] eqn:H1; [| done].
  apply strip_prefix_spec in H1 as ->.
  assert (forall host r2, local_host host ->
            match strip_prefix ":" r2 with
            | Some rest'' =>
                if truthy (digits_here rest'')
                then Some ("http://" +:+ host +:+ ":" +:+ digits_here rest'')
                else None
            | None => None
            end = Some u ->
            local_address u /\
            startsWith ("http://" +:+ host +:+ r2) u = true) as Hport.
  { intros host r2 Hhost.
    destruct (strip_prefix ":" r2) as [r3|] eqn:H3; [| done].
    apply strip_prefix_spec in H3 as ->.
    destruct (truthy (digits_here r3)) eqn:Ht; [| done].
    intros [= <-]. destruct (digits_here_spec r3) as [Hd [rest Hrest]]. split.
    - exists host, (digits_here r3).
      split; [done |]. split; [by apply truthy_nonempty | done].
    - apply startsWith_spec. exists rest. rewrite Hrest at 1.
      simpl. by rewrite append_assoc. }
  unfold host_here.
  destruct (strip_prefix "localhost" r1) as [r2|] eqn:H2.
  - apply strip_prefix_spec in H2 as ->. intros H.
    by destruct (Hport "localhost" r2) as [Ha Hs]; [left | |].
  - destruct (strip_prefix "127.0.0.1" r1) as [r2|] eqn:H2'; [| done].
    apply strip_prefix_spec in H2' as ->. intros H.
    by destruct (Hport "127.0.0.1" r2) as [Ha Hs]; [right | |].
Qed.

Lemma url_regex_here_finds (host port rest : string) :
  local_host host -> port <> "" -> all_digits port = true ->
  is_Some (url_regex_here ("http://" +:+ host +:+ ":" +:+ port +:+ rest)).
Proof.
  intros Hhost Hne Hd.
  destruct (digits_here_app port rest Hd) as [more E].
  assert (truthy (digits_here (port +:+ rest)) = true) as Ht
    by (rewrite E; destruct port; [done | done]).
  destruct Hhost as [-> | ->]; unfold url_regex_here; simpl; rewrite Ht; by eexists.
Qed.

Lemma url_regex_matches_sound (s : string) :
  forall skip u,
    u ∈ url_regex_matches skip s -> local_address u /\ includes s u = true.
Proof.
  induction s as [|c s IH]; intros skip u; [by intros ?%elem_of_nil |].
  cbn [url_regex_matches includes].
  assert (forall k, u ∈ url_regex_matches k s ->
            local_address u /\ startsWith (String c s) u || includes s u = true) as Hlater.
  { intros k Hin. destruct (IH k u Hin) as [Ha Hi]. split; [done |].
    rewrite Hi. apply orb_true_r. }
  destruct skip as [|k]; [| apply Hlater].
  destruct (url_regex_here (String c s)) as [v|] eqn:Hv; [| apply Hlater].
  intros [->|Hin]%elem_of_cons; [| by eapply Hlater].
  destruct (url_regex_here_spec _ _ Hv) as [Ha Hs]. split; [done |]. by rewrite Hs.
Qed.

Lemma url_regex_matches_nil (s : string) :
  url_regex_matches 0 s = [] ->
  forall a b, s = a +:+ b -> url_regex_here b = None.
Proof.
  induction s as [|c s IH]; intros Hnil a b E.
  - destruct a; [| done]. simpl in E. by subst b.
  - cbn [url_regex_matches] in Hnil.
    destruct (url_regex_here (String c s)) as [v|] eqn:Hv; [done |].
    destruct a as [|c' a]; simpl in E; [by subst b |].
    injection E as -> E. by apply (IH Hnil a b).
Qed.

End AddressFacts.

(** X22. What the listing of [ghost ls] is searched for: every address
    found is "http://", then "localhost" or "127.0.0.1", then ":" and a port
    of one or more digits, and stands in the listing as it is returned. None
    is found exactly when no such address stands anywhere in the listing. *)
Theorem X22_addresses_found_in_the_listing (result : string) :
  (forall u, u ∈ url_regex_matches 0 result ->
     local_address u /\ includes result u = true) /\
  (url_regex_matches 0 result = [] <->
   forall u, local_address u -> includes result u = false).
Proof.
  split; [intros u; apply url_regex_matches_sound |]. split.
  - intros Hnil u (host & port & Hhost & Hne & Hd & ->).
    destruct (includes result _) eqn:Hi; [| done]. exfalso.
    apply includes_spec in Hi as (a & b & E).
    pose proof (url_regex_matches_nil _ Hnil a _ E) as Hnone.
    destruct (url_regex_here_finds host port b Hhost Hne Hd) as [v Hv].
    rewrite !append_assoc in Hnone. congruence.
  - intros Hno. destruct (url_regex_matches 0 result) as [|u l] eqn:Hm; [done |].
    destruct (url_regex_matches_sound result 0 u) as [Ha Hi];
      [rewrite Hm; by apply elem_of_cons; left |].
    rewrite (Hno u Ha) in Hi. done.
Qed.

Section TitleFacts.

Lemma startsWith_app (s p x : string) :
  startsWith s p = true -> startsWith (s +:+ x) p = true.
Proof.
  intros [t ->]%startsWith_spec. apply startsWith_spec. exists (t +:+ x).
  by rewrite append_assoc.
Qed.

Lemma line_terminator_here_app (b x : string) :
  line_terminator_here (b +:+ x) = false -> line_terminator_here b = false.
Proof.
  unfold line_terminator_here. intros H.
  repeat (apply orb_false_iff in H as [H ?]).
  repeat (apply orb_false_iff; split);
    match goal with
    | |- startsWith b ?p = false =>
        destruct (startsWith b p) eqn:E; [| done];
        apply (startsWith_app _ _ x) in E; congruence
    end.
Qed.

Lemma title_text_spec (s : string) :
  forall t,
    title_text s = Some t ->
    (exists rest, s = t +:+ "</title>" +:+ rest) /\
    includes t "</title>" = false /\
    one_line t.
Proof.
  induction s as [|c s IH]; intros t; cbn [title_text].
  - cbn. done.
  - destruct (strip_prefix "</title>" (String c s)) as [rest|] eqn:Hclose.
    + intros [= <-]. apply strip_prefix_spec in Hclose. split; [by exists rest |].
      split; [done |]. intros a b E. destruct a; [| done]. simpl in E. by subst b.
    + destruct (line_terminator_here (String c s)) eqn:Hlt; [done |].
      destruct (title_text s) as [t'|] eqn:Ht; [| done].
      intros [= <-]. destruct (IH t' eq_refl) as ([rest Hrest] & Hno & Hline).
      split; [exists rest; change (String c s = String c (t' +:+ "</title>" +:+ rest));
              by rewrite <- Hrest |]. split.
      * cbn [includes]. rewrite Hno, orb_false_r.
        destruct (startsWith (String c t') "</title>") eqn:Hs; [| done].
        apply (startsWith_app _ _ ("</title>" +:+ rest)) in Hs.
        change (startsWith (String c (t' +:+ "</title>" +:+ rest)) "</title>" = true) in Hs.
        rewrite <- Hrest in Hs.
        apply startsWith_spec in Hs as [x Hx]. apply strip_prefix_spec in Hx. congruence.
      * intros a b E. destruct a as [|c' a]; simpl in E.
        -- subst b. apply (line_terminator_here_app _ ("</title>" +:+ rest)).
           change (line_terminator_here (String c (t' +:+ "</title>" +:+ rest)) = false).
           by rewrite <- Hrest.
        -- injection E as -> E. by apply (Hline a b).
Qed.

Lemma title_regex_match_spec (s t : string) :
  title_regex_match s = Some t ->
  includes s ("<title>" +:+ t +:+ "</title>") = true /\
  includes t "</title>" = false /\
  one_line t.
Proof.
  induction s as [|c s IH]; cbn [title_regex_match].
  - by cbn.
  - destruct (title_regex_here (String c s)) as [t'|] eqn:Hhere.
    + intros [= ->]. unfold title_regex_here in Hhere.
      destruct (strip_prefix "<title>" (String c s)) as [r|] eqn:Hopen; [| done].
      apply strip_prefix_spec in Hopen.
      destruct (title_text_spec r t Hhere) as ([rest Hrest] & Hno & Hline).
      split; [| done]. apply includes_spec. exists "", rest.
      rewrite Hopen, Hrest. simpl. by rewrite !append_assoc.
    + intros H. destruct (IH H) as (Hi & Hno & Hline). split; [| done].
      cbn [includes]. rewrite Hi. apply orb_true_r.
Qed.

End TitleFacts.

(** X23. The title offered for a site, when one is found, is the text
    between a "<title>" of the page and the first "</title>" after it: the
    page holds the two tags around it, and the text itself holds no
    "</title>" and no line break. *)
Theorem X23_title_is_between_the_tags (output t : string) :
  title_regex_match output = Some t ->
  includes output ("<title>" +:+ t +:+ "</title>") = true /\
  includes t "</title>" = false /\
  one_line t.
Proof. apply title_regex_match_spec. Qed.

Lemma X23_title_witness :
  includes "<html><head><title>My blog</title></head></html>"
           ("<title>" +:+ "My blog" +:+ "</title>") = true /\
  includes "My blog" "</title>" = false /\
  one_line "My blog".
Proof.
  apply (X23_title_is_between_the_tags
           "<html><head><title>My blog</title></head></html>" "My blog").
  reflexivity.
Defined.

Section GhostCliFacts.

Variable execSync : string -> option string.
Variable select : list Choice -> string.

Lemma runCommand_outcome (command : string) (st : State) :
  runCommand execSync command st =
  match execSync command with
  | Some output => (Ok output, st)
  | None => (Throw (Exit 1), logged ConsoleError st)
  end.
Proof. unfold runCommand. by destruct (execSync command). Qed.

Lemma details_of_outcome (localUrl : list string) (st : State) :
  (exists details,
     details_of execSync localUrl st = (Ok details, st) /\
     map detail_url details = localUrl /\
     Forall (fun d => exists output,
               execSync ("curl -s " +:+ detail_url d) = Some output /\
               detail_title d = title_regex_match output) details) \/
  (details_of execSync localUrl st = (Throw (Exit 1), logged ConsoleError st) /\
   exists u, u ∈ localUrl /\ execSync ("curl -s " +:+ u) = None).
Proof.
  induction localUrl as [|u l IH]; [left; by exists [] |].
  cbn [details_of]. unfold detail_of, bind, ret. rewrite runCommand_outcome.
  destruct (execSync ("curl -s " +:+ u)) as [output|] eqn:Hu; cbn beta iota.
  - destruct IH as [(ds & Hds & Hurls & Hall)|(Hfail & v & Hv & Hnone)].
    + left. eexists (_ :: ds). rewrite Hds. split; [done |].
      split; [cbn; by rewrite Hurls |].
      constructor; [by exists output | done].
    + right. rewrite Hfail. split; [done |].
      exists v. split; [by apply elem_of_cons; right | done].
  - right. split; [done |]. exists u. split; [by apply elem_of_cons; left | done].
Qed.

Lemma value_of_choice_of (details : list Detail) :
  map value_of (map choice_of details) = map detail_url details.
Proof. induction details as [|d ds IH]; [done |]. cbn. by rewrite IH. Qed.

Lemma parseGhostCliOutput_outcome (st : State) :
  match parseGhostCliOutput execSync select st with
  | (Ok u, st') =>
      st' = st /\
      exists result,
        execSync "ghost ls" = Some result /\
        (url_regex_matches 0 result = [u] \/
         exists details,
           (1 < length details)%nat /\
           map detail_url details = url_regex_matches 0 result /\
           Forall (fun d => exists output,
                     execSync ("curl -s " +:+ detail_url d) = Some output /\
                     detail_title d = title_regex_match output) details /\
           u = select (map choice_of details))
  | (Throw e, st') =>
      e = Exit 1 /\
      ((st' = logged ConsoleError st /\
        (execSync "ghost ls" = None \/
         exists result u, execSync "ghost ls" = Some result /\
           u ∈ url_regex_matches 0 result /\ execSync ("curl -s " +:+ u) = None)) \/
       (st' = logged (ConsoleLog no_instance_line) st /\
        exists result, execSync "ghost ls" = Some result /\
                       url_regex_matches 0 result = []))
  end.
Proof.
  unfold parseGhostCliOutput, bind. rewrite runCommand_outcome.
  destruct (execSync "ghost ls") as [result|] eqn:Hls; cbn beta iota;
    [| split; [done |]; left; by split; [| left]].
  destruct (url_regex_matches 0 result) as [|u [|v l]] eqn:Hm.
  - split; [done |]. right. split; [done |]. by exists result.
  - split; [done |]. exists result. split; [done |]. by left.
  - destruct (details_of_outcome (u :: v :: l) st)
      as [(ds & Hds & Hurls & Hall)|(Hfail & w & Hw & Hnone)].
    + rewrite Hds. split; [done |]. exists result. split; [done |]. right.
      exists ds. split; [| split; [congruence | split; [done | done]]].
      rewrite <- (length_map detail_url), Hurls. simpl. lia.
    + rewrite Hfail. split; [done |]. left. split; [done |]. right.
      exists result, w. split; [done | split; [by rewrite Hm | done]].
Qed.

End GhostCliFacts.

(** X24. [parseGhostCliOutput] ends in one of three ways. It returns the
    only address of the listing, whatever a fetch or the prompt would give; or, when
    the listing holds several, it fetches the page of each, offers them in
    the order of the listing and returns what [select] answers; or it ends
    the process with status 1, after one line on the console: the error of
    a command that failed ([ghost ls], or one of the fetches), or the line
    that no running instance was found when the listing holds no address.
    It changes nothing else. *)
Theorem X24_site_address_outcomes (execSync : string -> option string)
    (select : list Choice -> string) (st : State) :
  match parseGhostCliOutput execSync select st with
  | (Ok u, st') =>
      st' = st /\
      exists result,
        execSync "ghost ls" = Some result /\
        (url_regex_matches 0 result = [u] \/
         exists details,
           (1 < length details)%nat /\
           map detail_url details = url_regex_matches 0 result /\
           Forall (fun d => exists output,
                     execSync ("curl -s " +:+ detail_url d) = Some output /\
                     detail_title d = title_regex_match output) details /\
           u = select (map choice_of details))
  | (Throw e, st') =>
      e = Exit 1 /\
      ((st' = logged ConsoleError st /\
        (execSync "ghost ls" = None \/
         exists result u, execSync "ghost ls" = Some result /\
           u ∈ url_regex_matches 0 result /\ execSync ("curl -s " +:+ u) = None)) \/
       (st' = logged (ConsoleLog no_instance_line) st /\
        exists result, execSync "ghost ls" = Some result /\
                       url_regex_matches 0 result = []))
  end.
Proof. apply parseGhostCliOutput_outcome. Qed.

(** X25. With a [select] that answers with one of the choices it is given,
    the address [parseGhostCliOutput] returns is one of those found in the
    listing of [ghost ls]: a local address, standing in the listing. *)
Theorem X25_site_address_is_from_the_listing (execSync : string -> option string)
    (select : list Choice -> string) (st st' : State) (u : string) :
  picks_a_choice select ->
  parseGhostCliOutput execSync select st = (Ok u, st') ->
  exists result,
    execSync "ghost ls" = Some result /\
    u ∈ url_regex_matches 0 result /\
    local_address u /\
    includes result u = true.
Proof.
  intros Hpick H.
  pose proof (parseGhostCliOutput_outcome execSync select st) as Hout.
  rewrite H in Hout. destruct Hout as (_ & result & Hls & Hcase).
  exists result. split; [done |].
  assert (u ∈ url_regex_matches 0 result) as Hin.
  { destruct Hcase as [->|(ds & Hlen & Hurls & _ & ->)]; [by apply elem_of_cons; left |].
    rewrite <- Hurls, <- value_of_choice_of. apply Hpick.
    destruct ds; [simpl in Hlen; lia | done]. }
  split; [done |]. by apply (url_regex_matches_sound result 0%nat).
Qed.

Lemma X25_site_address_witness :
  exists result,
    Sample5.execSync "ghost ls" = Some result /\
    "http://127.0.0.1:2369" ∈ url_regex_matches 0 result /\
    local_address "http://127.0.0.1:2369" /\
    includes result "http://127.0.0.1:2369" = true.
Proof.
  apply (X25_site_address_is_from_the_listing Sample5.execSync Sample5.select
           initial_state initial_state).
  - intros choices Hne. unfold Sample5.select.
    destruct (last choices) as [c|] eqn:Hlast.
    + apply list_elem_of_fmap. exists c. split; [done |]. by apply last_Some_elem_of.
    + apply last_None in Hlast. done.
  - vm_compute. reflexivity.
Defined.

(** ** Rebuilds that overlap *)

Section OverlapFacts.

Context (isWatch : bool) (esbuild_build : nat -> BuildOptions -> Result Metafile)
        (JSON_parse : string -> option JSON).

Lemma same_index_refl (st : State) : same_index st st.
Proof. by split. Qed.

Lemma same_index_trans (a b c : State) :
  same_index a b -> same_index b c -> same_index a c.
Proof. intros [? ?] [? ?]. split; congruence. Qed.

Ltac same_index_steps :=
  steps_split same_index_refl same_index_trans;
  try match goal with
      | |- steps _ (printHeader _ _) => apply frame_printHeader
      | |- steps _ (printCompilationDetails _ _ _) => apply frame_printCompilationDetails
      | |- steps _ (broadcast _) => apply frame_broadcast
      | |- steps _ (console_log _) => apply frame_console_write
      end;
  try (intros; by split).

Lemma on_all_begin_same_index (event path : string) :
  steps same_index (on_all_begin event path).
Proof. unfold on_all_begin. same_index_steps. Qed.

Lemma on_all_report_same_index (res : BuildResult) (path : string) :
  steps same_index (on_all_report res path).
Proof. unfold on_all_report. same_index_steps. Qed.

(** The handlers of the events that are no change of a file leave the index
    and the log of calls as they were. *)
Lemma handle_same_index (ev : Event) :
  (forall event path, ev <> WatcherAll event path) ->
  steps same_index (handle isWatch esbuild_build JSON_parse ev).
Proof.
  intros Hev. destruct ev as [ms|event path| |message|i rs]; cbn [handle].
  - apply frame_elapse; first [apply same_index_refl | apply same_index_trans
                              | intros; by split].
  - by destruct (Hev event path).
  - apply frame_on_connection; first [apply same_index_refl | apply same_index_trans
                                     | intros; by split].
  - apply frame_on_message; first [apply same_index_refl | apply same_index_trans
                                  | intros; by split].
  - apply steps_modify. intros st. by split.
Qed.

(** What a step does to the index, the log of calls and the history. *)
Lemma step_effect (s : Step) (a : Async) :
  let a' := (step isWatch esbuild_build JSON_parse s a).2 in
  (tree (now a') = tree (now a) /\ completed a' = completed a /\
   (builds (now a') = builds (now a) /\ in_flight a' `sublist_of` in_flight a \/
    exists w, builds (now a') =
                builds (now a) ++ [buildOptionsClone isWatch [w_rootFile w] (w_rootFile w)] /\
              in_flight a' = in_flight a ++
                [{| f_call := length (builds (now a)); f_rootFile := w_rootFile w;
                    f_path := w_path w |}])) \/
  (exists f res,
      f ∈ in_flight a /\
      esbuild_build (f_call f)
        (buildOptionsClone isWatch [f_rootFile f] (f_rootFile f)) = Ok res /\
      tree (now a') = record_inputs (f_rootFile f) (inputs res) (tree (now a)) /\
      completed a' = completed a ++ [(f_rootFile f, res)] /\
      builds (now a') = builds (now a) /\
      in_flight a' `sublist_of` in_flight a).
Proof.
  cbv zeta. destruct s as [ev|k|k|k]; cbn [step].
  - left. unfold arrives.
    assert (forall r st, same_index (now a) st ->
              tree (now (r, set_now st a).2) = tree (now a) /\
              completed (r, set_now st a).2 = completed a /\
              (builds (now (r : Result unit, set_now st a).2) = builds (now a) /\
               in_flight (r, set_now st a).2 `sublist_of` in_flight a \/
               exists w, builds (now (r, set_now st a).2) =
                           builds (now a) ++
                           [buildOptionsClone isWatch [w_rootFile w] (w_rootFile w)] /\
                         in_flight (r, set_now st a).2 = in_flight a ++
                           [{| f_call := length (builds (now a));
                               f_rootFile := w_rootFile w; f_path := w_path w |}]))
      as Hset.
    { intros r st [Ht Hb]. cbn. split; [done |]. split; [done |]. by left. }
    destruct ev as [ms|event path| |message|i rs];
      try (match goal with
           | |- context [handle _ _ _ ?e (now a)] =>
               pose proof (handle_same_index e ltac:(done) (now a)) as Hsame;
               destruct (handle isWatch esbuild_build JSON_parse e (now a)) as [r st];
               by apply Hset
           end).
    pose proof (on_all_begin_same_index event path (now a)) as Hsame.
    destruct (on_all_begin event path (now a)) as [[[rootFile|]|e] st];
      [| by apply Hset | by apply Hset].
    destruct Hsame as [Ht Hb]. cbn in *. split; [done |]. split; [done |]. by left.
  - left. unfold calls. destruct (waiting a !! k) as [w|] eqn:Hw; cbn.
    + split; [done |]. split; [done |]. right. by exists w.
    + split; [done |]. split; [done |]. by left.
  - unfold settles. destruct (in_flight a !! k) as [f|] eqn:Hf; cbn zeta.
    + destruct (esbuild_build (f_call f) _) as [res|e] eqn:Hres.
      * right. exists f, res.
        split; [by eapply list_elem_of_lookup_2 |]. split; [done |].
        destruct (reduce_outputs (outputs res) []) as [vals|e]; cbn;
          (split; [done |]; split; [done |]; split; [done |]; apply sublist_delete).
      * left. cbn. split; [done |]. split; [done |]. left.
        split; [done | apply sublist_delete].
    + left. cbn. split; [done |]. split; [done |]. by left.
  - left. unfold reports. destruct (built a !! k) as [b|] eqn:Hb; cbn.
    + pose proof (on_all_report_same_index (b_res b) (b_path b) (now a)) as Hsame.
      destruct (on_all_report (b_res b) (b_path b) (now a)) as [r st].
      destruct Hsame as [Ht Hbs]. cbn in *. split; [done |]. split; [done |]. by left.
    + split; [done |]. split; [done |]. by left.
Qed.

Lemma last_completed_snoc (log : list (string * Metafile)) (entry : string)
    (mf : Metafile) (p : string) :
  last_completed (log ++ [(entry, mf)]) p =
  if decide (p ∈ inputs mf) then Some entry else last_completed log p.
Proof. unfold last_completed. by rewrite foldl_app. Qed.

Lemma last_completed_is_Some (log : list (string * Metafile)) (p : string) :
  is_Some (last_completed log p) <->
  exists entry mf, (entry, mf) ∈ log /\ p ∈ inputs mf.
Proof.
  induction log as [|[entry mf] log IH] using rev_ind.
  - split; [by intros [? ?] | by intros (? & ? & ?%elem_of_nil & _)].
  - rewrite last_completed_snoc. destruct (decide (p ∈ inputs mf)) as [Hin|Hnin].
    + split; [intros _ | by eexists].
      exists entry, mf. split; [| done]. apply elem_of_app. right. by apply list_elem_of_singleton.
    + rewrite IH. split.
      * intros (e & m & He & Hp). exists e, m. split; [| done]. apply elem_of_app. by left.
      * intros (e & m & He & Hp). apply elem_of_app in He as [He|He]; [by exists e, m |].
        apply list_elem_of_singleton in He. by injection He as -> ->.
Qed.

(** The three facts that hold of every state of the process. *)
Lemma step_keeps_history (s : Step) (a : Async) :
  index_follows_history a /\ in_flight_are_calls isWatch a /\
  completed_are_calls esbuild_build a ->
  let a' := (step isWatch esbuild_build JSON_parse s a).2 in
  index_follows_history a' /\ in_flight_are_calls isWatch a' /\
  completed_are_calls esbuild_build a'.
Proof.
  intros (Hindex & Hflight & Hdone). cbv zeta.
  pose proof (step_effect s a) as Heffect. cbv zeta in Heffect.
  set (a' := (step isWatch esbuild_build JSON_parse s a).2) in *.
  destruct Heffect as
    [(Ht & Hc & Hcalls)|(f & res & Hf & Hres & Ht & Hc & Hb & Hsub)].
  - split; [| split].
    + intros p. rewrite Ht, Hc. apply Hindex.
    + destruct Hcalls as [[Hb Hsub]|(w & Hb & Hfl)]; intros g Hg.
      * rewrite Hb. apply Hflight. by eapply elem_of_sublist.
      * rewrite Hb. rewrite Hfl in Hg. apply elem_of_app in Hg as [Hg|Hg].
        -- apply lookup_app_l_Some. by apply Hflight.
        -- apply list_elem_of_singleton in Hg as ->. cbn.
           by rewrite lookup_app_r, Nat.sub_diag.
    + intros entry mf Hin. rewrite Hc in Hin.
      destruct (Hdone entry mf Hin) as (n & o & Hn & Ho & He).
      exists n, o. split; [| done].
      destruct Hcalls as [[-> _]|(w & -> & _)]; [done | by apply lookup_app_l_Some].
  - split; [| split].
    + intros p. rewrite Ht, Hc, record_inputs_lookup, last_completed_snoc.
      by rewrite Hindex.
    + intros g Hg. rewrite Hb. apply Hflight. by eapply elem_of_sublist.
    + intros entry mf Hin. rewrite Hc in Hin. rewrite Hb.
      apply elem_of_app in Hin as [Hin|Hin]; [by apply Hdone |].
      apply list_elem_of_singleton in Hin. injection Hin as -> ->.
      exists (f_call f), (buildOptionsClone isWatch [f_rootFile f] (f_rootFile f)).
      split; [by apply Hflight | done].
Qed.

Lemma overlap_keeps_history (schedule : list Step) :
  forall a,
    index_follows_history a /\ in_flight_are_calls isWatch a /\
    completed_are_calls esbuild_build a ->
    let a' := (overlap isWatch esbuild_build JSON_parse schedule a).2 in
    index_follows_history a' /\ in_flight_are_calls isWatch a' /\
    completed_are_calls esbuild_build a'.
Proof.
  induction schedule as [|s schedule IH]; intros a Ha; [done |].
  cbn [overlap]. pose proof (step_keeps_history s a Ha) as Hs. cbv zeta in *.
  destruct (step isWatch esbuild_build JSON_parse s a) as [[u|e] a1]; [by apply IH | done].
Qed.

(** No step takes a path out of the index. *)
Lemma step_keeps_paths (s : Step) (a : Async) (p : string) :
  is_Some (tree (now a) !! p) ->
  is_Some (tree (now (step isWatch esbuild_build JSON_parse s a).2) !! p).
Proof.
  intros Hp. pose proof (step_effect s a) as Heffect. cbv zeta in Heffect.
  destruct Heffect as [(-> & _)|(f & res & _ & _ & -> & _)]; [done |].
  rewrite record_inputs_lookup. by case_decide.
Qed.

Lemma overlap_keeps_paths (schedule : list Step) (p : string) :
  forall a,
    is_Some (tree (now a) !! p) ->
    is_Some (tree (now (overlap isWatch esbuild_build JSON_parse schedule a).2) !! p).
Proof.
  induction schedule as [|s schedule IH]; intros a Hp; [done |].
  cbn [overlap]. pose proof (step_keeps_paths s a p Hp) as Hs.
  destruct (step isWatch esbuild_build JSON_parse s a) as [[u|e] a1]; [by apply IH | done].
Qed.

(** The history of a log whose calls were awaited one by one gives the
    owners the log gives. *)
Lemma last_owner_from_completions (log : list BuildOptions) (p : string) :
  forall n acc,
    last_owner_from esbuild_build n log p acc =
    foldl (fun acc em => if decide (p ∈ inputs em.2) then Some em.1 else acc) acc
          (completions esbuild_build n log).
Proof.
  induction log as [|o log IH]; intros n acc; [done |].
  cbn [last_owner_from completions]. rewrite IH. unfold call_owner.
  destruct (esbuild_build n o) as [mf|e]; [| done].
  destruct (head (entryPoints o)) as [entry|]; cbn [foldl fst snd];
    by destruct (decide (p ∈ inputs mf)).
Qed.

Lemma completions_are_calls (log : list BuildOptions) :
  forall n entry mf,
    (entry, mf) ∈ completions esbuild_build n log ->
    exists k o, log !! k = Some o /\ esbuild_build (n + k)%nat o = Ok mf /\
                head (entryPoints o) = Some entry.
Proof.
  induction log as [|o log IH]; intros n entry mf; cbn [completions];
    [by intros ?%elem_of_nil |].
  assert ((entry, mf) ∈ completions esbuild_build (S n) log ->
          exists k o', (o :: log) !! k = Some o' /\ esbuild_build (n + k)%nat o' = Ok mf /\
                       head (entryPoints o') = Some entry) as Hrest.
  { intros (k & o' & Hk & Ho & He)%IH. exists (S k), o'.
    split; [done |]. split; [| done]. by replace (n + S k)%nat with (S n + k)%nat by lia. }
  destruct (esbuild_build n o) as [mf0|e] eqn:Hb; [| done].
  destruct (head (entryPoints o)) as [entry0|] eqn:Hh; [| done].
  intros [Heq|Hin]%elem_of_cons; [| by apply Hrest].
  injection Heq as -> ->. exists 0%nat, o. by rewrite Nat.add_0_r.
Qed.

Lemma idle_keeps_history (st : State) :
  owner_is_latest esbuild_build st ->
  index_follows_history (idle esbuild_build st) /\
  in_flight_are_calls isWatch (idle esbuild_build st) /\
  completed_are_calls esbuild_build (idle esbuild_build st).
Proof.
  intros Hlatest. split; [| split].
  - intros p. cbn. rewrite Hlatest. apply last_owner_from_completions.
  - by intros f ?%elem_of_nil.
  - intros entry mf Hin. cbn in *.
    destruct (completions_are_calls _ _ _ _ Hin) as (k & o & Hk & Ho & He).
    by exists k, o.
Qed.

End OverlapFacts.

Section OverlapRuns.

Context (isWatch : bool) (esbuild_build : nat -> BuildOptions -> Result Metafile)
        (JSON_parse : string -> option JSON).

(** The listener of the watcher is its first part, then [writeAssets] for
    the entry it resolved, then its report. *)
Lemma on_all_parts (event path : string) (st : State) :
  on_all isWatch esbuild_build event path st =
  match on_all_begin event path st with
  | (Ok (Some rootFile), st1) =>
      match writeAssets isWatch esbuild_build [rootFile] st1 with
      | (Ok res, st2) => on_all_report res path st2
      | (Throw e, st2) => (Throw e, st2)
      end
  | (Ok None, st1) => (Ok tt, st1)
  | (Throw e, st1) => (Throw e, st1)
  end.
Proof.
  unfold on_all, on_all_begin.
  set (first := if endsWith path ".hbs" then _ else _).
  change (bind first ?k st) with
    (match first st with (Ok x, st') => k x st' | (Throw e, st') => (Throw e, st') end).
  destruct (first st) as [[[]|e] st1]; [| done].
  destruct (endsWith path ".css" || endsWith path ".js" || endsWith path ".ts");
    [| done].
  change (bind (gets tree) ?k st1) with (k (tree st1) st1).
  cbv beta. unfold ret at 1.
  destruct (resolve (tree st1) path) as [rootFile|]; [| done].
  unfold on_all_report.
  change (bind (writeAssets isWatch esbuild_build [rootFile]) ?k st1) with
    (match writeAssets isWatch esbuild_build [rootFile] st1 with
     | (Ok x, st') => k x st' | (Throw e, st') => (Throw e, st') end).
  unfold ret. cbv beta iota.
  by destruct (writeAssets isWatch esbuild_build [rootFile] st1) as [[res|e] st2].
Qed.

Lemma overlap_app (l1 l2 : list Step) (a : Async) :
  overlap isWatch esbuild_build JSON_parse (l1 ++ l2) a =
  match overlap isWatch esbuild_build JSON_parse l1 a with
  | (Ok _, a') => overlap isWatch esbuild_build JSON_parse l2 a'
  | (Throw e, a') => (Throw e, a')
  end.
Proof.
  revert a. induction l1 as [|s l1 IH]; intros a; [done |].
  cbn [app overlap].
  destruct (step isWatch esbuild_build JSON_parse s a) as [[u|e] a1]; [apply IH | done].
Qed.

(** A listener that nothing overlaps is the handler run to its end: when
    no listener is under way, the parts of the listener of one event, one
    after the other, give the result and the state the handler gives, and
    leave no listener under way. *)
Lemma alone_is_handle (ev : Event) (a : Async) :
  at_rest a ->
  let r := overlap isWatch esbuild_build JSON_parse (alone ev) a in
  r.1 = (handle isWatch esbuild_build JSON_parse ev (now a)).1 /\
  now r.2 = (handle isWatch esbuild_build JSON_parse ev (now a)).2 /\
  at_rest r.2.
Proof.
  destruct a as [st ws fs bs log]. intros (Hw & Hf & Hb). cbn in Hw, Hf, Hb. subst.
  cbv zeta. unfold alone. cbn [overlap step now].
  destruct ev as [ms|event path| |message|i rs];
    try (unfold arrives; cbn [now];
         match goal with
         | |- context [handle _ _ _ ?e st] =>
             destruct (handle isWatch esbuild_build JSON_parse e st) as [[[]|err] st1]
         end; by cbn).
  cbn [handle]. rewrite on_all_parts. unfold arrives. cbn [now].
  destruct (on_all_begin event path st) as [[[rootFile|]|e] st1]; [| by cbn | by cbn].
  rewrite writeAssets_one_spec. unfold calls, settles, after_call.
  cbn [waiting in_flight built completed now w_rootFile w_path f_call f_rootFile f_path
       app lookup list_lookup delete list_delete].
  change (builds (set_builds (fun b => b ++ [buildOptionsClone isWatch [rootFile] rootFile]) st1))
    with (builds st1 ++ [buildOptionsClone isWatch [rootFile] rootFile]).
  destruct (esbuild_build (length (builds st1))
              (buildOptionsClone isWatch [rootFile] rootFile)) as [res|e]; [| by cbn].
  rewrite reduce_outputs_spec. unfold reports.
  cbn [waiting in_flight built completed now b_res b_path
       app lookup list_lookup delete list_delete].
  match goal with
  | |- context [on_all_report ?r path ?s] =>
      destruct (on_all_report r path s) as [[[]|err] st2]
  end; by cbn.
Qed.

(** Running the handlers one after the other, each to its end, is the
    schedule of the process in which no two listeners overlap. *)
Lemma run_is_overlap_alone (events : list Event) :
  forall a,
    at_rest a ->
    let r := overlap isWatch esbuild_build JSON_parse (concat (map alone events)) a in
    r.1 = (run isWatch esbuild_build JSON_parse events (now a)).1 /\
    now r.2 = (run isWatch esbuild_build JSON_parse events (now a)).2.
Proof.
  induction events as [|ev events IH]; intros a Ha; [done |].
  cbv zeta. change (concat (map alone (ev :: events)))
    with (alone ev ++ concat (map alone events)).
  rewrite overlap_app. cbn [run]. unfold bind.
  pose proof (alone_is_handle ev a Ha) as (Hr & Hst & Hrest). cbv zeta in Hr, Hst, Hrest.
  destruct (overlap isWatch esbuild_build JSON_parse (alone ev) a) as [[u|e] a1];
    destruct (handle isWatch esbuild_build JSON_parse ev (now a)) as [[v|e'] st1];
    cbn in Hr, Hst; try done.
  subst st1. apply (IH a1 Hrest).
Qed.

Context (ghost_ls : option string).

(** In every state of a process, however its rebuilds overlap, the index
    follows the history of the completed builds, and that history and the
    calls in flight are calls of the log. *)
Lemma process_overlapping_history (js_dir css_dir : fsnode) (schedule : list Step) :
  let a := (process_overlapping isWatch esbuild_build JSON_parse ghost_ls
              js_dir css_dir schedule initial_state).2 in
  index_follows_history a /\ in_flight_are_calls isWatch a /\
  completed_are_calls esbuild_build a.
Proof.
  cbv zeta. unfold process_overlapping.
  pose proof (process_owner_is_latest isWatch esbuild_build JSON_parse ghost_ls
                js_dir css_dir []) as Hlatest.
  unfold process, bind in Hlatest. cbn [run] in Hlatest.
  destruct (init isWatch esbuild_build ghost_ls js_dir css_dir initial_state)
    as [[[]|e] st]; cbn in Hlatest.
  - apply (overlap_keeps_history isWatch esbuild_build JSON_parse).
    by apply idle_keeps_history.
  - by apply idle_keeps_history.
Qed.

End OverlapRuns.

(** C2. In every state a process reaches, in whatever order the events
    arrive and the bundler answers, each path of the index has one owner,
    the index being a map: the entry of the most recent build to complete
    that consumed it. No step of the process and no run of steps removes a
    path from the index; and a build of an entry that no longer consumes
    [x] leaves the owner of [x] as it was, when the bundler answers a call
    in flight as in a call of [writeAssets] for that entry alone. *)
Theorem C2_index_keeps_latest_owner_and_stale_entries
    (isWatch : bool) (esbuild_build : nat -> BuildOptions -> Result Metafile)
    (JSON_parse : string -> option JSON) (ghost_ls : option string) :
  (forall (js_dir css_dir : fsnode) (schedule : list Step) (p : string),
      let a := (process_overlapping isWatch esbuild_build JSON_parse ghost_ls
                  js_dir css_dir schedule initial_state).2 in
      tree (now a) !! p = last_completed (completed a) p) /\
  (forall (s : Step) (a : Async) (p : string),
      is_Some (tree (now a) !! p) ->
      is_Some (tree (now (step isWatch esbuild_build JSON_parse s a).2) !! p)) /\
  (forall (schedule : list Step) (a : Async) (p : string),
      is_Some (tree (now a) !! p) ->
      is_Some (tree (now (overlap isWatch esbuild_build JSON_parse schedule a).2) !! p)) /\
  (forall (k : nat) (a : Async) (f : InFlight) (mf : Metafile) (x : string),
      in_flight a !! k = Some f ->
      esbuild_build (f_call f)
        (buildOptionsClone isWatch [f_rootFile f] (f_rootFile f)) = Ok mf ->
      x ∉ inputs mf ->
      tree (now (settles isWatch esbuild_build k a).2) !! x = tree (now a) !! x) /\
  (forall (E : string) (st : State) (mf : Metafile) (x : string),
      esbuild_build (length (builds st)) (buildOptionsClone isWatch [E] E) = Ok mf ->
      x ∉ inputs mf ->
      tree (writeAssets isWatch esbuild_build [E] st).2 !! x = tree st !! x).
Proof.
  split; [| split; [| split; [| split]]].
  - intros js_dir css_dir schedule p a.
    by apply (process_overlapping_history isWatch esbuild_build JSON_parse ghost_ls
                js_dir css_dir schedule).
  - intros s a p. apply step_keeps_paths.
  - intros schedule a p. apply overlap_keeps_paths.
  - intros k a f mf x Hf Hb Hx. unfold settles. rewrite Hf. cbv zeta. rewrite Hb.
    destruct (reduce_outputs (outputs mf) []) as [vals|e]; cbn;
      rewrite record_inputs_lookup; by rewrite decide_False.
  - intros E st mf x Hb Hx. rewrite writeAssets_one_spec, Hb. simpl.
    rewrite record_inputs_lookup. by rewrite decide_False.
Qed.

(** C2 on two rebuilds that cross: the changes of the script and of the
    style arrive, the script is called first, and the bundler answers the
    style first. The module both consume is left to the script, whose build
    completed last, although the last call of the log that consumed it is
    the one for the style. On a bundler that sees the source change, a
    second build of the entry leaves the owner of the module it no longer
    consumes. *)
Lemma C2_index_stale_entry_witness :
  tree (now (process_overlapping true Sample.bundler JsonText.JSON_parse
               (Some "http://localhost:2368") Sample.js_dir Sample.css_dir
               Sample6.crossing initial_state).2) !! "assets/js/lib/util.js"
  = Some "assets/js/index.js" /\
  last_owner Sample.bundler
    (builds (now (process_overlapping true Sample.bundler JsonText.JSON_parse
                    (Some "http://localhost:2368") Sample.js_dir Sample.css_dir
                    Sample6.crossing initial_state).2)) "assets/js/lib/util.js"
  = Some "assets/css/index.css" /\
  tree (writeAssets true Sample.changing_bundler ["assets/js/index.js"]
          (writeAssets true Sample.changing_bundler ["assets/js/index.js"]
             initial_state).2).2 !! "assets/js/lib/util.js" =
  tree (writeAssets true Sample.changing_bundler ["assets/js/index.js"]
          initial_state).2 !! "assets/js/lib/util.js".
Proof.
  pose proof (C2_index_keeps_latest_owner_and_stale_entries true
                Sample.changing_bundler JsonText.JSON_parse None)
    as (_ & _ & _ & _ & Hstale).
  pose proof (C2_index_keeps_latest_owner_and_stale_entries true
                Sample.bundler JsonText.JSON_parse (Some "http://localhost:2368"))
    as (Hlatest & _).
  split; [| split].
  - rewrite Hlatest. vm_compute. reflexivity.
  - vm_compute. reflexivity.
  - eapply Hstale; [reflexivity |].
    intros Hin. apply list_elem_of_singleton in Hin. discriminate Hin.
Defined.

(** X4. In every state a process reaches, however its rebuilds overlap, the
    index holds exactly the paths that some build that has completed
    reported among its inputs, and each of these builds is a call of the
    log that the bundler answered with that report: none is missing and
    none is made up. *)
Theorem X4_index_holds_exactly_the_recorded_paths
    (isWatch : bool) (esbuild_build : nat -> BuildOptions -> Result Metafile)
    (JSON_parse : string -> option JSON) (ghost_ls : option string)
    (js_dir css_dir : fsnode) (schedule : list Step) (p : string) :
  let a := (process_overlapping isWatch esbuild_build JSON_parse ghost_ls
              js_dir css_dir schedule initial_state).2 in
  (is_Some (tree (now a) !! p) <->
   exists entry mf, (entry, mf) ∈ completed a /\ p ∈ inputs mf) /\
  (forall entry mf, (entry, mf) ∈ completed a ->
     exists n o, builds (now a) !! n = Some o /\
                 esbuild_build n o = Ok mf /\
                 head (entryPoints o) = Some entry).
Proof.
  intros a.
  destruct (process_overlapping_history isWatch esbuild_build JSON_parse ghost_ls
              js_dir css_dir schedule) as (Hindex & _ & Hdone).
  fold a in Hindex, Hdone. split; [| exact Hdone].
  rewrite (Hindex p). apply last_completed_is_Some.
Qed.
